(** * Decluttered.ai: the agents' coordination logic, embedded and verified

    The Python agents under [src/agents] are message handlers over a
    module-level state object.  Each handler is embedded as a function
    from the state before and the message to the state after and the list
    of effects it performs (messages sent, warning and error log lines,
    report files written, and the exception that leaves the handler when
    no [except] clause catches it).
    What a handler obtains from outside the program (the file system, the
    clock, the detector, the vision model, the Python evaluator, the
    validation of a message's fields, HTTP replies) is an explicit
    argument of its embedding.

    Conventions.
    - A Python [str] is a [string] holding one character per code point
      below 256 (Latin-1); [int] is [Z]; a [float] timestamp is the
      rational it denotes ([Q]).
    - A [dict] whose iteration order is observed is an association list
      in insertion order with distinct keys ([PyDict]); a [dict] used
      only through lookup, store and removal is a [gmap].
    - Only [logger.warning] and [logger.error] lines are kept among the
      log effects; informational lines and [print] output are left out. *)

From Stdlib Require Import ZArith QArith Ascii String DecimalString DecimalPos DecimalZ.
From stdpp Require Import gmap strings list.

Open Scope Z_scope.
Set Warnings "-register-all".

(** ** Python string primitives used by the agents *)

Module PyStr.

Definition chars (s : string) : list ascii := list_ascii_of_string s.
Definition of_chars (l : list ascii) : string := string_of_list_ascii l.

Definition ascii_eqb (a b : ascii) : bool := Ascii.eqb a b.

Fixpoint mem_char (c : ascii) (cs : list ascii) : bool :=
  match cs with
  | [] => false
  | d :: cs' => ascii_eqb c d || mem_char c cs'
  end.

Fixpoint lstrip_by (p : ascii -> bool) (l : list ascii) : list ascii :=
  match l with
  | [] => []
  | c :: l' => if p c then lstrip_by p l' else l
  end.

Definition strip_by (p : ascii -> bool) (l : list ascii) : list ascii :=
  rev (lstrip_by p (rev (lstrip_by p l))).

(** [s.strip(cs)]: drop leading and trailing characters that occur in [cs]. *)
Definition strip (cs : string) (s : string) : string :=
  of_chars (strip_by (fun c => mem_char c (chars cs)) (chars s)).

Fixpoint is_prefix (p l : list ascii) : bool :=
  match p, l with
  | [], _ => true
  | _ :: _, [] => false
  | a :: p', b :: l' => ascii_eqb a b && is_prefix p' l'
  end.

(** Left-to-right scan of [s.split(sep)] for a non-empty [sep]: [skip]
    counts the characters of a matched separator still to be passed,
    [cur] is the current piece, reversed. *)
Fixpoint split_scan (sep : list ascii) (skip : nat) (cur : list ascii)
         (l : list ascii) : list string :=
  match l with
  | [] => [of_chars (rev cur)]
  | c :: l' =>
      match skip with
      | S k => split_scan sep k cur l'
      | O =>
          if is_prefix sep l
          then of_chars (rev cur) :: split_scan sep (List.length sep - 1) [] l'
          else split_scan sep 0 (c :: cur) l'
      end
  end.

Definition split (sep : string) (s : string) : list string :=
  split_scan (chars sep) 0 [] (chars s).

(** Characters [int()] skips around the number: the ASCII white space
    and, above 126, the Unicode white space (NEL and NBSP in Latin-1). *)
Definition is_int_space (c : ascii) : bool :=
  let n := nat_of_ascii c in
  ((9 <=? n)%nat && (n <=? 13)%nat) || (n =? 32)%nat
  || (n =? 133)%nat || (n =? 160)%nat.

Definition digit_of (c : ascii) : option Z :=
  let n := nat_of_ascii c in
  if ((48 <=? n)%nat && (n <=? 57)%nat)%bool
  then Some (Z.of_nat (n - 48)) else None.

(** Decimal digits with single underscores between digits; returns the
    value and the number of digit characters. *)
Fixpoint int_digits (prev_digit : bool) (acc : Z) (count : nat)
         (l : list ascii) : option (Z * nat) :=
  match l with
  | [] => if prev_digit then Some (acc, count) else None
  | c :: l' =>
      if ascii_eqb c "_"%char
      then (if prev_digit then int_digits false acc count l' else None)
      else match digit_of c with
           | Some d => int_digits true (10 * acc + d) (S count) l'
           | None => None
           end
  end.

Section Runtime.
(** The interpreter's limit on the digits of a decimal literal
    ([sys.get_int_max_str_digits()]; 0 means no limit, 4300 is the
    default from Python 3.11 on).  It only applies above 640 digits. *)
Variable int_max_str_digits : nat.

Definition within_digit_limit (count : nat) : bool :=
  negb ((640 <? count)%nat && (0 <? int_max_str_digits)%nat
        && (int_max_str_digits <? count)%nat).

Definition int_unsigned (l : list ascii) : option Z :=
  match int_digits false 0 0%nat l with
  | Some (v, count) => if within_digit_limit count then Some v else None
  | None => None
  end.

(** [int(s)] in base 10; [None] stands for [ValueError]. *)
Definition int (s : string) : option Z :=
  match strip_by is_int_space (chars s) with
  | c :: l =>
      if ascii_eqb c "-"%char then Z.opp <$> int_unsigned l
      else if ascii_eqb c "+"%char then int_unsigned l
      else int_unsigned (c :: l)
  | [] => None
  end.

(** [map(int, pieces)] forced by [tuple(...)]: the first failure raises. *)
Fixpoint map_int (pieces : list string) : option (list Z) :=
  match pieces with
  | [] => Some []
  | p :: ps =>
      match int p with
      | Some z => match map_int ps with
                  | Some zs => Some (z :: zs)
                  | None => None
                  end
      | None => None
      end
  end.
End Runtime.

(** [c.lower()] for a code point below 256: A-Z and the Latin-1
    capitals (U+00C0-U+00DE without the multiplication sign). *)
Definition lower_char (c : ascii) : ascii :=
  let n := nat_of_ascii c in
  if ((65 <=? n)%nat && (n <=? 90)%nat)
     || ((192 <=? n)%nat && (n <=? 222)%nat && negb (n =? 215)%nat)
  then ascii_of_nat (n + 32) else c.

Definition lower (s : string) : string := of_chars (List.map lower_char (chars s)).

(** [str(n)] for an [int]. *)
Definition of_int (n : Z) : string := NilZero.string_of_int (Z.to_int n).

(** [str(o)] for an [Optional[str]], as an f-string renders it. *)
Definition of_optional (o : option string) : string :=
  match o with Some s => s | None => "None" end.

(** White space of [s.strip()] ([str.isspace]) below 256. *)
Definition is_space (c : ascii) : bool :=
  let n := nat_of_ascii c in
  ((9 <=? n)%nat && (n <=? 13)%nat) || ((28 <=? n)%nat && (n <=? 32)%nat)
  || (n =? 133)%nat || (n =? 160)%nat.

Definition strip_space (s : string) : string :=
  of_chars (strip_by is_space (chars s)).

(** [s.replace(a, b)] for single characters [a] and [b]. *)
Definition replace_char (a b : ascii) (s : string) : string :=
  of_chars (List.map (fun c => if ascii_eqb c a then b else c) (chars s)).

(** [os.path.basename] (POSIX): what follows the last slash. *)
Fixpoint basename_scan (cur : list ascii) (l : list ascii) : list ascii :=
  match l with
  | [] => rev cur
  | c :: l' => if ascii_eqb c "/"%char then basename_scan [] l'
               else basename_scan (c :: cur) l'
  end.

Definition basename (path : string) : string :=
  of_chars (basename_scan [] (chars path)).

(** [int(x)] for a [float]: truncation towards zero. *)
Definition int_of_float (x : Q) : Z := Z.quot (Qnum x) (Z.pos (Qden x)).

(** [a > b] on [float]. *)
Definition float_gt (a b : Q) : bool := negb (Qle_bool a b).

(** The line feed. *)
Definition newline : string := String (ascii_of_N 10) EmptyString.

(** [sep.join(l)]. *)
Fixpoint join (sep : string) (l : list string) : string :=
  match l with
  | [] => EmptyString
  | [s] => s
  | s :: l' => s ++ sep ++ join sep l'
  end.

(** [s.endswith(suffix)]. *)
Definition endswith (suffix s : string) : bool :=
  is_prefix (rev (chars suffix)) (rev (chars s)).

(** [sub in s]. *)
Fixpoint contains_scan (sub l : list ascii) : bool :=
  is_prefix sub l
  || match l with
     | [] => false
     | _ :: l' => contains_scan sub l'
     end.

Definition contains (sub s : string) : bool := contains_scan (chars sub) (chars s).

(** [os.path.join(a, b)] (POSIX). *)
Definition path_join (a b : string) : string :=
  if is_prefix (chars "/") (chars b) then b
  else if bool_decide (a = EmptyString) || endswith "/" a then a ++ b
  else a ++ "/" ++ b.

End PyStr.

(** ** Insertion-ordered dictionaries *)

Module PyDict.
Section Dict.
Context {K V : Type} `{EqDecision K}.

Fixpoint get (k : K) (d : list (K * V)) : option V :=
  match d with
  | [] => None
  | (k', v) :: d' => if decide (k = k') then Some v else get k d'
  end.

(** [d[k] = v]: an existing key keeps its position, a new key goes last. *)
Fixpoint set (k : K) (v : V) (d : list (K * V)) : list (K * V) :=
  match d with
  | [] => [(k, v)]
  | (k', v') :: d' =>
      if decide (k = k') then (k, v) :: d' else (k', v') :: set k v d'
  end.

Definition keys (d : list (K * V)) : list K := d.*1.
Definition values (d : list (K * V)) : list V := d.*2.

(** Well-formedness: a dictionary holds each key once. *)
Definition wf (d : list (K * V)) : Prop := NoDup (keys d).
End Dict.
End PyDict.

(** ** Message models *)

(** [Dict[str, Any]] payloads carried through unchanged. *)
Module Json.
Inductive t :=
  | Null
  | Bool (b : bool)
  | Num (q : Q)
  | Str (s : string)
  | List (l : list t)
  | Dict (d : list (string * t)).
End Json.

(** The models of the camera chain (detection_agent.py,
    ai_evaluator_agent.py, image_processor_agent.py,
    report_coordinator_agent.py). *)

Module CapturedImage.
Record t := mk {
  filename : string;
  timestamp : Z;
  file_path : string;
  capture_index : Z;
  session_id : string
}.
End CapturedImage.

Module DetectionResult.
Record t := mk {
  image_path : string;
  timestamp : Z;
  session_id : string;
  detected_objects : list (string * string);
  unique_classes : list string;
  detection_count : nat;
  largest_instances : list (string * string)
}.
End DetectionResult.

Module EvaluationResult.
Record t := mk {
  image_path : string;
  timestamp : Z;
  session_id : string;
  original_objects : list string;
  resellable_items : list string;
  evaluation_confidence : string;
  gemini_raw_response : string;
  filtered_detections : list (string * string)
}.
End EvaluationResult.

(** One value of [processing_summary]. *)
Module CropDetails.
Record t := mk {
  coordinates : list Z;
  area : Z;
  cropped_file : string;
  border_percentage : Q
}.
End CropDetails.

Module ProcessingResult.
Record t := mk {
  original_image_path : string;
  timestamp : Z;
  session_id : string;
  resellable_objects : list string;
  cropped_files : list string;
  processing_summary : list (string * CropDetails.t);
  total_objects_processed : nat
}.
End ProcessingResult.

Module StartSystem.
Record t := mk {
  duration_seconds : Z;
  max_captures : Z;
  cooldown_seconds : Q
}.
End StartSystem.

(** The models of api_message_models.py used by the pipeline coordinator
    and the image recognition agent. *)

Module ImageRecognitionRequest.
Record t := mk {
  image_base64 : string;
  session_id : string;
  request_id : string
}.
End ImageRecognitionRequest.

Module ImageRecognitionResult.
Record t := mk {
  session_id : string;
  request_id : string;
  success : bool;
  product_name : option string;
  source_url : option string;
  host : option string;
  pricing : option (list (string * Json.t));
  rating : option (list (string * Json.t));
  error_message : option string
}.
End ImageRecognitionResult.

Module PriceResearchRequest.
Record t := mk {
  product_name : string;
  platforms : list string;
  condition_filter : string;
  session_id : string;
  request_id : string
}.
End PriceResearchRequest.

Module PriceComparison.
Record t := mk {
  platform : string;
  title : string;
  price : Q;
  condition : string;
  location : option string;
  url : option string;
  image_url : option string;
  posted_date : option string;
  sold_date : option string;
  shipping : option string;
  semantic_match_score : option Q
}.
End PriceComparison.

Module PriceSummary.
Record t := mk {
  total_listings : Z;
  price_range : list (string * Q);
  condition_breakdown : list (string * Z);
  platform_breakdown : list (string * Z)
}.
End PriceSummary.

Module PriceResearchResult.
Record t := mk {
  session_id : string;
  request_id : string;
  success : bool;
  query : option string;
  comps : list PriceComparison.t;
  summary : option PriceSummary.t;
  currency : string;
  total_found : Z;
  error_message : option string
}.
End PriceResearchResult.

Module ListingResult.
Record t := mk {
  platform : string;
  success : bool;
  status : option string;
  listing_url : option string;
  listing_id : option string;
  message : option string;
  error_message : option string
}.
End ListingResult.

Module ListingCreationResult.
Record t := mk {
  session_id : string;
  request_id : string;
  success : bool;
  listings : list ListingResult.t;
  listing_data : option (list (string * Json.t));
  summary : option (list (string * Json.t));
  error_message : option string
}.
End ListingCreationResult.

Module CompletePipelineRequest.
Record t := mk {
  image_base64 : string;
  target_platforms : list string;
  condition_filter : string;
  product_condition : string;
  session_id : string
}.
End CompletePipelineRequest.

Module CompletePipelineResult.
Record t := mk {
  session_id : string;
  success : bool;
  steps_completed : list string;
  image_recognition : option ImageRecognitionResult.t;
  price_research : option PriceResearchResult.t;
  listing_creation : option ListingCreationResult.t;
  error_message : option string;
  total_execution_time_ms : option Z
}.
End CompletePipelineResult.

(** ** Effects of a handler *)

Inductive message :=
  | MDetectionResult (m : DetectionResult.t)
  | MEvaluationResult (m : EvaluationResult.t)
  | MProcessingResult (m : ProcessingResult.t)
  | MImageRecognitionRequest (m : ImageRecognitionRequest.t)
  | MImageRecognitionResult (m : ImageRecognitionResult.t)
  | MPriceResearchRequest (m : PriceResearchRequest.t)
  | MCompletePipelineResult (m : CompletePipelineResult.t)
  | MCapturedImage (m : CapturedImage.t).

Inductive log_level := Warning | Error.

Inductive effect :=
  | Send (destination : string) (m : message)   (* [await ctx.send(destination, m)] *)
  | Log (level : log_level) (text : string)     (* [ctx.logger.warning/error(text)] *)
  | Write (path : string) (content : string)    (* [open(path, "w")] and the text written *)
  | Raise (exception : string).                 (* the handler is left by an exception
                                                   that it does not catch *)

(** The messages a handler sent, in order. *)
Definition sent (effects : list effect) : list (string * message) :=
  omap (fun e => match e with Send dest m => Some (dest, m) | _ => None end) effects.

(** ** detection_agent.py *)

Module DetectionAgent.

Definition AI_EVALUATOR_ADDRESS : string :=
  "agent1q0vgqkwxlz7lfve6tqyse6z7m3zccv4uv7kt484jlc77dutxngzy62ea92p".

(** The loaded detector, opaque but for the weights it was built from. *)
Inductive YOLO := YoloModel (weights : string).

Record DetectionState := mkDetectionState {
  yolo_model : option YOLO;
  images_processed : nat;
  current_session : string;
  global_seen_objects : gset string;
  processed_files : gset string
}.

Definition set_processed_files (files : gset string) (st : DetectionState) :=
  mkDetectionState (yolo_model st) (images_processed st) (current_session st)
                   (global_seen_objects st) files.

Definition set_images_processed (n : nat) (st : DetectionState) :=
  mkDetectionState (yolo_model st) n (current_session st)
                   (global_seen_objects st) (processed_files st).

(** [current_session = session_id; global_seen_objects.clear()]. *)
Definition start_session (session_id : string) (st : DetectionState) :=
  mkDetectionState (yolo_model st) (images_processed st) session_id
                   ∅ (processed_files st).

(** One detected box: the class name looked up from its class id and the
    corner coordinates after [int(c)]. *)
Record Box := mkBox {
  class_name : string;
  xyxy : Z * Z * Z * Z
}.

(** What [yolo_model.predict] gives: an exception with its text, or one
    result per source with its boxes. *)
Inductive predict_outcome :=
  | PredictRaises (e : string)
  | PredictResults (results : list (list Box)).

(** [str(coords)] for a 4-tuple of [int]. *)
Definition str_of_coords (coords : Z * Z * Z * Z) : string :=
  let '(x_min, y_min, x_max, y_max) := coords in
  "(" ++ PyStr.of_int x_min ++ ", " ++ PyStr.of_int y_min ++ ", "
      ++ PyStr.of_int x_max ++ ", " ++ PyStr.of_int y_max ++ ")".

(** The nested loops filling [all_detections]. *)
Definition collect_detections (results : list (list Box)) : list (string * string) :=
  fold_left
    (fun all_detections result =>
       fold_left
         (fun all_detections box =>
            PyDict.set (str_of_coords (xyxy box)) (class_name box) all_detections)
         result all_detections)
    results [].

Section Runtime.
Variable int_max_str_digits : nat.

(** [calculate_bbox_area]: every exception of the body gives [0.0]. *)
Definition calculate_bbox_area (coords_str : string) : Z :=
  let coords_str := PyStr.strip "()" coords_str in
  match PyStr.map_int int_max_str_digits (PyStr.split ", " coords_str) with
  | Some [x_min; y_min; x_max; y_max] => (x_max - x_min) * (y_max - y_min)
  | _ => 0
  end.

(** One iteration of the first loop of [select_largest_instances];
    [class_largest] maps class_name to (coords_key, area). *)
Definition largest_step (class_largest : list (string * (string * Z)))
           (item : string * string) : list (string * (string * Z)) :=
  let '(coords_key, class_name) := item in
  let area := calculate_bbox_area coords_key in
  match PyDict.get class_name class_largest with
  | None => PyDict.set class_name (coords_key, area) class_largest
  | Some (current_coords_key, current_area) =>
      if area >? current_area
      then PyDict.set class_name (coords_key, area) class_largest
      else class_largest
  end.

Definition class_largest_of (all_detections : list (string * string))
  : list (string * (string * Z)) :=
  fold_left largest_step all_detections [].

Definition select_largest_instances (all_detections : list (string * string))
  : list (string * string) :=
  fold_left (fun filtered_detections entry =>
               let '(class_name, (coords_key, area)) := entry in
               PyDict.set coords_key class_name filtered_detections)
            (class_largest_of all_detections) [].

(** Handler [process_captured_image].  [path_exists] is
    [os.path.exists]; [predict] is the detector's answer for an image
    path; [list_of_set] is the order in which [list(set(...))]
    enumerates. *)
Definition process_captured_image
           (path_exists : string -> bool)
           (predict : string -> predict_outcome)
           (list_of_set : gset string -> list string)
           (detection_state : DetectionState) (msg : CapturedImage.t)
  : DetectionState * list effect :=
  match yolo_model detection_state with
  | None =>
      (detection_state,
       [Log Error "[DETECTION] YOLO model not loaded, cannot process image"])
  | Some _ =>
      let file_path := CapturedImage.file_path msg in
      if negb (path_exists file_path) then
        (detection_state,
         [Log Error ("[DETECTION] Image file not found: " ++ file_path)])
      else if bool_decide (file_path ∈ processed_files detection_state) then
        (detection_state, [])
      else
        let st := set_processed_files
                    ({[file_path]} ∪ processed_files detection_state)
                    detection_state in
        let st :=
          if bool_decide (current_session st ≠ CapturedImage.session_id msg)
          then start_session (CapturedImage.session_id msg) st
          else st in
        match predict file_path with
        | PredictRaises e =>
            (st, [Log Error ("[DETECTION] Error processing image "
                             ++ CapturedImage.filename msg ++ ": " ++ e)])
        | PredictResults results =>
            let all_detections := collect_detections results in
            match all_detections with
            | [] => (st, [])
            | _ :: _ =>
                let filtered_detections :=
                  select_largest_instances all_detections in
                let unique_object_names :=
                  list_of_set (list_to_set (PyDict.values filtered_detections)) in
                let st := set_images_processed (S (images_processed st)) st in
                let detection_result :=
                  DetectionResult.mk
                    file_path
                    (CapturedImage.timestamp msg)
                    (CapturedImage.session_id msg)
                    all_detections
                    unique_object_names
                    (List.length filtered_detections)
                    filtered_detections in
                (st, [Send AI_EVALUATOR_ADDRESS (MDetectionResult detection_result)])
            end
        end
  end.

(** The timestamp [process_batch_images] gives a file: the number
    between the first underscore and the next dot for a [frame_] name,
    the clock ([now] is [time.time()]) otherwise and whenever that number
    does not parse. *)
Definition batch_timestamp (now : Q) (filename : string) : Z :=
  if PyStr.is_prefix (PyStr.chars "frame_") (PyStr.chars filename) then
    match PyStr.split "_" filename with
    | _ :: second :: _ =>
        match PyStr.split "." second with
        | first :: _ =>
            match PyStr.int int_max_str_digits first with
            | Some timestamp => timestamp
            | None => PyStr.int_of_float now
            end
        | [] => PyStr.int_of_float now
        end
    | _ => PyStr.int_of_float now
    end
  else PyStr.int_of_float now.

(** One iteration of the loop of [process_batch_images]; [clock] gives
    the reading of [time.time()] taken for a path. *)
Definition batch_step
           (path_exists : string -> bool)
           (predict : string -> predict_outcome)
           (list_of_set : gset string -> list string)
           (clock : string -> Q)
           (acc : DetectionState * list effect) (image_path : string)
  : DetectionState * list effect :=
  let '(st, effects) := acc in
  if bool_decide (image_path ∈ processed_files st) then acc
  else
    let filename := PyStr.basename image_path in
    let mock_msg :=
      CapturedImage.mk filename (batch_timestamp (clock image_path) filename)
                       image_path 0 "batch_processing" in
    let '(st, more) :=
      process_captured_image path_exists predict list_of_set st mock_msg in
    (st, effects ++ more).

(** Periodic task [process_batch_images]; [image_paths] is the sorted
    result of the [glob] over the capture folder. *)
Definition process_batch_images
           (path_exists : string -> bool)
           (predict : string -> predict_outcome)
           (list_of_set : gset string -> list string)
           (clock : string -> Q)
           (image_paths : list string)
           (detection_state : DetectionState)
  : DetectionState * list effect :=
  match yolo_model detection_state with
  | None => (detection_state, [])
  | Some _ =>
      if negb (path_exists "captures") then (detection_state, [])
      else
        fold_left (batch_step path_exists predict list_of_set clock)
                  image_paths (detection_state, [])
  end.
End Runtime.

End DetectionAgent.

(** ** ai_evaluator_agent.py *)

Module AiEvaluatorAgent.

Definition IMAGE_PROCESSOR_ADDRESS : string :=
  "agent1qwgxuc8z9nsafsl30creg2hhykclaw4pnwm7ge9e5l3qakrx4r6nu67p2au".

(** The configured Gemini client, opaque but for its model name. *)
Inductive GenerativeModel := GeminiModel (model_name : string).

Record EvaluatorState := mkEvaluatorState {
  gemini_model : option GenerativeModel;
  images_evaluated : nat;
  current_session : string;
  api_calls_made : nat;
  api_available : bool
}.

Definition set_current_session (session_id : string) (st : EvaluatorState) :=
  mkEvaluatorState (gemini_model st) (images_evaluated st) session_id
                   (api_calls_made st) (api_available st).

Definition set_api_calls_made (n : nat) (st : EvaluatorState) :=
  mkEvaluatorState (gemini_model st) (images_evaluated st) (current_session st)
                   n (api_available st).

Definition set_images_evaluated (n : nat) (st : EvaluatorState) :=
  mkEvaluatorState (gemini_model st) n (current_session st)
                   (api_calls_made st) (api_available st).

(** The values [eval] can return, as far as the handler tells them
    apart: a [str]; a [bytes] or [bytearray], which is not a [str] but
    has a [lower] method; a [list]; or an object of another type (named
    by [type_name]), taken to have no [lower] method, as is the case of
    every other built-in type. *)
Inductive pyobj :=
  | PStr (s : string)
  | PBytes (b : string)                (* one character per byte *)
  | PList (items : list pyobj)
  | PObj (type_name : string).

(** [eval(text)]: an [Exception] with its text; an exception that is not
    an [Exception] and so passes every [except Exception] ([SystemExit]
    from [exit()], [KeyboardInterrupt], [GeneratorExit]); or a value.
    The evaluation is taken to end and to leave the agent's state as it
    is. *)
Inductive eval_outcome :=
  | EvalRaises (e : string)
  | EvalEscapes (e : string)
  | EvalValue (v : pyobj).

(** [process_image_and_objects_for_resale]: [gemini_reply] is the text of
    the model's response for an image and an object list, [None] when
    reading the image or calling the model raises. *)
Definition process_image_and_objects_for_resale
           (gemini_reply : string -> list string -> option string)
           (evaluator_state : EvaluatorState)
           (image_path : string) (yolo_object_list : list string)
  : EvaluatorState * string :=
  match gemini_model evaluator_state with
  | None => (evaluator_state, "[]")
  | Some _ =>
      let st := set_api_calls_made (S (api_calls_made evaluator_state)) evaluator_state in
      match gemini_reply image_path yolo_object_list with
      | Some text => (st, PyStr.strip_space text)
      | None => (st, "[]")
      end
  end.

(** The parse step: [eval], then the [isinstance(_, list)] check; an
    [Exception] gives the empty list and a warning.  An exception that
    is not an [Exception] is caught neither here nor by the handler:
    there is no list then, and the handler is left. *)
Definition parse_resellable_names (py_eval : string -> eval_outcome)
           (gemini_raw_result : string) : option (list pyobj) * list effect :=
  match py_eval gemini_raw_result with
  | EvalValue (PList items) => (Some items, [])
  | EvalValue _ => (Some [], [])
  | EvalRaises e =>
      (Some [], [Log Warning ("[AI_EVALUATOR] Failed to parse Gemini response: " ++ e)])
  | EvalEscapes e => (None, [Raise e])
  end.

(** [bytes.lower()]: the ASCII capitals only. *)
Definition lower_byte (c : ascii) : ascii :=
  let n := N_of_ascii c in
  if ((65 <=? n) && (n <=? 90))%N then ascii_of_N (n + 32) else c.

Definition bytes_lower (b : string) : string :=
  PyStr.of_chars (List.map lower_byte (PyStr.chars b)).

(** The result of [name.lower()]: a [str], or a bytes value, which
    equals no [str]. *)
Inductive lowered :=
  | LStr (s : string)
  | LBytes (b : string).

#[global] Instance lowered_eq_dec : EqDecision lowered.
Proof. solve_decision. Defined.

(** [name.lower()]: the result, or the text of the [AttributeError]. *)
Definition lower_of (name : pyobj) : string + lowered :=
  match name with
  | PStr s => inr (LStr (PyStr.lower s))
  | PBytes b => inr (LBytes (bytes_lower b))
  | PList _ => inl "'list' object has no attribute 'lower'"
  | PObj type_name => inl ("'" +:+ type_name +:+ "' object has no attribute 'lower'")
  end.

(** [[name.lower() for name in resellable_names]]. *)
Fixpoint normalize_names (resellable_names : list pyobj) : string + list lowered :=
  match resellable_names with
  | [] => inr []
  | name :: names =>
      match lower_of name with
      | inl e => inl e
      | inr l => match normalize_names names with
                 | inl e => inl e
                 | inr ls => inr (l :: ls)
                 end
      end
  end.

(** The names as the [List[str]] field [resellable_items] of the message
    takes them.  A [str] is taken as it is.  What the message model
    makes of a bytes value is the library's: [str_of_bytes] gives the
    [str] it reads it as, or the text of the [ValidationError] it
    raises.  Items of other types do not come this far. *)
Fixpoint names_as_str (str_of_bytes : string -> string + string)
         (resellable_names : list pyobj) : string + list string :=
  match resellable_names with
  | [] => inr []
  | name :: names =>
      let item :=
        match name with
        | PStr s => inr s
        | PBytes b => str_of_bytes b
        | PList _ => inl "str type expected"
        | PObj _ => inl "str type expected"
        end in
      match item with
      | inl e => inl e
      | inr s => match names_as_str str_of_bytes names with
                 | inl e => inl e
                 | inr items => inr (s :: items)
                 end
      end
  end.

(** The loop filtering [largest_instances]. *)
Definition filter_detections (resellable_names_normalized : list lowered)
           (largest_instances : list (string * string)) : list (string * string) :=
  fold_left
    (fun filtered_detections item =>
       let '(coords_key, class_name) := item in
       if bool_decide (LStr (PyStr.lower class_name) ∈ resellable_names_normalized)
       then PyDict.set coords_key class_name filtered_detections
       else filtered_detections)
    largest_instances [].

(** Handler [evaluate_resellability]. *)
Definition evaluate_resellability
           (path_exists : string -> bool)
           (gemini_reply : string -> list string -> option string)
           (py_eval : string -> eval_outcome)
           (str_of_bytes : string -> string + string)
           (evaluator_state : EvaluatorState) (msg : DetectionResult.t)
  : EvaluatorState * list effect :=
  match gemini_model evaluator_state with
  | None =>
      (evaluator_state,
       [Log Error "[AI_EVALUATOR] Gemini model not available, cannot evaluate"])
  | Some _ =>
      let image_path := DetectionResult.image_path msg in
      if negb (path_exists image_path) then
        (evaluator_state,
         [Log Error ("[AI_EVALUATOR] Image file not found: " ++ image_path)])
      else
        let st :=
          if bool_decide (current_session evaluator_state ≠ DetectionResult.session_id msg)
          then set_current_session (DetectionResult.session_id msg) evaluator_state
          else evaluator_state in
        let '(st, gemini_raw_result) :=
          process_image_and_objects_for_resale
            gemini_reply st image_path (DetectionResult.unique_classes msg) in
        let error_evaluating e :=
          Log Error ("[AI_EVALUATOR] Error evaluating image "
                     ++ PyStr.basename image_path ++ ": " ++ e) in
        match parse_resellable_names py_eval gemini_raw_result with
        | (None, escaped) => (st, escaped)
        | (Some resellable_names, parse_log) =>
            match normalize_names resellable_names with
            | inl e => (st, parse_log ++ [error_evaluating e])
            | inr resellable_names_normalized =>
                let filtered_detections :=
                  filter_detections resellable_names_normalized
                                    (DetectionResult.largest_instances msg) in
                let st := set_images_evaluated (S (images_evaluated st)) st in
                match names_as_str str_of_bytes resellable_names with
                | inl e => (st, parse_log ++ [error_evaluating e])
                | inr resellable_items =>
                    let evaluation_result :=
                      EvaluationResult.mk
                        image_path
                        (DetectionResult.timestamp msg)
                        (DetectionResult.session_id msg)
                        (DetectionResult.unique_classes msg)
                        resellable_items
                        "high"
                        gemini_raw_result
                        filtered_detections in
                    (st, parse_log ++
                         [Send IMAGE_PROCESSOR_ADDRESS
                               (MEvaluationResult evaluation_result)])
                end
            end
        end
  end.

End AiEvaluatorAgent.

(** ** image_processor_agent.py *)

Module ImageProcessorAgent.

Definition REPORT_COORDINATOR_ADDRESS : string :=
  "agent1qvf8rwqhnuj85w9fl7kap6uszlk00gpjed0pq6vh289thwqys0zeq9w9g4y".

Definition CROPPED_FOLDER : string := "cropped_resellables".
Definition CROP_BORDER_PERCENTAGE : Q := 3 # 10.

Record ProcessorState := mkProcessorState {
  images_processed : nat;
  total_crops_created : nat;
  current_session : string;
  session_crop_count : nat
}.

(** [current_session = session_id; session_crop_count = 0]. *)
Definition start_session (session_id : string) (st : ProcessorState) :=
  mkProcessorState (images_processed st) (total_crops_created st) session_id 0.

Definition set_session_crop_count (n : nat) (st : ProcessorState) :=
  mkProcessorState (images_processed st) (total_crops_created st)
                   (current_session st) n.

(** The statistics update closing a processed image. *)
Definition count_image (crops : nat) (st : ProcessorState) :=
  mkProcessorState (S (images_processed st)) (total_crops_created st + crops)
                   (current_session st) (session_crop_count st).

Section Runtime.
Variable int_max_str_digits : nat.

(** [parse_coordinates]: the parsed tuple, [(0, 0, 0, 0)] on any
    exception. *)
Definition parse_coordinates (coords_str : string) : list Z :=
  match PyStr.map_int int_max_str_digits
                      (PyStr.split ", " (PyStr.strip "()" coords_str)) with
  | Some coords => coords
  | None => [0; 0; 0; 0]
  end.

(** [calculate_bbox_area] of this module, on a tuple; it is only
    called on tuples that [crop_and_save_image] has unpacked. *)
Definition calculate_bbox_area (coords : list Z) : Z :=
  match coords with
  | [x_min; y_min; x_max; y_max] => (x_max - x_min) * (y_max - y_min)
  | _ => 0
  end.

(** [crop_and_save_image]: the path of the saved crop, [None] when the
    body raises.  [pil_ok] tells whether opening the image, cropping
    the expanded box and saving the file all succeed; the border
    arithmetic only determines the pixels written. *)
Definition crop_and_save_image
           (pil_ok : string -> list Z -> string -> bool)
           (original_img_path : string) (coords : list Z)
           (class_name : string) (capture_ts : Z) (crop_index : nat)
  : option string :=
  match coords with
  | [x_min; y_min; x_max; y_max] =>
      let safe_class_name := PyStr.replace_char " " "_" class_name in
      let crop_filename :=
        (PyStr.of_int capture_ts ++ "_" ++ PyStr.of_int (Z.of_nat crop_index)
         ++ "_" ++ safe_class_name ++ ".jpg")%string in
      let output_path := (CROPPED_FOLDER ++ "/" ++ crop_filename)%string in
      if pil_ok original_img_path coords output_path
      then Some output_path else None
  | _ => None
  end.

(** The local variables of the cropping loop. *)
Record crop_loop := mkCropLoop {
    loop_state : ProcessorState;
    loop_effects : list effect;
    cropped_files : list string;
    crop_index : nat;
    resellable_objects_processed : list string;
    processing_details : list (string * CropDetails.t)
  }.

Definition crop_step (pil_ok : string -> list Z -> string -> bool)
           (msg : EvaluationResult.t) (acc : crop_loop)
           (item : string * string) : crop_loop :=
  let '(coords_str, class_name) := item in
  let coords := parse_coordinates coords_str in
  if bool_decide (coords = [0; 0; 0; 0]) then
    mkCropLoop (loop_state acc)
               (loop_effects acc ++
                [Log Warning ("[IMAGE_PROCESSOR] Invalid coordinates for " ++ class_name)])
               (cropped_files acc) (crop_index acc)
               (resellable_objects_processed acc) (processing_details acc)
  else
    let crop_index := S (crop_index acc) in
    let st := set_session_crop_count (S (session_crop_count (loop_state acc)))
                                     (loop_state acc) in
    match crop_and_save_image pil_ok (EvaluationResult.image_path msg) coords
                              class_name (EvaluationResult.timestamp msg)
                              crop_index with
    | Some output_path =>
        let details :=
          CropDetails.mk coords (calculate_bbox_area coords)
                         (PyStr.basename output_path) CROP_BORDER_PERCENTAGE in
        mkCropLoop st (loop_effects acc)
                   (cropped_files acc ++ [PyStr.basename output_path])
                   crop_index
                   (resellable_objects_processed acc ++ [class_name])
                   (PyDict.set class_name details (processing_details acc))
    | None =>
        mkCropLoop st
                   (loop_effects acc ++
                    [Log Error ("[IMAGE_PROCESSOR] Failed to crop " ++ class_name)])
                   (cropped_files acc) crop_index
                   (resellable_objects_processed acc) (processing_details acc)
    end.

(** Handler [process_evaluated_objects]. *)
Definition process_evaluated_objects
           (path_exists : string -> bool)
           (pil_ok : string -> list Z -> string -> bool)
           (processor_state : ProcessorState) (msg : EvaluationResult.t)
  : ProcessorState * list effect :=
  let image_path := EvaluationResult.image_path msg in
  if negb (path_exists image_path) then
    (processor_state,
     [Log Error ("[IMAGE_PROCESSOR] Image file not found: " ++ image_path)])
  else
    let st :=
      if bool_decide (current_session processor_state ≠ EvaluationResult.session_id msg)
      then start_session (EvaluationResult.session_id msg) processor_state
      else processor_state in
    match EvaluationResult.filtered_detections msg with
    | [] => (st, [])
    | _ :: _ =>
        let done :=
          fold_left (crop_step pil_ok msg)
                    (EvaluationResult.filtered_detections msg)
                    (mkCropLoop st [] [] 0 [] []) in
        let st := count_image (List.length (cropped_files done)) (loop_state done) in
        let processing_result :=
          ProcessingResult.mk
            image_path
            (EvaluationResult.timestamp msg)
            (EvaluationResult.session_id msg)
            (resellable_objects_processed done)
            (cropped_files done)
            (processing_details done)
            (List.length (resellable_objects_processed done)) in
        (st, loop_effects done ++
             [Send REPORT_COORDINATOR_ADDRESS (MProcessingResult processing_result)])
    end.
End Runtime.

End ImageProcessorAgent.

(** ** report_coordinator_agent.py *)

Module ReportCoordinatorAgent.

(** The per-session dictionary created by [start_system_coordination]. *)
Record SessionData := mkSessionData {
  start_time : Q;
  duration_seconds : Z;
  max_captures : Z;
  cooldown_seconds : Q;
  images_processed : nat;
  total_objects_found : nat;
  unique_objects : gset string;
  cropped_files : list string;
  status : string;
  end_time : option Q          (* the key ["end_time"], absent until finalized *)
}.

Record CoordinatorState := mkCoordinatorState {
  sessions : gmap string SessionData;
  current_session : string;
  total_sessions : nat;
  global_seen_objects : gset string;
  system_start_time : Q;
  processing_results : list ProcessingResult.t
}.

(** Handler [start_system_coordination]; [t_id] and [t_start] are the two
    readings of [time.time()], for the session id and for [start_time]. *)
Definition start_system_coordination (t_id t_start : Q)
           (coordinator_state : CoordinatorState) (msg : StartSystem.t)
  : CoordinatorState * list effect :=
  let session_id := ("session_" ++ PyStr.of_int (PyStr.int_of_float t_id))%string in
  let session_data :=
    mkSessionData t_start
                  (StartSystem.duration_seconds msg)
                  (StartSystem.max_captures msg)
                  (StartSystem.cooldown_seconds msg)
                  0 0 ∅ [] "active" None in
  (mkCoordinatorState
     (<[session_id := session_data]> (sessions coordinator_state))
     session_id
     (S (total_sessions coordinator_state))
     ∅
     (system_start_time coordinator_state)
     [],
   []).

(** The loop over [msg.resellable_objects]. *)
Definition add_lowered (resellable_objects : list string) (seen : gset string)
  : gset string :=
  fold_left (fun seen obj_name => {[PyStr.lower obj_name]} ∪ seen)
            resellable_objects seen.

(** Handler [coordinate_processing_result]. *)
Definition coordinate_processing_result
           (coordinator_state : CoordinatorState) (msg : ProcessingResult.t)
  : CoordinatorState * list effect :=
  let session_id := ProcessingResult.session_id msg in
  if bool_decide (current_session coordinator_state ≠ session_id) then
    (coordinator_state,
     [Log Warning ("[COORDINATOR] Session mismatch: current="
                   ++ current_session coordinator_state
                   ++ ", received=" ++ session_id)])
  else
    match sessions coordinator_state !! session_id with
    | None =>
        (coordinator_state,
         [Log Warning ("[COORDINATOR] Unknown session: " ++ session_id)])
    | Some session_data =>
        let session_data :=
          mkSessionData
            (start_time session_data)
            (duration_seconds session_data)
            (max_captures session_data)
            (cooldown_seconds session_data)
            (S (images_processed session_data))
            (total_objects_found session_data
             + ProcessingResult.total_objects_processed msg)
            (add_lowered (ProcessingResult.resellable_objects msg)
                         (unique_objects session_data))
            (cropped_files session_data ++ ProcessingResult.cropped_files msg)
            (status session_data)
            (end_time session_data) in
        (mkCoordinatorState
           (<[session_id := session_data]> (sessions coordinator_state))
           (current_session coordinator_state)
           (total_sessions coordinator_state)
           (add_lowered (ProcessingResult.resellable_objects msg)
                        (global_seen_objects coordinator_state))
           (system_start_time coordinator_state)
           (processing_results coordinator_state ++ [msg]),
         [])
    end.

Definition REPORT_FILENAME : string := "analysis_report_resellables.txt".

(** What one finalization reads from outside: the clock for [end_time],
    [time.strftime('%Y-%m-%d %H:%M:%S')], the clock for the session
    duration, and whether [open(report_path, "w")] raises [IOError]. *)
Record Readings := mkReadings {
  end_time_read : Q;
  generated : string;
  report_time : Q;
  open_raises : bool
}.

Section Runtime.
(** [f"{x:.1f}"] for a [float], and [str] of the coordinates of a crop
    as the message carries them. *)
Variable format_1f : Q -> string.
Variable str_of_coordinates : list Z -> string.

Definition dashes : string := "----------------------------------------".

(** [generate_report_entry]; the entries of [processing_summary] are
    those the image processor builds, which have their coordinates. *)
Definition generate_report_entry (result : ProcessingResult.t) : string :=
  let filename := PyStr.basename (ProcessingResult.original_image_path result) in
  match ProcessingResult.resellable_objects result with
  | [] =>
      "Capture: " ++ filename ++ PyStr.newline
      ++ "  - No resellable objects found" ++ PyStr.newline ++ dashes
  | _ :: _ =>
      let first_coords :=
        match PyDict.values (ProcessingResult.processing_summary result) with
        | [] => "(0, 0, 0, 0)"
        | first_item :: _ => str_of_coordinates (CropDetails.coordinates first_item)
        end in
      "Capture: " ++ filename ++ PyStr.newline
      ++ "  - Resellable Objects: "
      ++ PyStr.join ", " (ProcessingResult.resellable_objects result) ++ PyStr.newline
      ++ "  - Cropped Files: "
      ++ PyStr.join ", " (ProcessingResult.cropped_files result) ++ PyStr.newline
      ++ "  - Location (First Item): XYXY " ++ first_coords ++ PyStr.newline
      ++ "  - Processing Summary: "
      ++ PyStr.of_int (Z.of_nat (length (ProcessingResult.resellable_objects result)))
      ++ " items processed" ++ PyStr.newline ++ dashes
  end.

(** The text [write_analysis_report] writes. *)
Definition report_text (reading : Readings) (coordinator_state : CoordinatorState)
           (session_id : string) (results : list string) : string :=
  match results with
  | [] => "No resellable objects were detected across all captures." ++ PyStr.newline
  | _ :: _ =>
      "--- Declutter Detector Analysis Report ---" ++ PyStr.newline ++ PyStr.newline
      ++ "Session ID: " ++ session_id ++ PyStr.newline
      ++ "Generated: " ++ generated reading ++ PyStr.newline ++ PyStr.newline
      ++ String.concat EmptyString (List.map (fun result : string => (result ++ PyStr.newline)%string)
                                     results)
      ++ PyStr.newline ++ "--- Session Summary ---" ++ PyStr.newline
      ++ "Total Images Processed: "
      ++ PyStr.of_int (Z.of_nat (length results)) ++ PyStr.newline
      ++ "Total Unique Object Types: "
      ++ PyStr.of_int (Z.of_nat (size (global_seen_objects coordinator_state)))
      ++ PyStr.newline
      ++ "Session Duration: "
      ++ format_1f (report_time reading - system_start_time coordinator_state)
      ++ " seconds" ++ PyStr.newline
  end.

(** [write_analysis_report]: the path returned, empty after an
    [IOError], and the file written.  Once the file is open, writing to
    it is taken to succeed. *)
Definition write_analysis_report (reading : Readings)
           (coordinator_state : CoordinatorState)
           (session_id : string) (results : list string) : string * list effect :=
  let report_path := (session_id ++ "_" ++ REPORT_FILENAME)%string in
  if open_raises reading then (EmptyString, [])
  else (report_path,
        [Write report_path (report_text reading coordinator_state session_id results)]).

(** The results [finalize_session] reports for [session_id]:
    [[r for r in coordinator_state.processing_results if r.session_id == session_id]]. *)
Definition session_results (coordinator_state : CoordinatorState) (session_id : string)
  : list ProcessingResult.t :=
  filter (λ r, ProcessingResult.session_id r = session_id)
         (processing_results coordinator_state).

(** [finalize_session]. *)
Definition finalize_session (reading : Readings)
           (coordinator_state : CoordinatorState) (session_id : string)
  : CoordinatorState * list effect :=
  match sessions coordinator_state !! session_id with
  | None => (coordinator_state, [])
  | Some session_data =>
      let session_data :=
        mkSessionData
          (start_time session_data)
          (duration_seconds session_data)
          (max_captures session_data)
          (cooldown_seconds session_data)
          (images_processed session_data)
          (total_objects_found session_data)
          (unique_objects session_data)
          (cropped_files session_data)
          "completed"
          (Some (end_time_read reading)) in
      let st :=
        mkCoordinatorState
          (<[session_id := session_data]> (sessions coordinator_state))
          (current_session coordinator_state)
          (total_sessions coordinator_state)
          (global_seen_objects coordinator_state)
          (system_start_time coordinator_state)
          (processing_results coordinator_state) in
      let report_entries :=
        generate_report_entry <$> session_results st session_id in
      (st, (write_analysis_report reading st session_id report_entries).2)
  end.

(** Whether [session_timeout_check] finalizes a session at
    [current_time]: it is active and has run for more than its
    configured duration and 30 seconds. *)
Definition timed_out (current_time : Q) (session_data : SessionData) : bool :=
  bool_decide (status session_data = "active"%string)
  && PyStr.float_gt (current_time - start_time session_data)
                    (inject_Z (duration_seconds session_data + 30)).

(** Periodic task [session_timeout_check]; [reading_of] gives the
    readings of the finalization of each session.  The sessions are
    visited in the order of [map_to_list], which need not be the
    insertion order the interpreter follows; only the order of the
    reports written depends on it. *)
Definition session_timeout_check (current_time : Q) (reading_of : string -> Readings)
           (coordinator_state : CoordinatorState) : CoordinatorState * list effect :=
  fold_left
    (fun (acc : CoordinatorState * list effect) (item : string * SessionData) =>
       if timed_out current_time item.2 then
         let finalized := finalize_session (reading_of item.1) acc.1 item.1 in
         (finalized.1, acc.2 ++ finalized.2)
       else acc)
    (map_to_list (sessions coordinator_state))
    (coordinator_state, []).

(** Shutdown handler [cleanup_coordinator]. *)
Definition cleanup_coordinator (reading_of : string -> Readings)
           (coordinator_state : CoordinatorState) : CoordinatorState * list effect :=
  fold_left
    (fun (acc : CoordinatorState * list effect) (item : string * SessionData) =>
       if bool_decide (status item.2 = "active"%string) then
         let finalized := finalize_session (reading_of item.1) acc.1 item.1 in
         (finalized.1, acc.2 ++ finalized.2)
       else acc)
    (map_to_list (sessions coordinator_state))
    (coordinator_state, []).

End Runtime.

End ReportCoordinatorAgent.

(** ** image_recognition_agent.py *)

Module ImageRecognitionAgent.

Definition PRICE_SCRAPER_ADDRESS : string :=
  "agent1qw8k9gxs3rx8f8hw6z7v2d3j5j9e9s8h3n4g7p2k8x3m2z5c7v9r4q1w2e3".

Record ImageRecognitionState := mkImageRecognitionState {
  api_healthy : bool;
  requests_processed : nat;
  last_health_check : Q
}.

(** The [data] object of a successful reply. *)
Record RecognitionData := mkRecognitionData {
  product_name : option string;
  source_url : option string;
  host : option string;
  pricing : option (list (string * Json.t));
  rating : option (list (string * Json.t))
}.

(** What the POST to the recognition API comes to. *)
Inductive api_outcome :=
  | ApiOk (data : RecognitionData)           (* status 200, [ok] true *)
  | ApiNotOk (message : option string)       (* status 200, [ok] false or missing *)
  | ApiHttpError (status_code : Z)           (* status other than 200 *)
  | ApiTimeout                               (* [requests.exceptions.Timeout] *)
  | ApiRaises (e : string).                  (* any other [Exception] *)

Definition error_result (msg : ImageRecognitionRequest.t) (error_message : string)
  : ImageRecognitionResult.t :=
  ImageRecognitionResult.mk
    (ImageRecognitionRequest.session_id msg)
    (ImageRecognitionRequest.request_id msg)
    false None None None None None (Some error_message).

(** Truth value of an [Optional[str]]. *)
Definition truthy (o : option string) : bool :=
  match o with
  | Some s => negb (bool_decide (s = EmptyString))
  | None => false
  end.

(** The [try] block of [process_image_recognition]. *)
Definition call_api (api : api_outcome) (st : ImageRecognitionState)
           (sender : string) (msg : ImageRecognitionRequest.t)
  : ImageRecognitionState * list effect :=
  match api with
  | ApiOk data =>
      let result :=
        ImageRecognitionResult.mk
          (ImageRecognitionRequest.session_id msg)
          (ImageRecognitionRequest.request_id msg)
          true (product_name data) (source_url data) (host data)
          (pricing data) (rating data) None in
      let price_request :=
        match product_name data with
        | Some name =>
            if truthy (Some name) then
              [Send PRICE_SCRAPER_ADDRESS
                    (MPriceResearchRequest
                       (PriceResearchRequest.mk
                          name ["facebook"; "ebay"]%string "all"
                          (ImageRecognitionRequest.session_id msg)
                          (ImageRecognitionRequest.request_id msg)))]
            else []
        | None => []
        end in
      (mkImageRecognitionState (api_healthy st) (S (requests_processed st))
                               (last_health_check st),
       Send sender (MImageRecognitionResult result) :: price_request)
  | ApiNotOk message =>
      let error_msg := default "Unknown API error"%string message in
      (st, [Log Error ("[IMAGE_RECOGNITION] API error: " ++ error_msg);
            Send sender (MImageRecognitionResult
                           (error_result msg ("Recognition failed: " ++ error_msg)))])
  | ApiHttpError status_code =>
      (st, [Log Error ("[IMAGE_RECOGNITION] API HTTP error: " ++ PyStr.of_int status_code);
            Send sender (MImageRecognitionResult
                           (error_result msg ("API HTTP error: " ++ PyStr.of_int status_code)))])
  | ApiTimeout =>
      (st, [Log Error "[IMAGE_RECOGNITION] API request timed out";
            Send sender (MImageRecognitionResult
                           (error_result msg "Recognition request timed out"))])
  | ApiRaises e =>
      (st, [Log Error ("[IMAGE_RECOGNITION] Error processing request: " ++ e);
            Send sender (MImageRecognitionResult
                           (error_result msg ("Processing error: " ++ e)))])
  end.

(** Handler [process_image_recognition].  [current_time] is
    [time.time()]; [stale_check] and [retry_check] are what
    [check_api_health()] returns if it is called because the last check
    is old, and if it is called because the API is marked unhealthy. *)
Definition process_image_recognition
           (current_time : Q) (stale_check retry_check : bool) (api : api_outcome)
           (recognition_state : ImageRecognitionState)
           (sender : string) (msg : ImageRecognitionRequest.t)
  : ImageRecognitionState * list effect :=
  let st :=
    if PyStr.float_gt (current_time - last_health_check recognition_state) 300
    then mkImageRecognitionState stale_check (requests_processed recognition_state)
                                 current_time
    else recognition_state in
  if negb (api_healthy st) then
    let st := mkImageRecognitionState retry_check (requests_processed st)
                                      (last_health_check st) in
    if negb (api_healthy st) then
      (st, [Log Error "[IMAGE_RECOGNITION] API not healthy, checking status...";
            Send sender (MImageRecognitionResult
                           (error_result msg "Image Recognition API is not available"))])
    else
      let '(st, effects) := call_api api st sender msg in
      (st, Log Error "[IMAGE_RECOGNITION] API not healthy, checking status..." :: effects)
  else
    call_api api st sender msg.

End ImageRecognitionAgent.

(** ** pipeline_coordinator_agent.py *)

Module PipelineCoordinatorAgent.

Definition IMAGE_RECOGNITION_ADDRESS : string :=
  "agent1qw8k9gxs3rx8f8hw6z7v2d3j5j9e9s8h3n4g7p2k8x3m2z5c7v9r4q1w2e3".

Record PipelineSession := mkPipelineSession {
  request : CompletePipelineRequest.t;
  start_time : Q;
  steps_completed : list string;
  image_recognition_result : option ImageRecognitionResult.t;
  price_research_result : option PriceResearchResult.t;
  listing_creation_result : option ListingCreationResult.t;
  error_message : option string;
  completed : bool
}.

(** [PipelineSession.__init__]; [now] is [time.time()]. *)
Definition new_session (now : Q) (request : CompletePipelineRequest.t) : PipelineSession :=
  mkPipelineSession request now [] None None None None false.

Record PipelineState := mkPipelineState {
  active_sessions : gmap string PipelineSession;
  completed_sessions : nat;
  failed_sessions : nat
}.

Definition append_step (step : string) (session : PipelineSession) : PipelineSession :=
  mkPipelineSession (request session) (start_time session)
                    (steps_completed session ++ [step])
                    (image_recognition_result session)
                    (price_research_result session)
                    (listing_creation_result session)
                    (error_message session) (completed session).

Definition set_image_recognition_result (msg : ImageRecognitionResult.t)
           (session : PipelineSession) : PipelineSession :=
  mkPipelineSession (request session) (start_time session) (steps_completed session)
                    (Some msg)
                    (price_research_result session)
                    (listing_creation_result session)
                    (error_message session) (completed session).

Definition set_price_research_result (msg : PriceResearchResult.t)
           (session : PipelineSession) : PipelineSession :=
  mkPipelineSession (request session) (start_time session) (steps_completed session)
                    (image_recognition_result session)
                    (Some msg)
                    (listing_creation_result session)
                    (error_message session) (completed session).

Definition set_listing_creation_result (msg : ListingCreationResult.t)
           (session : PipelineSession) : PipelineSession :=
  mkPipelineSession (request session) (start_time session) (steps_completed session)
                    (image_recognition_result session)
                    (price_research_result session)
                    (Some msg)
                    (error_message session) (completed session).

Definition set_completed (session : PipelineSession) : PipelineSession :=
  mkPipelineSession (request session) (start_time session) (steps_completed session)
                    (image_recognition_result session)
                    (price_research_result session)
                    (listing_creation_result session)
                    (error_message session) true.

(** A session object is shared with the dictionary that holds it: a
    mutation of the object under key [session_id] is a store at that key. *)
Definition store (session_id : string) (session : PipelineSession)
           (st : PipelineState) : PipelineState :=
  mkPipelineState (<[session_id := session]> (active_sessions st))
                  (completed_sessions st) (failed_sessions st).

(** What a handler leaves behind: the state, the effects, and the
    [CompletePipelineResult] that [finalize_pipeline_session] composed, if
    it did.  The source binds that result to a local variable and sends
    it nowhere; it is returned so that its content can be stated. *)
Definition outcome : Type :=
  PipelineState * list effect * option CompletePipelineResult.t.

(** Handler [handle_complete_pipeline_request].  [now] is the
    [time.time()] of the session, [t_id] the one of the request id,
    [uuid_hex] is [uuid.uuid4().hex]; [send_raises] holds the exception
    text if sending the first request raises. *)
Definition handle_complete_pipeline_request
           (now t_id : Q) (uuid_hex : string) (send_raises : option string)
           (pipeline_state : PipelineState)
           (sender : string) (msg : CompletePipelineRequest.t)
  : PipelineState * list effect :=
  let session_id := CompletePipelineRequest.session_id msg in
  let session := new_session now msg in
  let st := store session_id session pipeline_state in
  let request_id :=
    ("pipeline_" ++ PyStr.of_int (PyStr.int_of_float t_id) ++ "_"
     ++ String.substring 0 8 uuid_hex)%string in
  match send_raises with
  | None =>
      let image_recognition_request :=
        ImageRecognitionRequest.mk (CompletePipelineRequest.image_base64 msg)
                                   session_id request_id in
      (store session_id (append_step "image_recognition_initiated" session) st,
       [Send IMAGE_RECOGNITION_ADDRESS
             (MImageRecognitionRequest image_recognition_request)])
  | Some e =>
      let error_result :=
        CompletePipelineResult.mk session_id false [] None None None
                                  (Some ("Pipeline initiation failed: " ++ e)%string)
                                  None in
      (mkPipelineState (delete session_id (active_sessions st))
                       (completed_sessions st) (S (failed_sessions st)),
       [Log Error ("[PIPELINE_COORDINATOR] Error starting pipeline: " ++ e);
        Send sender (MCompletePipelineResult error_result)])
  end.

(** [finalize_pipeline_session]; [session] is the object held under
    [session_id], [now] is [time.time()]. *)
Definition finalize_pipeline_session
           (now : Q) (pipeline_state : PipelineState)
           (session_id : string) (session : PipelineSession)
           (success : bool) (error_message : option string)
  : PipelineState * option CompletePipelineResult.t :=
  if completed session then (pipeline_state, None)
  else
    let execution_time := PyStr.int_of_float ((now - start_time session) * 1000) in
    let result :=
      CompletePipelineResult.mk
        (CompletePipelineRequest.session_id (request session))
        success
        (steps_completed session)
        (image_recognition_result session)
        (price_research_result session)
        (listing_creation_result session)
        error_message
        (Some execution_time) in
    let st := store session_id (set_completed session) pipeline_state in
    (if success
     then mkPipelineState (active_sessions st) (S (completed_sessions st))
                          (failed_sessions st)
     else mkPipelineState (active_sessions st) (completed_sessions st)
                          (S (failed_sessions st)),
     Some result).

(** Handler [handle_image_recognition_result]. *)
Definition handle_image_recognition_result
           (now : Q) (pipeline_state : PipelineState)
           (sender : string) (msg : ImageRecognitionResult.t) : outcome :=
  let session_id := ImageRecognitionResult.session_id msg in
  match active_sessions pipeline_state !! session_id with
  | None =>
      (pipeline_state,
       [Log Warning ("[PIPELINE_COORDINATOR] Received image recognition result for unknown session: "
                     ++ session_id)],
       None)
  | Some session =>
      let session :=
        append_step "image_recognition_completed"
                    (set_image_recognition_result msg session) in
      let st := store session_id session pipeline_state in
      if negb (ImageRecognitionResult.success msg) then
        let reason := PyStr.of_optional (ImageRecognitionResult.error_message msg) in
        let '(st, result) :=
          finalize_pipeline_session
            now st session_id session false
            (Some ("Image recognition failed: " ++ reason)%string) in
        (st, [Log Error ("[PIPELINE_COORDINATOR] Image recognition failed: " ++ reason)],
         result)
      else if negb (ImageRecognitionAgent.truthy (ImageRecognitionResult.product_name msg)) then
        let '(st, result) :=
          finalize_pipeline_session
            now st session_id session false
            (Some "No product identified in image"%string) in
        (st, [Log Error "[PIPELINE_COORDINATOR] Image recognition succeeded but no product name found"],
         result)
      else (st, [], None)
  end.

(** Handler [handle_price_research_result]. *)
Definition handle_price_research_result
           (now : Q) (pipeline_state : PipelineState)
           (sender : string) (msg : PriceResearchResult.t) : outcome :=
  let session_id := PriceResearchResult.session_id msg in
  match active_sessions pipeline_state !! session_id with
  | None =>
      (pipeline_state,
       [Log Warning ("[PIPELINE_COORDINATOR] Received price research result for unknown session: "
                     ++ session_id)],
       None)
  | Some session =>
      let session :=
        append_step "price_research_completed"
                    (set_price_research_result msg session) in
      let st := store session_id session pipeline_state in
      if negb (PriceResearchResult.success msg) then
        let reason := PyStr.of_optional (PriceResearchResult.error_message msg) in
        let '(st, result) :=
          finalize_pipeline_session
            now st session_id session false
            (Some ("Price research failed: " ++ reason)%string) in
        (st, [Log Error ("[PIPELINE_COORDINATOR] Price research failed: " ++ reason)],
         result)
      else (st, [], None)
  end.

(** Handler [handle_listing_creation_result]. *)
Definition handle_listing_creation_result
           (now : Q) (pipeline_state : PipelineState)
           (sender : string) (msg : ListingCreationResult.t) : outcome :=
  let session_id := ListingCreationResult.session_id msg in
  match active_sessions pipeline_state !! session_id with
  | None =>
      (pipeline_state,
       [Log Warning ("[PIPELINE_COORDINATOR] Received listing creation result for unknown session: "
                     ++ session_id)],
       None)
  | Some session =>
      let session :=
        append_step "listing_creation_completed"
                    (set_listing_creation_result msg session) in
      let st := store session_id session pipeline_state in
      if negb (ListingCreationResult.success msg) then
        let reason := PyStr.of_optional (ListingCreationResult.error_message msg) in
        let '(st, result) :=
          finalize_pipeline_session
            now st session_id session false
            (Some ("Listing creation failed: " ++ reason)%string) in
        (st, [Log Error ("[PIPELINE_COORDINATOR] Listing creation failed: " ++ reason)],
         result)
      else
        let '(st, result) :=
          finalize_pipeline_session now st session_id session true None in
        (st, [], result)
  end.

(** One iteration of the loop of [cleanup_old_sessions]: the ids to
    remove, the warnings, and the failure counter so far. *)
Definition cleanup_step (current_time : Q)
           (acc : list string * list effect * nat)
           (item : string * PipelineSession) : list string * list effect * nat :=
  let '(sessions_to_remove, effects, failed) := acc in
  let '(session_id, session) := item in
  let session_age := (current_time - start_time session)%Q in
  if completed session && PyStr.float_gt session_age 300 then
    (sessions_to_remove ++ [session_id], effects, failed)
  else if negb (completed session) && PyStr.float_gt session_age 900 then
    (sessions_to_remove ++ [session_id],
     effects ++ [Log Warning ("[PIPELINE_COORDINATOR] Removing stalled session: "
                              ++ session_id)],
     S failed)
  else acc.

(** Periodic task [cleanup_old_sessions].  The dictionary is a [gmap], so
    the sessions are visited in the order of [map_to_list], which need
    not be the insertion order the interpreter follows; only the order of
    the warnings among themselves depends on it. *)
Definition cleanup_old_sessions (current_time : Q) (pipeline_state : PipelineState)
  : PipelineState * list effect :=
  let '(sessions_to_remove, effects, failed) :=
    fold_left (cleanup_step current_time)
              (map_to_list (active_sessions pipeline_state))
              ([], [], failed_sessions pipeline_state) in
  (mkPipelineState
     (fold_left (fun sessions session_id => delete session_id sessions)
                sessions_to_remove (active_sessions pipeline_state))
     (completed_sessions pipeline_state)
     failed,
   effects).

(** The three result models the coordinator subscribes to; the agent
    framework calls the handler registered for the model of the message. *)
Inductive stage_result :=
  | ImageRecognition (msg : ImageRecognitionResult.t)
  | PriceResearch (msg : PriceResearchResult.t)
  | ListingCreation (msg : ListingCreationResult.t).

Definition on_stage_result (now : Q) (pipeline_state : PipelineState)
           (sender : string) (r : stage_result) : outcome :=
  match r with
  | ImageRecognition msg => handle_image_recognition_result now pipeline_state sender msg
  | PriceResearch msg => handle_price_research_result now pipeline_state sender msg
  | ListingCreation msg => handle_listing_creation_result now pipeline_state sender msg
  end.

End PipelineCoordinatorAgent.

(** ** web_api_agent.py *)

Module WebApiAgent.

Definition DETECTION_ADDRESS : string :=
  "agent1qte25te5k79ygajeapzelgyle8ape8pvzdxdw9zndp4kph53qeq5unc8n6j".

Record ProcessingSession := mkProcessingSession {
  session_id : string;
  status : string;                       (* pending, processing, completed, failed *)
  uploaded_files : list string;
  processed_files : list string;
  detected_objects : list string;
  cropped_objects : list string;
  analysis_report : string;
  created_at : Q;
  completed_at : option Q;
  error_message : string
}.

(** [ProcessingSession.__init__]; [now] is [time.time()]. *)
Definition new_session (now : Q) (session_id : string) : ProcessingSession :=
  mkProcessingSession session_id "pending" [] [] [] [] EmptyString now None EmptyString.

(** What the background task obtains from outside the program. *)
Record World := mkWorld {
  (* configuration read from the environment *)
  CAPTURE_FOLDER : string;
  CROPPED_FOLDER : string;
  (* [pathlib]: [Path(p).suffix], [Path(p).name], [str(Path(p))] *)
  path_suffix : string -> string;
  path_name : string -> string;
  path_str : string -> string;
  (* [cv2]: whether the video opens, its frame count, whether the frame
     at a position is read; the clock when a frame is named *)
  video_opened : string -> bool;
  video_total_frames : string -> Z;
  video_read : string -> Z -> bool;
  frame_time : string -> nat -> Q;
  (* [shutil.copy2]: the text of the exception it raises, if any *)
  copy2_raises : string -> string -> option string;
  (* whether the agent has started and stored its context; the clock
     when a capture is triggered; whether sending it raises *)
  context_ready : bool;
  trigger_time : Z -> Q;
  send_raises : CapturedImage.t -> bool;
  (* [os.listdir], [os.path.getctime], reading a file: the result, or
     the text of the exception *)
  listdir : string -> string + list string;
  getctime : string -> string + Q;
  read_file : string -> string + string;
  (* whether the task is cancelled during [asyncio.sleep(30)], which
     raises [CancelledError], not an [Exception] *)
  cancelled : bool;
  (* the clock when the task completes *)
  completed_time : Q
}.

Section Runtime.
Variable w : World.

(** The loop of [extract_frames_from_video], [remaining] iterations from
    frame number [frame_count] at position [current_frame]. *)
Fixpoint extract_frames_loop (video_path output_folder : string) (frame_interval : Z)
         (remaining : nat) (frame_count : nat) (current_frame : Z) : list string :=
  match remaining with
  | O => []
  | S remaining' =>
      if video_read w video_path current_frame then
        let frame_filename :=
          ("frame_" ++ PyStr.of_int (PyStr.int_of_float (frame_time w video_path frame_count))
           ++ "_" ++ PyStr.of_int (Z.of_nat frame_count) ++ ".jpg")%string in
        PyStr.path_join output_folder frame_filename
          :: extract_frames_loop video_path output_folder frame_interval
                                 remaining' (S frame_count)
                                 (current_frame + frame_interval)
      else []
  end.

(** [extract_frames_from_video]: the frame paths, or the text of the
    exception raised.  The image files it writes are not recorded. *)
Definition extract_frames_from_video (video_path output_folder : string) (max_frames : Z)
  : string + list string :=
  if negb (video_opened w video_path)
  then inl ("Could not open video: " ++ video_path)%string
  else if bool_decide (max_frames = 0)
  then inl "integer division or modulo by zero"%string
  else
    let total_frames := video_total_frames w video_path in
    let frame_interval := Z.max 1 (total_frames / max_frames) in
    inr (extract_frames_loop video_path output_folder frame_interval
                             (Z.to_nat max_frames) 0 0).

(** [send_to_detection_agent]. *)
Definition send_to_detection_agent (captured_image : CapturedImage.t) : list effect :=
  if context_ready w
  then [Send DETECTION_ADDRESS (MCapturedImage captured_image)]
  else [].

(** [trigger_detection_pipeline]: an exception while sending is caught
    and printed. *)
Definition trigger_detection_pipeline (file_path session_id : string) (capture_index : Z)
  : list effect :=
  let captured_image :=
    CapturedImage.mk (PyStr.basename file_path)
                     (PyStr.int_of_float (trigger_time w capture_index))
                     file_path capture_index session_id in
  if context_ready w && send_raises w captured_image then []
  else send_to_detection_agent captured_image.

(** The local variables of the loop over the uploaded files, and the
    text of the exception that ended it, if one did. *)
Record upload_loop := mkUploadLoop {
  processed : list string;
  capture_index : Z;
  loop_effects : list effect;
  raised : option string
}.

Definition VIDEO_SUFFIXES : list string := [".mp4"; ".mov"; ".avi"; ".webm"]%string.

(** The triggers for the frames of one video. *)
Definition trigger_frames (session_id : string) (frames : list string) (capture_index : Z)
  : list effect :=
  (fold_left
     (fun (acc : Z * list effect) frame_path =>
        (acc.1 + 1, acc.2 ++ trigger_detection_pipeline frame_path session_id (acc.1 + 1)))
     frames (capture_index, [])).2.

(** One iteration of the loop over the uploaded files. *)
Definition upload_step (session_id : string) (acc : upload_loop) (upload_path : string)
  : upload_loop :=
  match raised acc with
  | Some _ => acc
  | None =>
      if bool_decide (PyStr.lower (path_suffix w upload_path) ∈ VIDEO_SUFFIXES) then
        match extract_frames_from_video (path_str w upload_path) (CAPTURE_FOLDER w) 10 with
        | inl e => mkUploadLoop (processed acc) (capture_index acc) (loop_effects acc) (Some e)
        | inr frames =>
            mkUploadLoop (processed acc ++ frames)
                         (capture_index acc + Z.of_nat (length frames))
                         (loop_effects acc
                          ++ trigger_frames session_id frames (capture_index acc))
                         None
        end
      else
        let dest_path :=
          PyStr.path_join (CAPTURE_FOLDER w)
                          ("web_" ++ session_id ++ "_" ++ path_name w upload_path) in
        match copy2_raises w (path_str w upload_path) dest_path with
        | Some e => mkUploadLoop (processed acc) (capture_index acc) (loop_effects acc) (Some e)
        | None =>
            mkUploadLoop (processed acc ++ [dest_path])
                         (capture_index acc + 1)
                         (loop_effects acc
                          ++ trigger_detection_pipeline dest_path session_id
                                                        (capture_index acc + 1))
                         None
        end
  end.

Definition set_status (status : string) (session : ProcessingSession) : ProcessingSession :=
  mkProcessingSession (session_id session) status (uploaded_files session)
                      (processed_files session) (detected_objects session)
                      (cropped_objects session) (analysis_report session)
                      (created_at session) (completed_at session) (error_message session).

Definition set_processed_files (files : list string) (session : ProcessingSession) :=
  mkProcessingSession (session_id session) (status session) (uploaded_files session)
                      files (detected_objects session)
                      (cropped_objects session) (analysis_report session)
                      (created_at session) (completed_at session) (error_message session).

Definition set_cropped_objects (files : list string) (session : ProcessingSession) :=
  mkProcessingSession (session_id session) (status session) (uploaded_files session)
                      (processed_files session) (detected_objects session)
                      files (analysis_report session)
                      (created_at session) (completed_at session) (error_message session).

Definition set_analysis_report (text : string) (session : ProcessingSession) :=
  mkProcessingSession (session_id session) (status session) (uploaded_files session)
                      (processed_files session) (detected_objects session)
                      (cropped_objects session) text
                      (created_at session) (completed_at session) (error_message session).

Definition set_completed (now : Q) (session : ProcessingSession) :=
  mkProcessingSession (session_id session) "completed" (uploaded_files session)
                      (processed_files session) (detected_objects session)
                      (cropped_objects session) (analysis_report session)
                      (created_at session) (Some now) (error_message session).

Definition set_failed (e : string) (session : ProcessingSession) :=
  mkProcessingSession (session_id session) "failed" (uploaded_files session)
                      (processed_files session) (detected_objects session)
                      (cropped_objects session) (analysis_report session)
                      (created_at session) (completed_at session) e.

(** [max(report_files, key=os.path.getctime)]: the first file with the
    latest time, or the text of the exception of the first file whose
    time cannot be read. *)
Fixpoint latest_report (best : string) (best_time : Q) (report_files : list string)
  : string + string :=
  match report_files with
  | [] => inr best
  | f :: report_files' =>
      match getctime w f with
      | inl e => inl e
      | inr t => if PyStr.float_gt t best_time
                 then latest_report f t report_files'
                 else latest_report best best_time report_files'
      end
  end.

(** What follows the wait: the session with its results, or the session
    as it is when an exception is raised, with the exception's text. *)
Definition collect_results (session_id : string) (session : ProcessingSession)
  : ProcessingSession * option string :=
  match listdir w (CROPPED_FOLDER w) with
  | inl e => (session, Some e)
  | inr cropped =>
      let session :=
        set_cropped_objects
          (List.filter (fun f => PyStr.endswith ".jpg" f && PyStr.contains session_id f)
                       cropped)
          session in
      match listdir w "." with
      | inl e => (session, Some e)
      | inr entries =>
          match List.filter (PyStr.endswith "_analysis_report_resellables.txt") entries with
          | [] => (session, None)
          | f :: report_files =>
              match getctime w f with
              | inl e => (session, Some e)
              | inr t =>
                  match latest_report f t report_files with
                  | inl e => (session, Some e)
                  | inr latest =>
                      match read_file w latest with
                      | inl e => (session, Some e)
                      | inr text => (set_analysis_report text session, None)
                      end
                  end
              end
          end
      end
  end.

(** How the [try] block of [process_uploaded_files] ends: normally, by
    an [Exception] with its text, or by the cancellation of the wait. *)
Inductive ending :=
  | Ended
  | Raised (e : string)
  | Cancelled.

(** The [try] block of [process_uploaded_files]. *)
Definition process_files (session_id : string) (session : ProcessingSession)
  : ProcessingSession * list effect * ending :=
  let session := set_status "processing" session in
  let done :=
    fold_left (upload_step session_id) (uploaded_files session)
              (mkUploadLoop [] 0 [] None) in
  match raised done with
  | Some e => (session, loop_effects done, Raised e)
  | None =>
      let session := set_processed_files (processed done) session in
      if cancelled w then (session, loop_effects done, Cancelled)
      else
        let collected := collect_results session_id session in
        (collected.1, loop_effects done,
         match collected.2 with Some e => Raised e | None => Ended end)
  end.

(** Background task [process_uploaded_files]; [session] is the object
    stored under [session_id]. *)
Definition process_uploaded_files (session_id : string) (session : ProcessingSession)
  : ProcessingSession * list effect :=
  match process_files session_id session with
  | (session, effects, Ended) => (set_completed (completed_time w) session, effects)
  | (session, effects, Raised e) => (set_failed e session, effects)
  | (session, effects, Cancelled) => (session, effects ++ [Raise "CancelledError"])
  end.

End Runtime.

End WebApiAgent.

(** * Specification predicates *)

Section LargestInstancesSpec.
Variable int_max_str_digits : nat.

Abbreviation area := (DetectionAgent.calculate_bbox_area int_max_str_digits).

(** [(k, c)] is the entry of class [c] with the largest area, the first
    such in iteration order. *)
Definition first_largest (d : list (string * string)) (k c : string) : Prop :=
  ∃ i : nat, d !! i = Some (k, c) ∧
    ∀ (j : nat) k', d !! j = Some (k', c) →
      area k' ≤ area k ∧ ((j < i)%nat → area k' < area k).

(** What the first loop maintains after the entries [p] have been seen. *)
Record class_largest_inv (p : list (string * string))
         (cl : list (string * (string * Z))) : Prop := {
    inv_wf : NoDup cl.*1;
    inv_entry : ∀ c k a, (c, (k, a)) ∈ cl → a = area k ∧ first_largest p k c;
    inv_seen : ∀ (j : nat) k c, p !! j = Some (k, c) → PyDict.get c cl ≠ None
  }.

End LargestInstancesSpec.

(** The text [eval] is applied to when [msg] is evaluated in state [st]. *)
Definition gemini_raw_result (gemini_reply : string → list string → option string)
           (st : AiEvaluatorAgent.EvaluatorState) (msg : DetectionResult.t) : string :=
  (AiEvaluatorAgent.process_image_and_objects_for_resale
     gemini_reply st (DetectionResult.image_path msg)
     (DetectionResult.unique_classes msg)).2.

(** Class label [class_name] is among the classifier's [names] up to case. *)
Definition resellable (names : list string) (class_name : string) : Prop :=
  ∃ name, name ∈ names ∧ PyStr.lower name = PyStr.lower class_name.

(** The evaluation stage yields [r] with an empty resellable
    intersection: [r] is sent to the image processor and has no filtered
    detections. *)
Definition yields_empty_intersection (effects : list effect) (r : EvaluationResult.t)
  : Prop :=
  (AiEvaluatorAgent.IMAGE_PROCESSOR_ADDRESS, MEvaluationResult r) ∈ sent effects
  ∧ EvaluationResult.filtered_detections r = [].

(** The [str] items of the classifier's list. *)
Definition str_items (items : list AiEvaluatorAgent.pyobj) : list string :=
  omap (λ item, match item with AiEvaluatorAgent.PStr s => Some s | _ => None end) items.

(** ** Predicates on session completion *)

(** The web API finds no crop of session [session_id]: no file listed
    in the folder of crops ends in [.jpg] and contains the session id. *)
Definition no_crop_listed (w : WebApiAgent.World) (session_id : string) : Prop :=
  ∀ cropped f,
    WebApiAgent.listdir w (WebApiAgent.CROPPED_FOLDER w) = inr cropped →
    f ∈ cropped →
    PyStr.endswith ".jpg" f && PyStr.contains session_id f = false.

(** The report written for a session without results. *)
Definition empty_report (session_id : string) : effect :=
  Write (session_id ++ "_analysis_report_resellables.txt")
        ("No resellable objects were detected across all captures." ++ PyStr.newline).

(** ** Predicates on pipeline sessions *)

Section PipelineSpec.
Import PipelineCoordinatorAgent.

Definition stage_session_id (r : stage_result) : string :=
  match r with
  | ImageRecognition msg => ImageRecognitionResult.session_id msg
  | PriceResearch msg => PriceResearchResult.session_id msg
  | ListingCreation msg => ListingCreationResult.session_id msg
  end.

Definition stage_success (r : stage_result) : bool :=
  match r with
  | ImageRecognition msg => ImageRecognitionResult.success msg
  | PriceResearch msg => PriceResearchResult.success msg
  | ListingCreation msg => ListingCreationResult.success msg
  end.

(** The session object after a handler has recorded result [r] in it. *)
Definition record_stage (r : stage_result) (session : PipelineSession) : PipelineSession :=
  match r with
  | ImageRecognition msg =>
      append_step "image_recognition_completed" (set_image_recognition_result msg session)
  | PriceResearch msg =>
      append_step "price_research_completed" (set_price_research_result msg session)
  | ListingCreation msg =>
      append_step "listing_creation_completed" (set_listing_creation_result msg session)
  end.

(** The reason a handler gives when result [r] reports a failure. *)
Definition failure_reason (r : stage_result) : string :=
  match r with
  | ImageRecognition msg =>
      "Image recognition failed: "
        +:+ PyStr.of_optional (ImageRecognitionResult.error_message msg)
  | PriceResearch msg =>
      "Price research failed: "
        +:+ PyStr.of_optional (PriceResearchResult.error_message msg)
  | ListingCreation msg =>
      "Listing creation failed: "
        +:+ PyStr.of_optional (ListingCreationResult.error_message msg)
  end.

(** A session that is not finalized and older than 15 minutes. *)
Definition stalled (now : Q) (session : PipelineSession) : Prop :=
  completed session = false ∧ (900 < now - start_time session)%Q.

(** A finalized session that started more than 5 minutes ago. *)
Definition overdue (now : Q) (session : PipelineSession) : Prop :=
  completed session = true ∧ (300 < now - start_time session)%Q.

#[global] Instance Qlt_dec (a b : Q) : Decision (a < b)%Q.
Proof.
  destruct (Qlt_le_dec a b) as [Hlt|Hle]; [by left | right].
  by apply Qle_not_lt.
Defined.

#[global] Instance stalled_dec now session : Decision (stalled now session).
Proof. unfold stalled. apply _. Defined.

Definition stalledb (now : Q) (session : PipelineSession) : bool :=
  negb (completed session) && PyStr.float_gt (now - start_time session) 900.

Definition overdueb (now : Q) (session : PipelineSession) : bool :=
  completed session && PyStr.float_gt (now - start_time session) 300.

(** The session under [session_id] is kept, finalized as failed with the
    reason "stalled". *)
Definition failed_as_stalled (st : PipelineState) (session_id : string) : Prop :=
  ∃ session, active_sessions st !! session_id = Some session
             ∧ completed session = true
             ∧ error_message session = Some "stalled"%string.
End PipelineSpec.

(** A handler leaves a trace beyond its log lines: it changes its state
    or sends a message.  Without either, no component can come to hold
    the affected session as failed. *)
Definition leaves_trace {S : Type} (before after : S) (effects : list effect) : Prop :=
  after ≠ before ∨ sent effects ≠ [].

(** The recognition API is found unavailable when a request is handled:
    the health flag in force, after the refresh of a stale check, is
    false, and so is the check made on that account. *)
Definition recognition_unavailable (current_time : Q) (stale_check retry_check : bool)
           (st : ImageRecognitionAgent.ImageRecognitionState) : Prop :=
  (if PyStr.float_gt (current_time - ImageRecognitionAgent.last_health_check st) 300
   then stale_check else ImageRecognitionAgent.api_healthy st) = false
  ∧ retry_check = false.

(** ** Concrete runs *)

Module Scenario.

Definition always_exists (path : string) : bool := true.
Definition pil_succeeds (path : string) (coords : list Z) (output : string) : bool := true.

Definition evaluator_ready : AiEvaluatorAgent.EvaluatorState :=
  AiEvaluatorAgent.mkEvaluatorState
    (Some (AiEvaluatorAgent.GeminiModel "gemini-2.5-flash")) 0 EmptyString 0 true.

Definition processor_idle : ImageProcessorAgent.ProcessorState :=
  ImageProcessorAgent.mkProcessorState 0 0 EmptyString 0.

(** A detection result: a laptop (labelled with a capital) and a bottle. *)
Definition laptop_and_bottle : DetectionResult.t :=
  DetectionResult.mk
    "captures/frame_1.jpg" 1 "session_1"
    [("(0, 0, 100, 100)", "Laptop"); ("(0, 0, 50, 50)", "Laptop");
     ("(10, 10, 30, 30)", "bottle")]%string
    ["Laptop"; "bottle"]%string 2
    [("(0, 0, 100, 100)", "Laptop"); ("(10, 10, 30, 30)", "bottle")]%string.

(** A Python evaluator on the handful of texts used below. *)
Definition eval_sample (text : string) : AiEvaluatorAgent.eval_outcome :=
  if bool_decide (text = "['laptop']"%string)
  then AiEvaluatorAgent.EvalValue
         (AiEvaluatorAgent.PList [AiEvaluatorAgent.PStr "laptop"])
  else if bool_decide (text = "['book']"%string)
  then AiEvaluatorAgent.EvalValue
         (AiEvaluatorAgent.PList [AiEvaluatorAgent.PStr "book"])
  else if bool_decide (text = "'laptop'"%string)
  then AiEvaluatorAgent.EvalValue (AiEvaluatorAgent.PStr "laptop")
  else AiEvaluatorAgent.EvalRaises "invalid syntax (<string>, line 1)".

Definition replies (text : string) (image_path : string) (classes : list string)
  : option string := Some text.

(** A message model that reads ASCII bytes as the same text and rejects
    the others. *)
Definition reads_ascii (b : string) : string + string :=
  if forallb (λ c, (N_of_ascii c <? 128)%N) (PyStr.chars b)
  then inr b else inl "str type expected".

(** The evaluator on three more texts: a call that exits, and lists that
    hold bytes. *)
Definition eval_more (text : string) : AiEvaluatorAgent.eval_outcome :=
  if bool_decide (text = "exit()"%string)
  then AiEvaluatorAgent.EvalEscapes "SystemExit"
  else if bool_decide (text = "[b'laptop', 'bottle']"%string)
  then AiEvaluatorAgent.EvalValue
         (AiEvaluatorAgent.PList [AiEvaluatorAgent.PBytes "laptop";
                                  AiEvaluatorAgent.PStr "bottle"])
  else if bool_decide (text = "[b'\xff']"%string)
  then AiEvaluatorAgent.EvalValue
         (AiEvaluatorAgent.PList
            [AiEvaluatorAgent.PBytes (String (ascii_of_N 255) EmptyString)])
  else eval_sample text.

(** The evaluation result the evaluator sends when the classifier
    answers [['book']] about [laptop_and_bottle]. *)
Definition nothing_resellable : EvaluationResult.t :=
  EvaluationResult.mk
    "captures/frame_1.jpg" 1 "session_1" ["Laptop"; "bottle"]%string
    ["book"]%string "high" "['book']" [].

Definition pipeline_request : CompletePipelineRequest.t :=
  CompletePipelineRequest.mk "aGVsbG8=" ["facebook"; "ebay"]%string "all" "used" "s1".

Definition recognized : ImageRecognitionResult.t :=
  ImageRecognitionResult.mk "s1" "pipeline_1700000000_0a1b2c3d" true
                            (Some "ThinkPad X1 Carbon"%string)
                            (Some "https://example.com/x1"%string)
                            (Some "example.com"%string) None None None.

Definition research_failed : PriceResearchResult.t :=
  PriceResearchResult.mk "s1" "pipeline_1700000000_0a1b2c3d" false None [] None
                         "USD" 0 (Some "Price Scraper API is not available"%string).

(** A session waiting for its price research, started at time 100. *)
Definition waiting_session : PipelineCoordinatorAgent.PipelineSession :=
  PipelineCoordinatorAgent.mkPipelineSession
    pipeline_request 100
    ["image_recognition_initiated"; "image_recognition_completed"]%string
    (Some recognized) None None None false.

(** The same session once the failed price research has finalized it. *)
Definition finalized_session : PipelineCoordinatorAgent.PipelineSession :=
  PipelineCoordinatorAgent.mkPipelineSession
    pipeline_request 100
    ["image_recognition_initiated"; "image_recognition_completed";
     "price_research_completed"]%string
    (Some recognized) (Some research_failed) None None true.

Definition coordinator_waiting : PipelineCoordinatorAgent.PipelineState :=
  PipelineCoordinatorAgent.mkPipelineState {[ "s1"%string := waiting_session ]} 0 0.

Definition coordinator_finalized : PipelineCoordinatorAgent.PipelineState :=
  PipelineCoordinatorAgent.mkPipelineState {[ "s1"%string := finalized_session ]} 0 1.

Definition coordinator_empty : PipelineCoordinatorAgent.PipelineState :=
  PipelineCoordinatorAgent.mkPipelineState ∅ 0 0.

(** A store with a session started at time 0 that never finished. *)
Definition hung_session : PipelineCoordinatorAgent.PipelineSession :=
  PipelineCoordinatorAgent.mkPipelineSession
    pipeline_request 0 ["image_recognition_initiated"]%string
    None None None None false.

Definition coordinator_hung : PipelineCoordinatorAgent.PipelineState :=
  PipelineCoordinatorAgent.mkPipelineState {[ "s1"%string := hung_session ]} 0 0.

Definition detector_not_loaded : DetectionAgent.DetectionState :=
  DetectionAgent.mkDetectionState None 0 EmptyString ∅ ∅.

Definition captured : CapturedImage.t :=
  CapturedImage.mk "frame_1.jpg" 1 "captures/frame_1.jpg" 0 "session_1".

Definition no_detections (path : string) : DetectionAgent.predict_outcome :=
  DetectionAgent.PredictResults [[]].

Definition recognition_down : ImageRecognitionAgent.ImageRecognitionState :=
  ImageRecognitionAgent.mkImageRecognitionState false 0 0.

Definition recognition_request : ImageRecognitionRequest.t :=
  ImageRecognitionRequest.mk "aGVsbG8=" "s1" "pipeline_1700000000_0a1b2c3d".

(** The session of [pipeline_request] right after its request was sent. *)
Definition started_session : PipelineCoordinatorAgent.PipelineSession :=
  PipelineCoordinatorAgent.mkPipelineSession
    pipeline_request 100 ["image_recognition_initiated"]%string
    None None None None false.

Definition coordinator_started : PipelineCoordinatorAgent.PipelineState :=
  PipelineCoordinatorAgent.mkPipelineState {[ "s1"%string := started_session ]} 0 0.

(** The detector's answer in the specification's example. *)
Definition two_laptops_and_bottle (path : string) : DetectionAgent.predict_outcome :=
  DetectionAgent.PredictResults
    [[DetectionAgent.mkBox "laptop" (0, 0, 100, 100);
      DetectionAgent.mkBox "laptop" (0, 0, 50, 50);
      DetectionAgent.mkBox "bottle" (10, 10, 30, 30)]].

Definition detector_loaded : DetectionAgent.DetectionState :=
  DetectionAgent.mkDetectionState (Some (DetectionAgent.YoloModel "yolov9c.pt")) 0 EmptyString ∅ ∅.

Definition eval_capital (text : string) : AiEvaluatorAgent.eval_outcome :=
  if bool_decide (text = "['Laptop']"%string)
  then AiEvaluatorAgent.EvalValue
         (AiEvaluatorAgent.PList [AiEvaluatorAgent.PStr "Laptop"])
  else AiEvaluatorAgent.EvalRaises "invalid syntax (<string>, line 1)".

Definition report_idle : ReportCoordinatorAgent.CoordinatorState :=
  ReportCoordinatorAgent.mkCoordinatorState ∅ EmptyString 0 ∅ 0 [].

Definition start_defaults : StartSystem.t := StartSystem.mk 10 6 1.

Definition late_result : ProcessingResult.t :=
  ProcessingResult.mk "captures/frame_1.jpg" 1 "session_1700000000"
                      ["laptop"]%string ["1_1_laptop.jpg"]%string [] 1.

End Scenario.

(** ** Decimal numerals *)

(** The number a run of decimal digits denotes, read after [acc]. *)
Fixpoint uint_value (acc : Z) (d : Decimal.uint) : Z :=
  match d with
  | Decimal.Nil => acc
  | Decimal.D0 d => uint_value (10 * acc + 0) d
  | Decimal.D1 d => uint_value (10 * acc + 1) d
  | Decimal.D2 d => uint_value (10 * acc + 2) d
  | Decimal.D3 d => uint_value (10 * acc + 3) d
  | Decimal.D4 d => uint_value (10 * acc + 4) d
  | Decimal.D5 d => uint_value (10 * acc + 5) d
  | Decimal.D6 d => uint_value (10 * acc + 6) d
  | Decimal.D7 d => uint_value (10 * acc + 7) d
  | Decimal.D8 d => uint_value (10 * acc + 8) d
  | Decimal.D9 d => uint_value (10 * acc + 9) d
  end.

(** The characters [str(n)] is made of: digits and the minus sign. *)
Definition numeral_char (c : ascii) : bool :=
  match PyStr.digit_of c with
  | Some _ => true
  | None => PyStr.ascii_eqb c "-"%char
  end.

(** [str(n)] is short enough for [int()] whatever the interpreter's
    digit limit is. *)
Definition short_numeral (n : Z) : Prop :=
  (String.length (PyStr.of_int n) <= 640)%nat.

(** ** Predicates on the crop stage *)

(** A crop is attempted for a detection unless its key reads as the
    all-zero box, which [parse_coordinates] also returns for a key that
    does not parse. *)
Definition crop_attempted (int_max_str_digits : nat) (item : string * string) : Prop :=
  ImageProcessorAgent.parse_coordinates int_max_str_digits item.1 ≠ [0; 0; 0; 0].

#[global] Instance crop_attempted_dec m item : Decision (crop_attempted m item).
Proof. unfold crop_attempted. apply _. Defined.

(** The file name [crop_and_save_image] gives the crop numbered
    [crop_index] of an image captured at [capture_ts]. *)
Definition crop_filename (capture_ts : Z) (crop_index : nat) (class_name : string)
  : string :=
  (PyStr.of_int capture_ts ++ "_" ++ PyStr.of_int (Z.of_nat crop_index)
   ++ "_" ++ PyStr.replace_char " " "_" class_name ++ ".jpg")%string.

(** A class label without a slash. *)
Definition slash_free (class_name : string) : Prop :=
  Forall (λ c, PyStr.ascii_eqb c "/" = false) (PyStr.chars class_name).

(** ** Runs of the report coordinator *)

Module ReportRun.
Import ReportCoordinatorAgent.

(** [CoordinatorState.__init__]. *)
Definition init : CoordinatorState := mkCoordinatorState ∅ EmptyString 0 ∅ 0 [].

(** Startup handler [setup_coordinator]; [now] is [time.time()]. *)
Definition setup_coordinator (now : Q) (coordinator_state : CoordinatorState)
  : CoordinatorState :=
  mkCoordinatorState (sessions coordinator_state)
                     (current_session coordinator_state)
                     (total_sessions coordinator_state)
                     (global_seen_objects coordinator_state)
                     now
                     (processing_results coordinator_state).

(** What reaches the coordinator: its startup, and the two messages it
    subscribes to, with the clock readings of their handlers. *)
Inductive event :=
  | Startup (now : Q)
  | Started (t_id t_start : Q) (msg : StartSystem.t)
  | Processed (msg : ProcessingResult.t).

Definition step (coordinator_state : CoordinatorState) (ev : event) : CoordinatorState :=
  match ev with
  | Startup now => setup_coordinator now coordinator_state
  | Started t_id t_start msg =>
      (start_system_coordination t_id t_start coordinator_state msg).1
  | Processed msg => (coordinate_processing_result coordinator_state msg).1
  end.

Definition run (events : list event) : CoordinatorState := fold_left step events init.

Definition is_start (ev : event) : bool :=
  match ev with Started _ _ _ => true | _ => false end.

(** The summary kept for the current session agrees with the stored
    results: these are all of the current session, and the summary's
    counts, files and object types are those of the results. *)
Definition summary_agrees (coordinator_state : CoordinatorState) : Prop :=
  let results := processing_results coordinator_state in
  (∀ r, r ∈ results →
        ProcessingResult.session_id r = current_session coordinator_state)
  ∧ global_seen_objects coordinator_state
    = list_to_set (PyStr.lower <$> concat (ProcessingResult.resellable_objects <$> results))
  ∧ match sessions coordinator_state !! current_session coordinator_state with
    | Some session_data =>
        images_processed session_data = length results
        ∧ total_objects_found session_data
          = sum_list (ProcessingResult.total_objects_processed <$> results)
        ∧ cropped_files session_data
          = concat (ProcessingResult.cropped_files <$> results)
        ∧ unique_objects session_data = global_seen_objects coordinator_state
    | None => results = []
    end.

End ReportRun.

(** ** Runs of the pipeline coordinator *)

Module PipelineRun.
Import PipelineCoordinatorAgent.

(** [PipelineState.__init__]. *)
Definition init : PipelineState := mkPipelineState ∅ 0 0.

(** What reaches the coordinator: the four messages it subscribes to and
    the periodic sweep, with the readings their handlers take. *)
Inductive event :=
  | Requested (now t_id : Q) (uuid_hex : string) (send_raises : option string)
              (sender : string) (msg : CompletePipelineRequest.t)
  | Stage (now : Q) (sender : string) (r : stage_result)
  | Sweep (now : Q).

Definition step (pipeline_state : PipelineState) (ev : event) : PipelineState :=
  match ev with
  | Requested now t_id uuid_hex send_raises sender msg =>
      (handle_complete_pipeline_request now t_id uuid_hex send_raises
                                        pipeline_state sender msg).1
  | Stage now sender r => (on_stage_result now pipeline_state sender r).1.1
  | Sweep now => (cleanup_old_sessions now pipeline_state).1
  end.

Definition run (events : list event) : PipelineState := fold_left step events init.

(** The session held under [session_id] is the one of a request with
    that id, its first step is the initiation, its error message was
    never written, and the stage outputs it holds arrived for that id. *)
Definition well_kept (session_id : string) (session : PipelineSession) : Prop :=
  CompletePipelineRequest.session_id (request session) = session_id
  ∧ error_message session = None
  ∧ head (steps_completed session) = Some "image_recognition_initiated"%string
  ∧ (∀ m, image_recognition_result session = Some m →
          ImageRecognitionResult.session_id m = session_id)
  ∧ (∀ m, price_research_result session = Some m →
          PriceResearchResult.session_id m = session_id)
  ∧ (∀ m, listing_creation_result session = Some m →
          ListingCreationResult.session_id m = session_id).

(** Stage result [r] makes its handler finalize the session: a failure,
    a recognition without a product name, or any listing result. *)
Definition finalizes (r : stage_result) : bool :=
  match r with
  | ImageRecognition msg =>
      negb (ImageRecognitionResult.success msg)
      || negb (ImageRecognitionAgent.truthy (ImageRecognitionResult.product_name msg))
  | PriceResearch msg => negb (PriceResearchResult.success msg)
  | ListingCreation msg => true
  end.

(** Whether the result composed for [r] is a success, and the error
    message it carries. *)
Definition final_success (r : stage_result) : bool :=
  match r with
  | ListingCreation msg => ListingCreationResult.success msg
  | _ => false
  end.

Definition final_reason (r : stage_result) : option string :=
  match r with
  | ImageRecognition msg =>
      if ImageRecognitionResult.success msg
      then Some "No product identified in image"%string
      else Some (failure_reason r)
  | PriceResearch msg => Some (failure_reason r)
  | ListingCreation msg =>
      if ListingCreationResult.success msg then None else Some (failure_reason r)
  end.

(** The result a handler composes when [r] finalizes [session], which
    holds [r] already. *)
Definition composed (now : Q) (r : stage_result) (session : PipelineSession)
  : CompletePipelineResult.t :=
  CompletePipelineResult.mk
    (CompletePipelineRequest.session_id (request session))
    (final_success r)
    (steps_completed session)
    (image_recognition_result session)
    (price_research_result session)
    (listing_creation_result session)
    (final_reason r)
    (Some (PyStr.int_of_float ((now - start_time session) * 1000))).

End PipelineRun.

(** The price research request the agent sends after [reply], if any. *)
Definition follow_up (msg : ImageRecognitionRequest.t) (reply : ImageRecognitionResult.t)
  : list (string * message) :=
  match ImageRecognitionResult.product_name reply with
  | Some name =>
      if ImageRecognitionResult.success reply
         && ImageRecognitionAgent.truthy (ImageRecognitionResult.product_name reply)
      then [(ImageRecognitionAgent.PRICE_SCRAPER_ADDRESS,
             MPriceResearchRequest
               (PriceResearchRequest.mk name ["facebook"; "ebay"]%string "all"
                                        (ImageRecognitionRequest.session_id msg)
                                        (ImageRecognitionRequest.request_id msg)))]
      else []
  | None => []
  end.

(** The price research request among the messages sent, if any. *)
Definition price_research_requested (effects : list effect) : Prop :=
  ∃ dest p, (dest, MPriceResearchRequest p) ∈ sent effects.

(** ** Further concrete runs *)

Module Sample.

Definition research_done : PriceResearchResult.t :=
  PriceResearchResult.mk "s1" "pipeline_1700000000_0a1b2c3d" true
                         (Some "ThinkPad X1 Carbon"%string) [] None "USD" 0 None.

Definition listing_done : ListingCreationResult.t :=
  ListingCreationResult.mk "s1" "pipeline_1700000000_0a1b2c3d" true [] None None None.

Definition recognition_ready : ImageRecognitionAgent.ImageRecognitionState :=
  ImageRecognitionAgent.mkImageRecognitionState true 0 0.

Definition thinkpad : ImageRecognitionAgent.RecognitionData :=
  ImageRecognitionAgent.mkRecognitionData (Some "ThinkPad X1 Carbon"%string)
                                          None None None None.

Definition thinkpad_reply : ImageRecognitionResult.t :=
  ImageRecognitionResult.mk "s1" "pipeline_1700000000_0a1b2c3d" true
                            (Some "ThinkPad X1 Carbon"%string) None None None None None.

(** A session is started, a result for it arrives, then one for another
    session. *)
Definition report_events : list ReportRun.event :=
  [ReportRun.Startup 1699999990;
   ReportRun.Started 1700000000 1700000000 Scenario.start_defaults;
   ReportRun.Processed Scenario.late_result;
   ReportRun.Processed
     (ProcessingResult.mk "captures/frame_2.jpg" 2 "session_1"
                          ["bottle"]%string ["2_1_bottle.jpg"]%string [] 1)].

(** A request, its recognition, and a sweep much later. *)
Definition pipeline_events : list PipelineRun.event :=
  [PipelineRun.Requested 100 100 "0a1b2c3d4e5f" None "web_api" Scenario.pipeline_request;
   PipelineRun.Stage 101 "recognition"
                     (PipelineCoordinatorAgent.ImageRecognition Scenario.recognized);
   PipelineRun.Sweep 400].

(** A world for the web API in which every upload is an image that is
    copied, the agent has started, and the folders list no crop and no
    report. *)
Definition quiet_world : WebApiAgent.World :=
  WebApiAgent.mkWorld
    "captures" "cropped_resellables"
    (λ _, ".jpg"%string) PyStr.basename (λ p, p)
    (λ _, false) (λ _, 0) (λ _ _, false) (λ _ _, 0%Q)
    (λ _ _, None)
    true (λ _, 1700000000%Q) (λ _, false)
    (λ _, inr []) (λ _, inr 0%Q) (λ _, inr EmptyString)
    false 1700000031.

Definition uploaded_session : WebApiAgent.ProcessingSession :=
  WebApiAgent.mkProcessingSession
    "web_session_1700000000000" "pending"
    ["web_uploads/web_session_1700000000000_desk.jpg"]%string
    [] [] [] EmptyString 1700000000 None EmptyString.

(** The report coordinator with one session started and no result. *)
Definition coordinator_without_results : ReportCoordinatorAgent.CoordinatorState :=
  ReportRun.run [ReportRun.Started 1700000000 1700000000 Scenario.start_defaults].

Definition reads_at (now : Q) : ReportCoordinatorAgent.Readings :=
  ReportCoordinatorAgent.mkReadings now "2023-11-14 22:14:01" now false.

End Sample.

(** * Verification *)

(** ** Facts about insertion-ordered dictionaries *)

Section PyDictFacts.
Context {K V : Type} `{EqDecision K}.
Implicit Types (d : list (K * V)) (k : K) (v : V).

Lemma get_None d k : PyDict.get k d = None ↔ k ∉ d.*1.
Proof.
    induction d as [|[k' v'] d IH]; simpl.
    - split; [intros _; apply not_elem_of_nil | done].
    - rewrite not_elem_of_cons. destruct (decide (k = k')) as [->|Hne].
      + split; [done | by intros [? _]].
      + rewrite IH. split; [by split | by intros [_ ?]].
Qed.

Lemma get_Some_elem d k v : PyDict.get k d = Some v → (k, v) ∈ d.
Proof.
    induction d as [|[k' v'] d IH]; simpl; [done|].
    destruct (decide (k = k')) as [->|]; intros Hg.
    - injection Hg as ->. apply list_elem_of_here.
    - apply list_elem_of_further. auto.
Qed.

Lemma elem_get d k v : NoDup d.*1 → (k, v) ∈ d → PyDict.get k d = Some v.
Proof.
    induction d as [|[k' v'] d IH]; simpl; intros Hnd Hin.
    - by apply elem_of_nil in Hin.
    - apply NoDup_cons in Hnd as [Hk' Hnd].
      apply elem_of_cons in Hin as [Heq|Hin].
      + injection Heq as -> ->. by rewrite decide_True.
      + destruct (decide (k = k')) as [->|]; [|by apply IH].
        exfalso. apply Hk'. apply (list_elem_of_fmap_2 fst) in Hin. exact Hin.
Qed.

Lemma set_fresh d k v : PyDict.get k d = None → PyDict.set k v d = d ++ [(k, v)].
Proof.
    induction d as [|[k' v'] d IH]; simpl; [done|].
    destruct (decide (k = k')); [done|]. intros Hg. by rewrite IH.
Qed.

Lemma set_keys_present d k v :
  PyDict.get k d ≠ None → (PyDict.set k v d).*1 = d.*1.
Proof.
    induction d as [|[k' v'] d IH]; simpl; [done|].
    destruct (decide (k = k')) as [->|]; [done|]. intros Hg.
    rewrite !fmap_cons. f_equal. by apply IH.
Qed.

Lemma set_wf d k v : NoDup d.*1 → NoDup (PyDict.set k v d).*1.
Proof.
    intros Hnd. destruct (PyDict.get k d) as [v0|] eqn:Hg.
    - rewrite set_keys_present; [done | by rewrite Hg].
    - rewrite set_fresh; [|done]. rewrite fmap_app. simpl.
      apply NoDup_app. split_and!; [done | | apply NoDup_singleton].
      intros x Hx Hx'. apply list_elem_of_singleton in Hx' as ->.
      by apply get_None in Hg.
Qed.

Lemma elem_of_set d k v k' v' :
  NoDup d.*1 →
  (k', v') ∈ PyDict.set k v d ↔ (k' = k ∧ v' = v) ∨ (k' ≠ k ∧ (k', v') ∈ d).
Proof.
    induction d as [|[k0 v0] d IH]; simpl; intros Hnd.
    - rewrite list_elem_of_singleton. split.
      + intros [= -> ->]. by left.
      + intros [[-> ->]|[_ Hin]]; [done | by apply elem_of_nil in Hin].
    - apply NoDup_cons in Hnd as [Hk0 Hnd].
      destruct (decide (k = k0)) as [->|Hne].
      + rewrite !elem_of_cons. split.
        * intros [[= -> ->]|Hin]; [by left|]. right. split; [|by right].
          intros ->. apply Hk0. apply (list_elem_of_fmap_2 fst) in Hin. exact Hin.
        * intros [[-> ->]|[Hne [[= ? ?]|Hin]]]; [by left | done | by right].
      + rewrite !elem_of_cons, IH by done. split.
        * intros [[= -> ->]|[[-> ->]|[? Hin]]]; [right; split; [congruence|by left] | by left | right; split; [done|by right]].
        * intros [[-> ->]|[Hk [[= -> ->]|Hin]]]; [right; by left | by left | right; right; by split].
Qed.

(** Storing entries whose keys are all new and distinct appends them. *)
Lemma fold_set_fresh {E : Type} (key : E → K) (val : E → V) (l : list E) d :
  NoDup (d.*1 ++ (key <$> l)) →
  fold_left (λ acc e, PyDict.set (key e) (val e) acc) l d
  = d ++ ((λ e, (key e, val e)) <$> l).
Proof.
    revert d. induction l as [|e l IH]; intros d Hnd; simpl.
    - by rewrite app_nil_r.
    - simpl in Hnd. rewrite set_fresh.
      + rewrite IH.
        * by rewrite <- app_assoc.
        * rewrite fmap_app. simpl. by rewrite <- app_assoc.
      + apply get_None. apply NoDup_app in Hnd as (_ & Hdis & _).
        intros Hin. apply (Hdis _ Hin). apply list_elem_of_here.
Qed.
End PyDictFacts.

(** ** The largest-instance filter *)

Section LargestInstances.
Variable int_max_str_digits : nat.

Abbreviation area := (DetectionAgent.calculate_bbox_area int_max_str_digits).
Abbreviation first_largest := (first_largest int_max_str_digits).
Abbreviation class_largest_inv := (class_largest_inv int_max_str_digits).
Abbreviation largest_step := (DetectionAgent.largest_step int_max_str_digits).
Abbreviation class_largest_of := (DetectionAgent.class_largest_of int_max_str_digits).
Abbreviation select_largest_instances :=
    (DetectionAgent.select_largest_instances int_max_str_digits).

Lemma first_largest_unique d k1 k2 c :
  first_largest d k1 c → first_largest d k2 c → k1 = k2.
Proof.
    intros (i1 & Hi1 & H1) (i2 & Hi2 & H2).
    destruct (H1 _ _ Hi2) as [Hle21 Hlt21], (H2 _ _ Hi1) as [Hle12 Hlt12].
    destruct (Nat.lt_trichotomy i1 i2) as [Hlt|[->|Hlt]].
    - specialize (Hlt12 Hlt). lia.
    - congruence.
    - specialize (Hlt21 Hlt). lia.
Qed.

Lemma first_largest_snoc_other d k c k' c' :
  c ≠ c' → first_largest d k' c' → first_largest (d ++ [(k, c)]) k' c'.
Proof.
    intros Hne (i & Hi & Hmax). exists i. split; [by apply lookup_app_l_Some|].
    intros j k0 Hj. apply lookup_snoc_Some in Hj as [[_ Hj]|[_ [= _ ?]]]; [eauto | done].
Qed.

Lemma first_largest_snoc_keep d k ck c :
  area k ≤ area ck → first_largest d ck c → first_largest (d ++ [(k, c)]) ck c.
Proof.
    intros Hle (i & Hi & Hmax). exists i. split; [by apply lookup_app_l_Some|].
    intros j k0 Hj. apply lookup_snoc_Some in Hj as [[_ Hj]|[-> [= ->]]]; [eauto|].
    split; [done|]. intros Hlt. apply lookup_lt_Some in Hi. lia.
Qed.

Lemma first_largest_snoc_new d k c :
  (∀ (j : nat) k', d !! j = Some (k', c) → area k' < area k) →
  first_largest (d ++ [(k, c)]) k c.
Proof.
    intros Hlt. exists (length d). split.
    - apply lookup_snoc_Some. by right.
    - intros j k0 Hj. apply lookup_snoc_Some in Hj as [[_ Hj]|[-> [= ->]]].
      + specialize (Hlt _ _ Hj). lia.
      + lia.
Qed.

Lemma class_largest_inv_nil : class_largest_inv [] [].
Proof.
    split.
    - apply NoDup_nil_2.
    - intros c k a Hin. by apply elem_of_nil in Hin.
    - intros j k c Hj. by rewrite lookup_nil in Hj.
Qed.

Lemma class_largest_inv_step p cl k c :
  class_largest_inv p cl →
  class_largest_inv (p ++ [(k, c)]) (largest_step cl (k, c)).
Proof.
    intros [Hwf Hentry Hseen]. unfold DetectionAgent.largest_step.
    destruct (PyDict.get c cl) as [[ck ca]|] eqn:Hget.
    - pose proof (get_Some_elem _ _ _ Hget) as Hin.
      destruct (Hentry _ _ _ Hin) as [-> Hfl].
      destruct (Z.gtb_spec (area k) (area ck)) as [Hgt|Hle].
      + split.
        * by apply set_wf.
        * intros c' k' a' Hin'. apply elem_of_set in Hin' as [[-> [= -> ->]]|[Hne Hin']]; [| |done].
          -- split; [done|]. apply first_largest_snoc_new. intros j k0 Hj.
             destruct Hfl as (i & _ & Hmax). destruct (Hmax _ _ Hj). lia.
          -- destruct (Hentry _ _ _ Hin') as [-> Hfl']. split; [done|].
             by apply first_largest_snoc_other.
        * intros j k0 c0 Hj Hnone. apply get_None in Hnone.
          rewrite set_keys_present in Hnone by (by rewrite Hget).
          apply get_None in Hnone.
          apply lookup_snoc_Some in Hj as [[_ Hj]|[_ [= _ ->]]].
          -- by apply (Hseen _ _ _ Hj).
          -- by rewrite Hget in Hnone.
      + split.
        * done.
        * intros c' k' a' Hin'. destruct (Hentry _ _ _ Hin') as [-> Hfl'].
          split; [done|]. destruct (decide (c = c')) as [<-|Hne].
          -- assert (k' = ck) as -> by (by eapply first_largest_unique).
             by apply first_largest_snoc_keep.
          -- by apply first_largest_snoc_other.
        * intros j k0 c0 Hj.
          apply lookup_snoc_Some in Hj as [[_ Hj]|[_ [= _ ->]]].
          -- by apply (Hseen _ _ _ Hj).
          -- by rewrite Hget.
    - assert (Hfresh : ∀ (j : nat) k', p !! j = Some (k', c) → False).
      { intros j k' Hj. by apply (Hseen _ _ _ Hj). }
      rewrite set_fresh by done. split.
      + rewrite fmap_app. apply NoDup_app. split_and!; [done | | apply NoDup_singleton].
        intros x Hx Hx'. apply list_elem_of_singleton in Hx'. simpl in Hx'. subst x.
        by apply get_None in Hget.
      + intros c' k' a' Hin'. apply elem_of_app in Hin' as [Hin'|Hin'].
        * destruct (Hentry _ _ _ Hin') as [-> Hfl']. split; [done|].
          apply first_largest_snoc_other; [|done]. intros <-.
          apply get_None in Hget. apply Hget.
          apply (list_elem_of_fmap_2 fst) in Hin'. exact Hin'.
        * apply list_elem_of_singleton in Hin'. injection Hin' as -> -> ->.
          split; [done|]. apply first_largest_snoc_new.
          intros j k0 Hj. destruct (Hfresh _ _ Hj).
      + intros j k0 c0 Hj Hnone. apply get_None in Hnone.
        rewrite fmap_app, elem_of_app in Hnone.
        apply lookup_snoc_Some in Hj as [[_ Hj]|[_ [= _ ->]]].
        * apply (Hseen _ _ _ Hj). apply get_None. tauto.
        * apply Hnone. right. apply list_elem_of_here.
Qed.

Lemma class_largest_inv_fold l : ∀ p cl,
  class_largest_inv p cl →
  class_largest_inv (p ++ l) (fold_left largest_step l cl).
Proof.
    induction l as [|[k c] l IH]; intros p cl Hinv; simpl.
    - by rewrite app_nil_r.
    - replace (p ++ (k, c) :: l) with ((p ++ [(k, c)]) ++ l) by (by rewrite <- app_assoc).
      apply IH. by apply class_largest_inv_step.
Qed.

Lemma class_largest_of_inv d : class_largest_inv d (class_largest_of d).
Proof. apply (class_largest_inv_fold d [] []), class_largest_inv_nil. Qed.

(** With distinct keys in the input, the second loop stores each
    retained entry under a new key. *)
Lemma select_largest_instances_eq d :
  PyDict.wf d →
  select_largest_instances d = (λ e, (e.2.1, e.1)) <$> class_largest_of d.
Proof.
    intros Hwf. destruct (class_largest_of_inv d) as [Hcl Hentry _].
    unfold DetectionAgent.select_largest_instances.
    transitivity (fold_left (λ acc e, PyDict.set (e.2.1) (e.1) acc)
                            (class_largest_of d) ([] : list (string * string))).
    { generalize (class_largest_of d), ([] : list (string * string)).
      induction l as [|[c [k a]] l IH]; intros acc; simpl; [done | apply IH]. }
    rewrite (fold_set_fresh (λ e : string * (string * Z), e.2.1) (λ e, e.1)); [done|].
    simpl. apply NoDup_fmap_2_strong; [|by eapply NoDup_fmap_1].
    intros [c1 [k1 a1]] [c2 [k2 a2]] H1 H2; simpl; intros <-.
    destruct (Hentry _ _ _ H1) as [-> (i1 & Hi1 & _)].
    destruct (Hentry _ _ _ H2) as [-> (i2 & Hi2 & _)].
    apply list_elem_of_lookup_2 in Hi1, Hi2.
    assert (c1 = c2) as ->; [|done].
    apply (elem_get _ _ _ Hwf) in Hi1, Hi2. congruence.
Qed.

(** C1. For every detection map, the largest-instance filter retains, for
    each class label, exactly the entry whose parsed box area
    [(xmax-xmin)*(ymax-ymin)] is maximal among the entries with that
    label, the first such in iteration order when areas are equal; the
    result is again a dictionary with one entry per class; a key that
    does not parse to four integers has area 0. *)
Theorem select_largest_instances_first_largest (all_detections : list (string * string)) :
  PyDict.wf all_detections →
  let filtered := select_largest_instances all_detections in
  PyDict.wf filtered
  ∧ NoDup (PyDict.values filtered)
  ∧ (∀ coords_key class_name,
        (coords_key, class_name) ∈ filtered
        ↔ first_largest all_detections coords_key class_name)
  ∧ (∀ coords_key x_min y_min x_max y_max,
        PyStr.map_int int_max_str_digits
                      (PyStr.split ", " (PyStr.strip "()" coords_key))
        = Some [x_min; y_min; x_max; y_max] →
        area coords_key = (x_max - x_min) * (y_max - y_min))
  ∧ (∀ coords_key,
        (∀ x_min y_min x_max y_max,
            PyStr.map_int int_max_str_digits
                          (PyStr.split ", " (PyStr.strip "()" coords_key))
            ≠ Some [x_min; y_min; x_max; y_max]) →
        area coords_key = 0).
Proof.
  intros Hwf filtered.
  destruct (class_largest_of_inv all_detections) as [Hcl Hentry Hseen].
  assert (Hkeys : ∀ c1 k1 a1 c2 k2 a2,
             (c1, (k1, a1)) ∈ class_largest_of all_detections →
             (c2, (k2, a2)) ∈ class_largest_of all_detections →
             k1 = k2 → c1 = c2).
  { intros c1 k1 a1 c2 k2 a2 H1 H2 <-.
    destruct (Hentry _ _ _ H1) as [_ (i1 & Hi1 & _)].
    destruct (Hentry _ _ _ H2) as [_ (i2 & Hi2 & _)].
    apply list_elem_of_lookup_2 in Hi1, Hi2.
    apply (elem_get _ _ _ Hwf) in Hi1, Hi2. congruence. }
  subst filtered. rewrite select_largest_instances_eq by done.
  split_and!.
  - unfold PyDict.wf, PyDict.keys. rewrite <- list_fmap_compose.
    apply NoDup_fmap_2_strong; [|by eapply NoDup_fmap_1].
    intros [c1 [k1 a1]] [c2 [k2 a2]] H1 H2; simpl; intros <-.
    assert (c1 = c2) as -> by (by eapply Hkeys).
    apply (elem_get _ _ _ Hcl) in H1, H2. congruence.
  - unfold PyDict.values. rewrite <- list_fmap_compose.
    erewrite list_fmap_ext; [exact Hcl|]. by intros ? [c [k a]].
  - intros k c. rewrite list_elem_of_fmap. split.
    + intros ([c' [k' a']] & [= -> ->] & Hin). by destruct (Hentry _ _ _ Hin).
    + intros Hfl. destruct (Hfl) as (i & Hi & _).
      destruct (PyDict.get c (class_largest_of all_detections)) as [[k' a']|] eqn:Hget.
      * apply get_Some_elem in Hget. exists (c, (k', a')). split; [|done].
        simpl. f_equal. destruct (Hentry _ _ _ Hget) as [_ Hfl'].
        by eapply first_largest_unique.
      * by destruct (Hseen _ _ _ Hi).
  - intros k x_min y_min x_max y_max Hparse.
    unfold DetectionAgent.calculate_bbox_area. by rewrite Hparse.
  - intros k Hparse. unfold DetectionAgent.calculate_bbox_area.
    destruct (PyStr.map_int _ _) as [[|a [|b [|c [|d [|? ?]]]]]|]; try done.
    by destruct (Hparse a b c d).
Qed.
End LargestInstances.

(** The detections of the specification's example: two laptops and a bottle. *)
Example select_largest_instances_first_largest_witness :
  let all_detections :=
    [("(0, 0, 100, 100)", "laptop"); ("(0, 0, 50, 50)", "laptop");
     ("(10, 10, 30, 30)", "bottle")]%string in
  PyDict.wf all_detections
  ∧ (∀ coords_key class_name,
        (coords_key, class_name)
          ∈ DetectionAgent.select_largest_instances 4300 all_detections
        ↔ first_largest 4300 all_detections coords_key class_name).
Proof.
  intros all_detections.
  assert (Hwf : PyDict.wf all_detections).
  { apply (bool_decide_unpack _). vm_compute. reflexivity. }
  split; [exact Hwf|].
  exact (proj1 (proj2 (proj2
           (select_largest_instances_first_largest 4300 all_detections Hwf)))).
Defined.


(** ** The evaluation stage *)

Section Evaluation.
Import AiEvaluatorAgent.

Variable path_exists : string → bool.
Variable gemini_reply : string → list string → option string.
Variable py_eval : string → eval_outcome.
Variable str_of_bytes : string → string + string.

Lemma normalize_names_str (names : list string) :
  normalize_names (PStr <$> names) = inr ((λ s, LStr (PyStr.lower s)) <$> names).
Proof. induction names as [|n names IH]; csimpl; [done|]. by rewrite IH. Qed.

Lemma names_as_str_str (names : list string) :
  names_as_str str_of_bytes (PStr <$> names) = inr names.
Proof. induction names as [|n names IH]; csimpl; [done|]. by rewrite IH. Qed.

(** The lower-cased list holds the lower-cased [str] items as [str]
    values, and nothing else that is a [str]. *)
Lemma elem_of_normalize_names (items : list pyobj) (normalized : list lowered)
      (class_name : string) :
  normalize_names items = inr normalized →
  LStr (PyStr.lower class_name) ∈ normalized ↔ resellable (str_items items) class_name.
Proof.
  unfold resellable, str_items.
  revert normalized. induction items as [|item items IH]; intros normalized; simpl.
  - intros [= <-]. split; [by intros ?%elem_of_nil|].
    intros (n & Hin & _). by apply elem_of_nil in Hin.
  - destruct (lower_of item) as [e|l] eqn:Hl; [done|].
    destruct (normalize_names items) as [e|ls]; [done|]. intros [= <-].
    rewrite elem_of_cons, (IH ls eq_refl).
    destruct item as [s|b|l'|ty]; simpl in Hl; try done; injection Hl as <-.
    + split.
      * intros [[= Heq]|(n & Hin & Hlow)].
        -- exists s. split; [apply list_elem_of_here | done].
        -- exists n. split; [by apply list_elem_of_further | done].
      * intros (n & [->|Hin]%elem_of_cons & Hlow); [by left; rewrite Hlow|].
        right. by exists n.
    + split; [intros [[=]|?]; done | by right].
Qed.

Lemma elem_of_lower_names (names : list string) (class_name : string) :
  LStr (PyStr.lower class_name) ∈ (λ s, LStr (PyStr.lower s)) <$> names
  ↔ resellable names class_name.
Proof.
  unfold resellable. rewrite list_elem_of_fmap. split.
  - intros (n & [= Heq] & Hin). eauto.
  - intros (n & Hin & Heq). exists n. by rewrite Heq.
Qed.

(** The filtering loop appends the passing entries when keys are distinct. *)
Lemma filter_detections_fold (normalized : list lowered) (l acc : list (string * string)) :
  NoDup (acc.*1 ++ l.*1) →
  fold_left
    (λ filtered_detections item,
       let '(coords_key, class_name) := item in
       if bool_decide (LStr (PyStr.lower class_name) ∈ normalized)
       then PyDict.set coords_key class_name filtered_detections
       else filtered_detections) l acc
  = acc ++ filter (λ item, LStr (PyStr.lower item.2) ∈ normalized) l.
Proof.
  revert acc. induction l as [|[k c] l IH]; intros acc Hnd; simpl.
  - by rewrite app_nil_r.
  - rewrite fmap_cons in Hnd. simpl in Hnd.
    rewrite filter_cons. simpl. case_bool_decide as Hin.
    + rewrite decide_True by done. rewrite set_fresh.
      * rewrite IH; [by rewrite <- app_assoc|].
        rewrite fmap_app. simpl. by rewrite <- app_assoc.
      * apply get_None. apply NoDup_app in Hnd as (_ & Hdis & _).
        intros Hk. apply (Hdis _ Hk). apply list_elem_of_here.
    + rewrite decide_False by done. apply IH.
      apply NoDup_app in Hnd as (Hacc & Hdis & Hl). apply NoDup_cons in Hl as [_ Hl].
      apply NoDup_app. split_and!; [done| |done].
      intros x Hx Hx'. apply (Hdis _ Hx). by apply list_elem_of_further.
Qed.

Lemma elem_of_filter_detections (names : list string)
      (largest_instances : list (string * string)) coords_key class_name :
  PyDict.wf largest_instances →
  (coords_key, class_name)
    ∈ filter_detections ((λ s, LStr (PyStr.lower s)) <$> names) largest_instances
  ↔ (coords_key, class_name) ∈ largest_instances ∧ resellable names class_name.
Proof.
  intros Hwf. unfold filter_detections.
  rewrite filter_detections_fold by done. simpl.
  rewrite list_elem_of_filter. simpl. rewrite elem_of_lower_names. tauto.
Qed.


(** The handler once the model is available and the image exists. *)
Lemma evaluate_resellability_run (st : EvaluatorState) (msg : DetectionResult.t) :
  is_Some (gemini_model st) →
  path_exists (DetectionResult.image_path msg) = true →
  evaluate_resellability path_exists gemini_reply py_eval str_of_bytes st msg
  = let raw := gemini_raw_result gemini_reply st msg in
    let st1 :=
      if bool_decide (current_session st ≠ DetectionResult.session_id msg)
      then set_current_session (DetectionResult.session_id msg) st else st in
    let st2 := set_api_calls_made (S (api_calls_made st1)) st1 in
    let error_evaluating e :=
      Log Error ("[AI_EVALUATOR] Error evaluating image "
                 ++ PyStr.basename (DetectionResult.image_path msg) ++ ": " ++ e) in
    match (parse_resellable_names py_eval raw).1 with
    | None => (st2, (parse_resellable_names py_eval raw).2)
    | Some names =>
        match normalize_names names with
        | inl e => (st2, (parse_resellable_names py_eval raw).2 ++ [error_evaluating e])
        | inr normalized =>
            match names_as_str str_of_bytes names with
            | inl e =>
                (set_images_evaluated (S (images_evaluated st2)) st2,
                 (parse_resellable_names py_eval raw).2 ++ [error_evaluating e])
            | inr resellable_items =>
                (set_images_evaluated (S (images_evaluated st2)) st2,
                 (parse_resellable_names py_eval raw).2 ++
                 [Send IMAGE_PROCESSOR_ADDRESS
                       (MEvaluationResult
                          (EvaluationResult.mk
                             (DetectionResult.image_path msg)
                             (DetectionResult.timestamp msg)
                             (DetectionResult.session_id msg)
                             (DetectionResult.unique_classes msg)
                             resellable_items
                             "high" raw
                             (filter_detections normalized
                                                (DetectionResult.largest_instances msg))))])
            end
        end
    end.
Proof.
  intros [model Hmodel] Hpath.
  unfold evaluate_resellability, gemini_raw_result,
    process_image_and_objects_for_resale.
  rewrite Hmodel, Hpath. simpl.
  assert (Hmodel' :
            gemini_model
              (if bool_decide (current_session st ≠ DetectionResult.session_id msg)
               then set_current_session (DetectionResult.session_id msg) st else st)
            = Some model).
  { by case_bool_decide. }
  rewrite Hmodel'.
  destruct (gemini_reply _ _) as [text|];
    destruct (parse_resellable_names py_eval _) as [[names|] log]; simpl; try done;
    destruct (normalize_names names); try done;
    by destruct (names_as_str str_of_bytes names).
Qed.

(** The parse step logs at most a warning, unless the evaluation escapes. *)
Lemma parse_resellable_names_sent (raw : string) :
  sent (parse_resellable_names py_eval raw).2 = []
  ∧ ∀ text, Log Error text ∉ (parse_resellable_names py_eval raw).2.
Proof.
  unfold parse_resellable_names.
  destruct (py_eval raw) as [e|e|[s|b|items|ty]]; simpl; split; try done;
    intros text Hin; try (by apply elem_of_nil in Hin);
    by apply list_elem_of_singleton in Hin.
Qed.

(** C7. The resellability intersection is case-insensitive: when the
    classifier's output evaluates to a list of strings [names], the
    evaluator sends on exactly those largest-instance detections whose
    class label equals some element of [names] after lower-casing both
    sides. *)
Theorem resellability_intersection_case_insensitive
        (st : EvaluatorState) (msg : DetectionResult.t) (names : list string) :
  is_Some (gemini_model st) →
  path_exists (DetectionResult.image_path msg) = true →
  PyDict.wf (DetectionResult.largest_instances msg) →
  py_eval (gemini_raw_result gemini_reply st msg) = EvalValue (PList (PStr <$> names)) →
  ∃ st' r,
    evaluate_resellability path_exists gemini_reply py_eval str_of_bytes st msg
    = (st', [Send IMAGE_PROCESSOR_ADDRESS (MEvaluationResult r)])
    ∧ EvaluationResult.resellable_items r = names
    ∧ ∀ coords_key class_name,
        (coords_key, class_name) ∈ EvaluationResult.filtered_detections r
        ↔ (coords_key, class_name) ∈ DetectionResult.largest_instances msg
          ∧ resellable names class_name.
Proof.
  intros Hmodel Hpath Hwf Heval.
  rewrite evaluate_resellability_run by done. cbv zeta.
  unfold parse_resellable_names. rewrite Heval. cbn [fst snd].
  rewrite normalize_names_str, names_as_str_str.
  eexists _, _. split; [reflexivity|]. simpl. split; [done|].
  intros k c. by apply elem_of_filter_detections.
Qed.


End Evaluation.

(** Class "Laptop" against the classifier's "laptop". *)
Example resellability_intersection_case_insensitive_witness :
  ∃ st' r,
    AiEvaluatorAgent.evaluate_resellability
      Scenario.always_exists (Scenario.replies " ['laptop'] ") Scenario.eval_sample
      Scenario.reads_ascii Scenario.evaluator_ready Scenario.laptop_and_bottle
    = (st', [Send AiEvaluatorAgent.IMAGE_PROCESSOR_ADDRESS (MEvaluationResult r)])
    ∧ EvaluationResult.resellable_items r = ["laptop"%string]
    ∧ ∀ coords_key class_name,
        (coords_key, class_name) ∈ EvaluationResult.filtered_detections r
        ↔ (coords_key, class_name)
            ∈ DetectionResult.largest_instances Scenario.laptop_and_bottle
          ∧ resellable ["laptop"%string] class_name.
Proof.
  apply (resellability_intersection_case_insensitive
           Scenario.always_exists (Scenario.replies " ['laptop'] ") Scenario.eval_sample
           Scenario.reads_ascii
           Scenario.evaluator_ready Scenario.laptop_and_bottle ["laptop"%string]).
  - eexists. reflexivity.
  - reflexivity.
  - apply (bool_decide_unpack _). vm_compute. reflexivity.
  - vm_compute. reflexivity.
Defined.



(** ** The pipeline coordinator *)

Section PipelineCoordinator.
Import PipelineCoordinatorAgent.

Lemma finalize_completed now st session_id session success reason :
  completed session = true →
  finalize_pipeline_session now st session_id session success reason = (st, None).
Proof. intros Hc. unfold finalize_pipeline_session. by rewrite Hc. Qed.

Lemma completed_record_stage r session :
  completed (record_stage r session) = completed session.
Proof. by destruct r. Qed.

Lemma on_stage_result_unknown now st sender r :
  active_sessions st !! stage_session_id r = None →
  ∃ text, on_stage_result now st sender r = (st, [Log Warning text], None).
Proof.
  intros Hnone. destruct r as [msg|msg|msg]; simpl in *;
    unfold handle_image_recognition_result, handle_price_research_result,
      handle_listing_creation_result; rewrite Hnone; eauto.
Qed.

(** A result for a finalized session is recorded in the session object,
    and the second finalization returns at once. *)
Lemma on_stage_result_completed now st sender r session :
  active_sessions st !! stage_session_id r = Some session →
  completed session = true →
  ∃ effects,
    on_stage_result now st sender r
    = (store (stage_session_id r) (record_stage r session) st, effects, None)
    ∧ sent effects = [].
Proof.
  intros Hs Hc. destruct r as [msg|msg|msg]; simpl in *;
    unfold handle_image_recognition_result, handle_price_research_result,
      handle_listing_creation_result; rewrite Hs;
    repeat match goal with
      | |- context [finalize_pipeline_session ?n ?s ?i ?x ?b ?e] =>
          rewrite (finalize_completed n s i x b e) by done
      | |- context [if ?b then _ else _] => destruct b
      end; eauto.
Qed.

(** C3, as the code has it. Once a session is finalized, finalizing it
    again changes nothing and composes no result. A stage result
    delivered afterwards triggers no second finalization: nothing is
    sent, the session stays finalized, both counters and every other
    session are unchanged; the handler does record the result in the
    session object and append the stage to its completed steps. *)
Theorem finalized_session_is_finalized_once now st sender r session :
  active_sessions st !! stage_session_id r = Some session →
  completed session = true →
  (∀ now' success reason,
      finalize_pipeline_session now' st (stage_session_id r) session success reason
      = (st, None))
  ∧ ∃ effects,
      on_stage_result now st sender r
      = (store (stage_session_id r) (record_stage r session) st, effects, None)
      ∧ sent effects = []
      ∧ completed (record_stage r session) = true
      ∧ request (record_stage r session) = request session
      ∧ start_time (record_stage r session) = start_time session
      ∧ error_message (record_stage r session) = error_message session
      ∧ completed_sessions (on_stage_result now st sender r).1.1 = completed_sessions st
      ∧ failed_sessions (on_stage_result now st sender r).1.1 = failed_sessions st
      ∧ ∀ other, other ≠ stage_session_id r →
          active_sessions (on_stage_result now st sender r).1.1 !! other
          = active_sessions st !! other.
Proof.
  intros Hs Hc. split.
  - intros now' success reason. by apply finalize_completed.
  - destruct (on_stage_result_completed now st sender r session Hs Hc)
      as (effects & Heq & Hsent).
    exists effects. rewrite Heq. simpl.
    split_and!; try done.
    + by rewrite completed_record_stage.
    + by destruct r.
    + by destruct r.
    + by destruct r.
    + intros other Hother. by rewrite lookup_insert_ne.
Qed.

(** C6. A stage result whose session id is not in the store is dropped:
    the handler returns with the state it was given, so no session is
    created and none is changed; it sends nothing, composes no result and
    logs one warning. *)
Theorem unknown_session_is_dropped now st sender r :
  active_sessions st !! stage_session_id r = None →
  (on_stage_result now st sender r).1.1 = st
  ∧ active_sessions (on_stage_result now st sender r).1.1 !! stage_session_id r = None
  ∧ (on_stage_result now st sender r).2 = None
  ∧ sent (on_stage_result now st sender r).1.2 = []
  ∧ ∃ text, (on_stage_result now st sender r).1.2 = [Log Warning text].
Proof.
  intros Hnone. destruct (on_stage_result_unknown now st sender r Hnone) as [text ->].
  simpl. split_and!; eauto.
Qed.

(** C9. Finalizing a session that is not yet finalized, with success or
    with failure, composes the result from the stage outputs the session
    holds at that moment, unchanged, together with the reason given. In
    particular, when a stage result reports a failure, the result
    composed by its handler holds the outputs of the earlier stages as
    they were stored, the failed result itself, and the reason naming
    the stage. *)
Theorem finalize_composes_stored_outputs now st sender r session success reason :
  active_sessions st !! stage_session_id r = Some session →
  completed session = false →
  (∃ st' result,
      finalize_pipeline_session now st (stage_session_id r) session success reason
      = (st', Some result)
      ∧ CompletePipelineResult.success result = success
      ∧ CompletePipelineResult.error_message result = reason
      ∧ CompletePipelineResult.steps_completed result = steps_completed session
      ∧ CompletePipelineResult.image_recognition result = image_recognition_result session
      ∧ CompletePipelineResult.price_research result = price_research_result session
      ∧ CompletePipelineResult.listing_creation result = listing_creation_result session)
  ∧ (stage_success r = false →
     ∃ st' effects result,
       on_stage_result now st sender r = (st', effects, Some result)
       ∧ CompletePipelineResult.success result = false
       ∧ CompletePipelineResult.error_message result = Some (failure_reason r)
       ∧ match r with
         | ImageRecognition msg =>
             CompletePipelineResult.image_recognition result = Some msg
             ∧ CompletePipelineResult.price_research result = price_research_result session
             ∧ CompletePipelineResult.listing_creation result = listing_creation_result session
         | PriceResearch msg =>
             CompletePipelineResult.image_recognition result = image_recognition_result session
             ∧ CompletePipelineResult.price_research result = Some msg
             ∧ CompletePipelineResult.listing_creation result = listing_creation_result session
         | ListingCreation msg =>
             CompletePipelineResult.image_recognition result = image_recognition_result session
             ∧ CompletePipelineResult.price_research result = price_research_result session
             ∧ CompletePipelineResult.listing_creation result = Some msg
         end).
Proof.
  intros Hs Hc. split.
  - unfold finalize_pipeline_session. rewrite Hc.
    eexists _, _. split; [reflexivity|]. by simpl.
  - intros Hfail. destruct r as [msg|msg|msg]; simpl in *;
      unfold handle_image_recognition_result, handle_price_research_result,
        handle_listing_creation_result, finalize_pipeline_session;
      rewrite Hs, Hfail; simpl; rewrite Hc; simpl;
      eexists _, _, _; (split; [reflexivity|]); by simpl.
Qed.
End PipelineCoordinator.

(** C3 as stated fails: a recognition result delivered again to the
    finalized session "s1" changes the state. *)
Example late_result_changes_finalized_session :
  PipelineCoordinatorAgent.active_sessions Scenario.coordinator_finalized !! "s1"%string
  = Some Scenario.finalized_session
  ∧ PipelineCoordinatorAgent.completed Scenario.finalized_session = true
  ∧ (PipelineCoordinatorAgent.on_stage_result
       400 Scenario.coordinator_finalized "sender"
       (PipelineCoordinatorAgent.ImageRecognition Scenario.recognized)).1.1
    ≠ Scenario.coordinator_finalized.
Proof.
  split_and!; [vm_compute; reflexivity | reflexivity |].
  intros Heq.
  apply (f_equal (λ st, PipelineCoordinatorAgent.steps_completed
                          <$> PipelineCoordinatorAgent.active_sessions st !! "s1"%string))
    in Heq.
  vm_compute in Heq. discriminate.
Qed.

Example finalized_session_is_finalized_once_witness :
  (∀ now' success reason,
      PipelineCoordinatorAgent.finalize_pipeline_session
        now' Scenario.coordinator_finalized "s1" Scenario.finalized_session success reason
      = (Scenario.coordinator_finalized, None))
  ∧ ∃ effects,
      PipelineCoordinatorAgent.on_stage_result
        400 Scenario.coordinator_finalized "sender"
        (PipelineCoordinatorAgent.ImageRecognition Scenario.recognized)
      = (PipelineCoordinatorAgent.store
           "s1"
           (record_stage (PipelineCoordinatorAgent.ImageRecognition Scenario.recognized)
                         Scenario.finalized_session)
           Scenario.coordinator_finalized,
         effects, None)
      ∧ sent effects = [].
Proof.
  destruct (finalized_session_is_finalized_once
              400 Scenario.coordinator_finalized "sender"
              (PipelineCoordinatorAgent.ImageRecognition Scenario.recognized)
              Scenario.finalized_session)
    as [Hfin (effects & Heq & Hsent & _)].
  - vm_compute. reflexivity.
  - reflexivity.
  - split; [exact Hfin|]. exists effects. by split.
Defined.

Example unknown_session_is_dropped_witness :
  let r := PipelineCoordinatorAgent.ImageRecognition Scenario.recognized in
  (PipelineCoordinatorAgent.on_stage_result 400 Scenario.coordinator_empty "sender" r).1.1
  = Scenario.coordinator_empty
  ∧ (PipelineCoordinatorAgent.on_stage_result 400 Scenario.coordinator_empty "sender" r).2
    = None.
Proof.
  intros r.
  destruct (unknown_session_is_dropped 400 Scenario.coordinator_empty "sender" r)
    as (Hst & _ & Hres & _).
  - vm_compute. reflexivity.
  - by split.
Defined.

(** The price research fails after a successful recognition. *)
Example finalize_composes_stored_outputs_witness :
  ∃ st' effects result,
    PipelineCoordinatorAgent.on_stage_result
      400 Scenario.coordinator_waiting "sender"
      (PipelineCoordinatorAgent.PriceResearch Scenario.research_failed)
    = (st', effects, Some result)
    ∧ CompletePipelineResult.success result = false
    ∧ CompletePipelineResult.error_message result
      = Some "Price research failed: Price Scraper API is not available"%string
    ∧ CompletePipelineResult.image_recognition result = Some Scenario.recognized
    ∧ CompletePipelineResult.price_research result = Some Scenario.research_failed.
Proof.
  destruct (finalize_composes_stored_outputs
              400 Scenario.coordinator_waiting "sender"
              (PipelineCoordinatorAgent.PriceResearch Scenario.research_failed)
              Scenario.waiting_session false None)
    as [_ Hfail].
  - vm_compute. reflexivity.
  - reflexivity.
  - destruct (Hfail eq_refl) as (st' & effects & result & Heq & Hsucc & Herr & Hir & Hpr & _).
    exists st', effects, result. split_and!; done.
Defined.

(** ** The cleanup sweep *)

Section Cleanup.
Import PipelineCoordinatorAgent.

Lemma float_gt_spec (a b : Q) : PyStr.float_gt a b = true ↔ (b < a)%Q.
Proof.
  unfold PyStr.float_gt. rewrite negb_true_iff.
  destruct (Qle_bool a b) eqn:Hle.
  - apply Qle_bool_iff in Hle. split; [done|]. intros Hlt.
    exfalso. by apply (Qlt_not_le _ _ Hlt).
  - split; [intros _|done]. apply Qnot_le_lt. intros Hle'.
    apply Qle_bool_iff in Hle'. congruence.
Qed.

Lemma stalledb_spec now session : stalledb now session = true ↔ stalled now session.
Proof.
  unfold stalledb, stalled. rewrite andb_true_iff, negb_true_iff, float_gt_spec. tauto.
Qed.

Lemma overdueb_spec now session : overdueb now session = true ↔ overdue now session.
Proof. unfold overdueb, overdue. rewrite andb_true_iff, float_gt_spec. tauto. Qed.

(** The loop gathers the overdue and the stalled sessions, warns about
    the stalled ones and counts them. *)
Lemma cleanup_fold now (items : list (string * PipelineSession)) :
  ∀ sessions_to_remove effects failed,
    fold_left (cleanup_step now) items (sessions_to_remove, effects, failed)
    = (sessions_to_remove
         ++ (filter (λ item, overdueb now item.2 || stalledb now item.2) items).*1,
       effects
         ++ ((λ item, Log Warning ("[PIPELINE_COORDINATOR] Removing stalled session: "
                                   ++ item.1))
               <$> filter (λ item, stalledb now item.2 = true) items),
       (failed + length (filter (λ item, stalledb now item.2 = true) items))%nat).
Proof.
  unfold overdueb, stalledb.
  induction items as [|[sid session] items IH]; intros rm effects failed; simpl.
  - rewrite !app_nil_r. do 2 f_equal. lia.
  - rewrite !filter_cons. simpl.
    destruct (completed session); simpl;
      destruct (PyStr.float_gt _ _); simpl;
      rewrite IH; rewrite <- ?app_assoc; simpl; do 2 f_equal; lia.
Qed.

Lemma lookup_fold_delete (sessions_to_remove : list string)
      (sessions : gmap string PipelineSession) (session_id : string) :
  fold_left (λ sessions session_id, delete session_id sessions)
            sessions_to_remove sessions !! session_id
  = if bool_decide (session_id ∈ sessions_to_remove) then None
    else sessions !! session_id.
Proof.
  revert sessions. induction sessions_to_remove as [|x rm IH]; intros sessions; simpl.
  - done.
  - rewrite IH. destruct (decide (session_id = x)) as [->|Hne].
    + rewrite lookup_delete_eq.
      rewrite (bool_decide_eq_true_2 (x ∈ x :: rm)) by apply list_elem_of_here.
      by case_bool_decide.
    + rewrite lookup_delete_ne by done.
      case_bool_decide as Hin.
      * rewrite bool_decide_eq_true_2; [done | by apply list_elem_of_further].
      * rewrite bool_decide_eq_false_2; [done|].
        intros Hin'. apply elem_of_cons in Hin' as [?|?]; done.
Qed.

Lemma cleanup_lookup now st session_id :
  active_sessions (cleanup_old_sessions now st).1 !! session_id
  = match active_sessions st !! session_id with
    | Some session =>
        if overdueb now session || stalledb now session then None else Some session
    | None => None
    end.
Proof.
  unfold cleanup_old_sessions.
  rewrite cleanup_fold. simpl.
  rewrite lookup_fold_delete.
  destruct (active_sessions st !! session_id) as [session|] eqn:Hs.
  - destruct (overdueb now session || stalledb now session) eqn:Hb.
    + rewrite bool_decide_eq_true_2; [done|].
      apply list_elem_of_fmap. exists (session_id, session). split; [done|].
      apply list_elem_of_filter. split; [simpl; by rewrite Hb|].
      by apply elem_of_map_to_list.
    + rewrite bool_decide_eq_false_2; [done|].
      intros ([sid' session'] & Heq & Hin)%list_elem_of_fmap. simpl in Heq. subst sid'.
      apply list_elem_of_filter in Hin as [Hb' Hin].
      apply elem_of_map_to_list in Hin. simpl in Hb'.
      assert (session' = session) as -> by congruence.
      by rewrite Hb in Hb'.
  - by case_bool_decide.
Qed.

(** C5, as the code has it. At a sweep, a session that is not finalized
    and started more than 900 seconds ago, and a finalized session that
    started more than 300 seconds ago, are removed from the store; every
    other session is kept as it is and none appears. The failure counter
    grows by the number of unfinalized sessions removed, and a warning
    naming each of them is logged; no session is finalized and none
    receives an error message. *)
Theorem cleanup_removes_old_sessions now st :
  let st' := (cleanup_old_sessions now st).1 in
  (∀ session_id session,
      active_sessions st !! session_id = Some session →
      (stalled now session ∨ overdue now session →
       active_sessions st' !! session_id = None)
      ∧ (¬ stalled now session → ¬ overdue now session →
         active_sessions st' !! session_id = Some session))
  ∧ (∀ session_id,
        active_sessions st !! session_id = None →
        active_sessions st' !! session_id = None)
  ∧ completed_sessions st' = completed_sessions st
  ∧ failed_sessions st'
    = (failed_sessions st
       + length (filter (λ item, stalled now item.2)
                        (map_to_list (active_sessions st))))%nat
  ∧ (cleanup_old_sessions now st).2
    = (λ item, Log Warning ("[PIPELINE_COORDINATOR] Removing stalled session: "
                            ++ item.1))
        <$> filter (λ item, stalled now item.2) (map_to_list (active_sessions st)).
Proof.
  intros st'. subst st'.
  assert (Hfilter : filter (λ item : string * PipelineSession, stalledb now item.2 = true)
                           (map_to_list (active_sessions st))
                    = filter (λ item, stalled now item.2)
                             (map_to_list (active_sessions st))).
  { apply list_filter_iff. intros [sid session]. simpl. apply stalledb_spec. }
  split_and!.
  - intros sid session Hs. rewrite cleanup_lookup, Hs. split.
    + intros [H|H].
      * apply stalledb_spec in H. rewrite H. by rewrite orb_true_r.
      * apply overdueb_spec in H. by rewrite H.
    + intros Hns Hno.
      destruct (overdueb now session) eqn:Ho; [by apply overdueb_spec in Ho|].
      destruct (stalledb now session) eqn:Hst; [by apply stalledb_spec in Hst|].
      done.
  - intros sid Hs. by rewrite cleanup_lookup, Hs.
  - unfold cleanup_old_sessions. by rewrite cleanup_fold.
  - unfold cleanup_old_sessions. rewrite cleanup_fold. simpl. by rewrite Hfilter.
  - unfold cleanup_old_sessions. rewrite cleanup_fold. simpl. by rewrite Hfilter.
Qed.
End Cleanup.

(** C5 as stated fails: the session of [coordinator_hung], 1000 seconds
    old and not finalized, is gone from the store after the sweep rather
    than kept as failed with the reason "stalled". *)
Example sweep_removes_stalled_session :
  stalled 1000 Scenario.hung_session
  ∧ PipelineCoordinatorAgent.active_sessions Scenario.coordinator_hung !! "s1"%string
    = Some Scenario.hung_session
  ∧ ¬ failed_as_stalled
        (PipelineCoordinatorAgent.cleanup_old_sessions 1000 Scenario.coordinator_hung).1
        "s1".
Proof.
  split_and!.
  - split; [reflexivity|]. vm_compute. reflexivity.
  - vm_compute. reflexivity.
  - intros (session & Hs & _). vm_compute in Hs. discriminate.
Qed.

Example cleanup_removes_old_sessions_witness :
  let st' := (PipelineCoordinatorAgent.cleanup_old_sessions
                1000 Scenario.coordinator_hung).1 in
  PipelineCoordinatorAgent.active_sessions st' !! "s1"%string = None
  ∧ PipelineCoordinatorAgent.failed_sessions st' = 1%nat.
Proof.
  destruct (cleanup_removes_old_sessions 1000 Scenario.coordinator_hung)
    as (Hlookup & _ & _ & Hfailed & _).
  split.
  - apply (Hlookup "s1"%string Scenario.hung_session).
    + vm_compute. reflexivity.
    + left. split; [reflexivity|]. vm_compute. reflexivity.
  - rewrite Hfailed. vm_compute. reflexivity.
Defined.

(** ** An unavailable detector *)

Section Unavailable.
Import PipelineCoordinatorAgent.

(** C4, as the code has it. With no YOLO model loaded, the detection
    agent logs an error naming the model, keeps its state and sends
    nothing: no evaluation request goes out, and nothing records a
    failure. With the recognition API unavailable, the image recognition
    agent answers the sender with a failed result naming the API and
    sends no price research request; the pipeline coordinator, given that
    result for a session it holds and has not finalized, finalizes the
    session as failed with a reason naming image recognition, and sends
    nothing. *)
Theorem unavailable_detector_stops_the_chain :
  (∀ int_max_str_digits path_exists predict list_of_set
     (st : DetectionAgent.DetectionState) (msg : CapturedImage.t),
      DetectionAgent.yolo_model st = None →
      DetectionAgent.process_captured_image
        int_max_str_digits path_exists predict list_of_set st msg
      = (st, [Log Error "[DETECTION] YOLO model not loaded, cannot process image"]))
  ∧ (∀ current_time stale_check retry_check api
       (st : ImageRecognitionAgent.ImageRecognitionState) sender
       (msg : ImageRecognitionRequest.t),
        recognition_unavailable current_time stale_check retry_check st →
        sent (ImageRecognitionAgent.process_image_recognition
                current_time stale_check retry_check api st sender msg).2
        = [(sender,
            MImageRecognitionResult
              (ImageRecognitionAgent.error_result
                 msg "Image Recognition API is not available"))])
  ∧ (∀ now (st : PipelineState) sender (msg : ImageRecognitionRequest.t) session,
        active_sessions st !! ImageRecognitionRequest.session_id msg = Some session →
        completed session = false →
        ∃ st' effects result session',
          handle_image_recognition_result
            now st sender
            (ImageRecognitionAgent.error_result
               msg "Image Recognition API is not available")
          = (st', effects, Some result)
          ∧ sent effects = []
          ∧ active_sessions st' !! ImageRecognitionRequest.session_id msg = Some session'
          ∧ completed session' = true
          ∧ failed_sessions st' = S (failed_sessions st)
          ∧ completed_sessions st' = completed_sessions st
          ∧ CompletePipelineResult.success result = false
          ∧ CompletePipelineResult.error_message result
            = Some "Image recognition failed: Image Recognition API is not available"%string).
Proof.
  split_and!.
  - intros m path_exists predict list_of_set st msg Hnone.
    unfold DetectionAgent.process_captured_image. by rewrite Hnone.
  - intros current_time stale_check retry_check api st sender msg [Hflag ->].
    unfold ImageRecognitionAgent.process_image_recognition.
    destruct (PyStr.float_gt _ _); simpl in *; by rewrite Hflag.
  - intros now st sender msg session Hs Hc.
    unfold handle_image_recognition_result, finalize_pipeline_session. simpl.
    rewrite Hs. simpl. rewrite Hc. simpl.
    eexists _, _, _, _. split; [reflexivity|]. simpl.
    split; [done|]. split; [apply lookup_insert_eq|]. split_and!; done.
Qed.
End Unavailable.

(** C4 as stated fails for the detection agent: with no model loaded,
    handling a captured image leaves the state as it was and sends no
    message, so no session is marked failed anywhere. *)
Example detector_not_loaded_leaves_no_trace :
  DetectionAgent.yolo_model Scenario.detector_not_loaded = None
  ∧ ¬ leaves_trace
        Scenario.detector_not_loaded
        (DetectionAgent.process_captured_image
           4300 Scenario.always_exists Scenario.no_detections elements
           Scenario.detector_not_loaded Scenario.captured).1
        (DetectionAgent.process_captured_image
           4300 Scenario.always_exists Scenario.no_detections elements
           Scenario.detector_not_loaded Scenario.captured).2.
Proof.
  split; [reflexivity|]. intros [Hst|Hsent].
  - by apply Hst.
  - by apply Hsent.
Qed.

(** The recognition API is down when the request of session "s1" arrives. *)
Example unavailable_detector_stops_the_chain_witness :
  sent (ImageRecognitionAgent.process_image_recognition
          400 false false ImageRecognitionAgent.ApiTimeout
          Scenario.recognition_down "coordinator" Scenario.recognition_request).2
  = [("coordinator"%string,
      MImageRecognitionResult
        (ImageRecognitionAgent.error_result
           Scenario.recognition_request "Image Recognition API is not available"))]
  ∧ ∃ st' effects result session',
      PipelineCoordinatorAgent.handle_image_recognition_result
        400 Scenario.coordinator_started "recognition"
        (ImageRecognitionAgent.error_result
           Scenario.recognition_request "Image Recognition API is not available")
      = (st', effects, Some result)
      ∧ sent effects = []
      ∧ PipelineCoordinatorAgent.active_sessions st' !! "s1"%string = Some session'
      ∧ PipelineCoordinatorAgent.completed session' = true
      ∧ PipelineCoordinatorAgent.failed_sessions st' = 1%nat.
Proof.
  destruct unavailable_detector_stops_the_chain as (_ & Hrecognition & Hcoordinator).
  split.
  - apply Hrecognition. split; reflexivity.
  - destruct (Hcoordinator 400%Q Scenario.coordinator_started "recognition"%string
                           Scenario.recognition_request Scenario.started_session)
      as (st' & effects & result & session' & Heq & Hsent & Hs & Hc & Hf & _).
    + vm_compute. reflexivity.
    + reflexivity.
    + exists st', effects, result, session'. split_and!; done.
Defined.

(** ** The report coordinator *)

Section ReportCoordinator.
Import ReportCoordinatorAgent.

(** C10. The report coordinator aggregates for its single current
    session only: a processing result with another session id is dropped
    with a warning and the state is left as it was. This holds even for a
    session the coordinator knows and holds as active: after a session
    has been started and then a second one with another id, the first is
    still in the store with status "active", and a result for it is
    dropped. *)
Theorem results_for_other_sessions_are_dropped :
  (∀ (st : CoordinatorState) (msg : ProcessingResult.t),
      current_session st ≠ ProcessingResult.session_id msg →
      coordinate_processing_result st msg
      = (st, [Log Warning ("[COORDINATOR] Session mismatch: current="
                           ++ current_session st ++ ", received="
                           ++ ProcessingResult.session_id msg)]))
  ∧ (∀ (st : CoordinatorState) t1 t1' t2 t2' start1 start2 (msg : ProcessingResult.t),
        let st1 := (start_system_coordination t1 t1' st start1).1 in
        let st2 := (start_system_coordination t2 t2' st1 start2).1 in
        current_session st1 ≠ current_session st2 →
        ProcessingResult.session_id msg = current_session st1 →
        (∃ session_data,
            sessions st2 !! current_session st1 = Some session_data
            ∧ status session_data = "active"%string)
        ∧ (coordinate_processing_result st2 msg).1 = st2
        ∧ sent (coordinate_processing_result st2 msg).2 = []).
Proof.
  assert (Hdrop : ∀ (st : CoordinatorState) (msg : ProcessingResult.t),
             current_session st ≠ ProcessingResult.session_id msg →
             coordinate_processing_result st msg
             = (st, [Log Warning ("[COORDINATOR] Session mismatch: current="
                                  ++ current_session st ++ ", received="
                                  ++ ProcessingResult.session_id msg)])).
  { intros st msg Hne. unfold coordinate_processing_result.
    by rewrite bool_decide_eq_true_2. }
  split; [exact Hdrop|].
  intros st t1 t1' t2 t2' start1 start2 msg st1 st2 Hne Hmsg. split.
  - subst st1 st2. simpl in *. rewrite lookup_insert_ne by done.
    rewrite lookup_insert_eq. eexists. split; [reflexivity|done].
  - rewrite Hdrop by (rewrite Hmsg; congruence). done.
Qed.
End ReportCoordinator.

(** Two sessions started a hundred seconds apart; a result for the first
    arrives when the second is current. *)
Example results_for_other_sessions_are_dropped_witness :
  let st1 := (ReportCoordinatorAgent.start_system_coordination
                1700000000 1700000000 Scenario.report_idle Scenario.start_defaults).1 in
  let st2 := (ReportCoordinatorAgent.start_system_coordination
                1700000100 1700000100 st1 Scenario.start_defaults).1 in
  (∃ session_data,
      ReportCoordinatorAgent.sessions st2 !! "session_1700000000"%string
      = Some session_data
      ∧ ReportCoordinatorAgent.status session_data = "active"%string)
  ∧ (ReportCoordinatorAgent.coordinate_processing_result st2 Scenario.late_result).1 = st2
  ∧ sent (ReportCoordinatorAgent.coordinate_processing_result st2 Scenario.late_result).2
    = [].
Proof.
  destruct results_for_other_sessions_are_dropped as [_ Hlate].
  apply (Hlate Scenario.report_idle 1700000000%Q 1700000000%Q 1700000100%Q 1700000100%Q
               Scenario.start_defaults Scenario.start_defaults Scenario.late_result).
  - vm_compute. discriminate.
  - vm_compute. reflexivity.
Defined.

(** ** The specification's example, end to end *)

(** Two laptops and a bottle are detected and the classifier answers
    [['Laptop']]: the larger laptop alone reaches the crop stage, which
    saves one crop for it. *)
Example laptop_scenario :
  ∃ d e p,
    sent (DetectionAgent.process_captured_image
            4300 Scenario.always_exists Scenario.two_laptops_and_bottle elements
            Scenario.detector_loaded Scenario.captured).2
    = [(DetectionAgent.AI_EVALUATOR_ADDRESS, MDetectionResult d)]
    ∧ DetectionResult.largest_instances d
      = [("(0, 0, 100, 100)", "laptop"); ("(10, 10, 30, 30)", "bottle")]%string
    ∧ sent (AiEvaluatorAgent.evaluate_resellability
              Scenario.always_exists (Scenario.replies "['Laptop']") Scenario.eval_capital
              Scenario.reads_ascii Scenario.evaluator_ready d).2
      = [(AiEvaluatorAgent.IMAGE_PROCESSOR_ADDRESS, MEvaluationResult e)]
    ∧ EvaluationResult.filtered_detections e = [("(0, 0, 100, 100)", "laptop")]%string
    ∧ sent (ImageProcessorAgent.process_evaluated_objects
              4300 Scenario.always_exists Scenario.pil_succeeds
              Scenario.processor_idle e).2
      = [(ImageProcessorAgent.REPORT_COORDINATOR_ADDRESS, MProcessingResult p)]
    ∧ ProcessingResult.resellable_objects p = ["laptop"%string]
    ∧ ProcessingResult.cropped_files p = ["1_1_laptop.jpg"%string].
Proof.
  eexists _, _, _. split_and!.
  - vm_compute. reflexivity.
  - reflexivity.
  - vm_compute. reflexivity.
  - reflexivity.
  - vm_compute. reflexivity.
  - reflexivity.
  - reflexivity.
Qed.

(** * Further properties *)

(** ** Decimal round trip: [int(str(n)) == n] *)

Section Numerals.
Variable int_max_str_digits : nat.

Lemma chars_append (s t : string) :
  PyStr.chars (s ++ t)%string = PyStr.chars s ++ PyStr.chars t.
Proof.
  unfold PyStr.chars. induction s as [|c s IH]; simpl; [done|]. by rewrite IH.
Qed.

Lemma of_chars_chars (s : string) : PyStr.of_chars (PyStr.chars s) = s.
Proof. apply string_of_list_ascii_of_string. Qed.

Lemma chars_of_chars (l : list ascii) : PyStr.chars (PyStr.of_chars l) = l.
Proof. apply list_ascii_of_string_of_list_ascii. Qed.

Lemma length_chars (s : string) : length (PyStr.chars s) = String.length s.
Proof.
  unfold PyStr.chars. induction s as [|c s IH]; simpl; [done|]. by rewrite IH.
Qed.

Lemma int_digits_uint (d : Decimal.uint) : ∀ prev acc count,
  d ≠ Decimal.Nil ∨ prev = true →
  PyStr.int_digits prev acc count (PyStr.chars (NilEmpty.string_of_uint d))
  = Some (uint_value acc d, (count + Decimal.nb_digits d)%nat).
Proof.
  unfold PyStr.chars.
  induction d as [|d IH|d IH|d IH|d IH|d IH|d IH|d IH|d IH|d IH|d IH];
    intros prev acc count Hne;
    [ destruct Hne as [Hne| ->]; [done | simpl; do 2 f_equal; lia]
    | cbn -[Z.mul Z.add PyStr.digit_of];
      match goal with
      | |- context [PyStr.digit_of ?c] =>
          let v := eval vm_compute in (PyStr.digit_of c) in
          change (PyStr.digit_of c) with v
      end;
      cbv iota beta; rewrite IH by (by right); do 2 f_equal; simpl; lia .. ].
Qed.

Lemma uint_value_acc (d : Decimal.uint) : ∀ acc : positive,
  uint_value (Z.pos acc) d = Z.pos (Pos.of_uint_acc d acc).
Proof.
  induction d as [|d IH|d IH|d IH|d IH|d IH|d IH|d IH|d IH|d IH|d IH];
    intros acc; [done | ..]; cbn -[Z.mul Z.add Pos.mul Pos.add];
    rewrite <- IH; f_equal; lia.
Qed.

Lemma uint_value_of_uint (d : Decimal.uint) :
  uint_value 0 d = Z.of_N (Pos.of_uint d).
Proof.
  induction d as [|d IH|d IH|d IH|d IH|d IH|d IH|d IH|d IH|d IH|d IH];
    [done | exact IH | ..]; cbn -[Z.mul Z.add]; by rewrite <- uint_value_acc.
Qed.

Lemma uint_value_to_uint (p : positive) : uint_value 0 (Pos.to_uint p) = Z.pos p.
Proof. by rewrite uint_value_of_uint, DecimalPos.Unsigned.of_to. Qed.

Lemma length_string_of_uint (d : Decimal.uint) :
  String.length (NilEmpty.string_of_uint d) = Decimal.nb_digits d.
Proof. induction d; simpl; by rewrite ?IHd. Qed.

Lemma numeral_chars_uint (d : Decimal.uint) :
  Forall (λ c, numeral_char c = true) (PyStr.chars (NilEmpty.string_of_uint d)).
Proof. induction d; simpl; constructor; done. Qed.

Lemma string_of_uint_to_uint (p : positive) :
  NilZero.string_of_uint (Pos.to_uint p) = NilEmpty.string_of_uint (Pos.to_uint p).
Proof.
  pose proof (DecimalPos.Unsigned.to_uint_nonnil p) as Hne.
  by destruct (Pos.to_uint p).
Qed.

(** [str(n)] is not empty and is made of digits and the minus sign. *)
Lemma numeral_chars_of_int (n : Z) :
  PyStr.chars (PyStr.of_int n) ≠ []
  ∧ Forall (λ c, numeral_char c = true) (PyStr.chars (PyStr.of_int n)).
Proof.
  unfold PyStr.of_int. destruct n as [|p|p]; simpl.
  - split; [done | by repeat constructor].
  - rewrite string_of_uint_to_uint. split; [|apply numeral_chars_uint].
    pose proof (DecimalPos.Unsigned.to_uint_nonnil p) as Hne.
    by destruct (Pos.to_uint p).
  - split; [done|]. constructor; [done|].
    rewrite string_of_uint_to_uint. apply numeral_chars_uint.
Qed.

Lemma lstrip_by_head (p : ascii → bool) (l : list ascii) :
  match l with c :: _ => p c = false | [] => True end →
  PyStr.lstrip_by p l = l.
Proof. destruct l as [|c l]; simpl; [done|]. by intros ->. Qed.

Lemma strip_by_none (p : ascii → bool) (l : list ascii) :
  Forall (λ c, p c = false) l → PyStr.strip_by p l = l.
Proof.
  intros Hall. unfold PyStr.strip_by.
  rewrite (lstrip_by_head p l) by (by destruct Hall).
  rewrite lstrip_by_head; [apply rev_involutive|].
  apply Forall_rev in Hall. by destruct Hall.
Qed.

Lemma numeral_char_not_space (c : ascii) :
  numeral_char c = true → PyStr.is_int_space c = false.
Proof.
  destruct c as [[|] [|] [|] [|] [|] [|] [|] [|]]; by vm_compute.
Qed.

(** [int(str(n)) == n] for a numeral of at most 640 characters. *)
Lemma int_of_int (n : Z) :
  short_numeral n → PyStr.int int_max_str_digits (PyStr.of_int n) = Some n.
Proof.
  unfold short_numeral, PyStr.int. intros Hshort.
  rewrite strip_by_none.
  2:{ eapply Forall_impl; [apply numeral_chars_of_int|].
      intros c. apply numeral_char_not_space. }
  revert Hshort. unfold PyStr.of_int. destruct n as [|p|p]; simpl.
  - done.
  - rewrite string_of_uint_to_uint. intros Hshort.
    rewrite length_string_of_uint in Hshort.
    pose proof (DecimalPos.Unsigned.to_uint_nonnil p) as Hne.
    pose proof (int_digits_uint (Pos.to_uint p) false 0 0%nat (or_introl Hne)) as Hd.
    pose proof (numeral_chars_uint (Pos.to_uint p)) as Hchars.
    destruct (PyStr.chars (NilEmpty.string_of_uint (Pos.to_uint p))) as [|c l] eqn:Hl.
    { by destruct (Pos.to_uint p). }
    assert (Hminus : PyStr.ascii_eqb c "-"%char = false).
    { destruct (Pos.to_uint p); simpl in Hl; try done; by injection Hl as <- _. }
    assert (Hplus : PyStr.ascii_eqb c "+"%char = false).
    { destruct (Pos.to_uint p); simpl in Hl; try done; by injection Hl as <- _. }
    rewrite Hminus, Hplus. unfold PyStr.int_unsigned. rewrite Hd.
    unfold PyStr.within_digit_limit.
    rewrite (proj2 (Nat.ltb_ge 640 _)) by (simpl; lia). simpl.
    by rewrite uint_value_to_uint.
  - rewrite string_of_uint_to_uint. intros Hshort.
    rewrite length_string_of_uint in Hshort.
    pose proof (DecimalPos.Unsigned.to_uint_nonnil p) as Hne.
    unfold PyStr.int_unsigned.
    rewrite (int_digits_uint (Pos.to_uint p) false 0 0%nat (or_introl Hne)).
    unfold PyStr.within_digit_limit.
    rewrite (proj2 (Nat.ltb_ge 640 _)) by (simpl; lia). simpl.
    by rewrite uint_value_to_uint.
Qed.
End Numerals.

(** ** Splitting and stripping *)

Section Splitting.

Lemma is_prefix_app (sep rest : list ascii) : PyStr.is_prefix sep (sep ++ rest) = true.
Proof.
  induction sep as [|c sep IH]; simpl; [done|].
  unfold PyStr.ascii_eqb. by rewrite Ascii.eqb_refl.
Qed.

Lemma split_scan_skip (sep s : list ascii) : ∀ cur rest,
  PyStr.split_scan sep (length s) cur (s ++ rest) = PyStr.split_scan sep 0 cur rest.
Proof.
  induction s as [|x s IH]; intros cur rest; simpl; [by destruct rest | apply IH].
Qed.

(** A piece free of the separator's first character ends at the separator. *)
Lemma split_scan_piece (c : ascii) (sep' piece : list ascii) : ∀ cur rest,
  Forall (λ x, PyStr.ascii_eqb c x = false) piece →
  PyStr.split_scan (c :: sep') 0 cur (piece ++ (c :: sep') ++ rest)
  = PyStr.of_chars (rev cur ++ piece) :: PyStr.split_scan (c :: sep') 0 [] rest.
Proof.
  induction piece as [|x piece IH]; intros cur rest Hfree.
  - rewrite app_nil_r.
    change ([] ++ (c :: sep') ++ rest) with (c :: (sep' ++ rest)).
    cbn [PyStr.split_scan].
    change (c :: sep' ++ rest) with ((c :: sep') ++ rest).
    rewrite is_prefix_app. f_equal.
    replace (length (c :: sep') - 1)%nat with (length sep') by (simpl; lia).
    apply split_scan_skip.
  - apply Forall_cons in Hfree as [Hx Hfree].
    change ((x :: piece) ++ (c :: sep') ++ rest)
      with (x :: (piece ++ (c :: sep') ++ rest)).
    cbn [PyStr.split_scan PyStr.is_prefix]. rewrite Hx. cbn [andb].
    rewrite IH by done. simpl. by rewrite <- app_assoc.
Qed.

Lemma split_scan_last (c : ascii) (sep' piece : list ascii) : ∀ cur,
  Forall (λ x, PyStr.ascii_eqb c x = false) piece →
  PyStr.split_scan (c :: sep') 0 cur piece = [PyStr.of_chars (rev cur ++ piece)].
Proof.
  induction piece as [|x piece IH]; intros cur Hfree.
  - by rewrite app_nil_r.
  - apply Forall_cons in Hfree as [Hx Hfree].
    cbn [PyStr.split_scan PyStr.is_prefix]. rewrite Hx. cbn [andb].
    rewrite IH by done. simpl. by rewrite <- app_assoc.
Qed.

Lemma lstrip_by_app (p : ascii → bool) (x l : list ascii) :
  Forall (λ c, p c = true) x → PyStr.lstrip_by p (x ++ l) = PyStr.lstrip_by p l.
Proof.
  induction x as [|c x IH]; intros Hx; simpl; [done|].
  apply Forall_cons in Hx as [-> Hx]. by apply IH.
Qed.

(** Stripping removes exactly a wrapping made of stripped characters
    around a middle that has none. *)
Lemma strip_by_wrapped (p : ascii → bool) (x mid y : list ascii) :
  Forall (λ c, p c = true) x → Forall (λ c, p c = true) y →
  Forall (λ c, p c = false) mid →
  PyStr.strip_by p (x ++ mid ++ y) = mid.
Proof.
  intros Hx Hy Hmid. unfold PyStr.strip_by.
  rewrite lstrip_by_app by done.
  destruct mid as [|a mid].
  - simpl. rewrite <- (app_nil_r y). by rewrite lstrip_by_app.
  - apply Forall_cons in Hmid as [Ha Hmid]. simpl. rewrite Ha.
    change (a :: mid ++ y) with ((a :: mid) ++ y).
    rewrite rev_app_distr, lstrip_by_app by (by apply Forall_rev).
    rewrite lstrip_by_head; [apply rev_involutive|].
    assert (Hall : Forall (λ c, p c = false) (rev (a :: mid))).
    { apply Forall_rev. by constructor. }
    by destruct Hall.
Qed.
End Splitting.

(** ** Bounding-box keys *)

Section BoxKeys.
Variable int_max_str_digits : nat.

Lemma numeral_char_not_comma (c : ascii) :
  numeral_char c = true → PyStr.ascii_eqb "," c = false.
Proof. destruct c as [[|] [|] [|] [|] [|] [|] [|] [|]]; by vm_compute. Qed.

Lemma numeral_char_not_paren (c : ascii) :
  numeral_char c = true → PyStr.mem_char c (PyStr.chars "()") = false.
Proof. destruct c as [[|] [|] [|] [|] [|] [|] [|] [|]]; by vm_compute. Qed.

(** The key the detection agent builds from a box parses back to the
    four coordinates. *)
Lemma coords_key_parses (x_min y_min x_max y_max : Z) :
  short_numeral x_min → short_numeral y_min →
  short_numeral x_max → short_numeral y_max →
  PyStr.map_int int_max_str_digits
    (PyStr.split ", "
       (PyStr.strip "()" (DetectionAgent.str_of_coords (x_min, y_min, x_max, y_max))))
  = Some [x_min; y_min; x_max; y_max].
Proof.
  intros Ha Hb Hc Hd.
  destruct (numeral_chars_of_int x_min) as [_ HA], (numeral_chars_of_int y_min) as [_ HB],
    (numeral_chars_of_int x_max) as [_ HC], (numeral_chars_of_int y_max) as [_ HD].
  set (A := PyStr.chars (PyStr.of_int x_min)) in *.
  set (B := PyStr.chars (PyStr.of_int y_min)) in *.
  set (C := PyStr.chars (PyStr.of_int x_max)) in *.
  set (D := PyStr.chars (PyStr.of_int y_max)) in *.
  set (sep := PyStr.chars ", ").
  set (mid := A ++ sep ++ B ++ sep ++ C ++ sep ++ D).
  assert (Hchars : PyStr.chars (DetectionAgent.str_of_coords (x_min, y_min, x_max, y_max))
                   = PyStr.chars "(" ++ mid ++ PyStr.chars ")").
  { unfold DetectionAgent.str_of_coords, mid. rewrite !chars_append.
    fold A B C D sep. by rewrite <- !app_assoc. }
  assert (Hparen : ∀ l, Forall (λ c, numeral_char c = true) l →
            Forall (λ c, PyStr.mem_char c (PyStr.chars "()") = false) l).
  { intros l Hl. eapply Forall_impl; [exact Hl|]. intros c. apply numeral_char_not_paren. }
  assert (Hcomma : ∀ l, Forall (λ c, numeral_char c = true) l →
            Forall (λ c, PyStr.ascii_eqb "," c = false) l).
  { intros l Hl. eapply Forall_impl; [exact Hl|]. intros c. apply numeral_char_not_comma. }
  assert (Hstrip : PyStr.strip "()" (DetectionAgent.str_of_coords (x_min, y_min, x_max, y_max))
                   = PyStr.of_chars mid).
  { unfold PyStr.strip. rewrite Hchars. f_equal. apply strip_by_wrapped.
    - by repeat constructor.
    - by repeat constructor.
    - unfold mid. rewrite !Forall_app. split_and!; auto; by repeat constructor. }
  rewrite Hstrip. unfold PyStr.split. rewrite chars_of_chars. fold sep.
  change sep with ("," :: " " :: [])%char.
  assert (Hmid : mid = A ++ ("," :: " " :: [])%char
                         ++ (B ++ ("," :: " " :: [])%char
                               ++ (C ++ ("," :: " " :: [])%char ++ D))) by done.
  rewrite Hmid.
  rewrite !split_scan_piece, split_scan_last by auto.
  simpl rev. rewrite !app_nil_l. unfold A, B, C, D. rewrite !of_chars_chars.
  simpl. by rewrite !int_of_int.
Qed.

(** X1. The key the detection agent builds from a box, [str(coords)],
    is read back by both consumers: [calculate_bbox_area] gives the
    area of the box, and the image processor's [parse_coordinates]
    gives its four coordinates, whose area is the same. *)
Theorem box_key_round_trip (x_min y_min x_max y_max : Z) :
  short_numeral x_min → short_numeral y_min →
  short_numeral x_max → short_numeral y_max →
  let coords_key := DetectionAgent.str_of_coords (x_min, y_min, x_max, y_max) in
  DetectionAgent.calculate_bbox_area int_max_str_digits coords_key
  = (x_max - x_min) * (y_max - y_min)
  ∧ ImageProcessorAgent.parse_coordinates int_max_str_digits coords_key
    = [x_min; y_min; x_max; y_max]
  ∧ ImageProcessorAgent.calculate_bbox_area
      (ImageProcessorAgent.parse_coordinates int_max_str_digits coords_key)
    = DetectionAgent.calculate_bbox_area int_max_str_digits coords_key.
Proof.
  intros Ha Hb Hc Hd coords_key. subst coords_key.
  unfold DetectionAgent.calculate_bbox_area, ImageProcessorAgent.parse_coordinates.
  by rewrite coords_key_parses.
Qed.
End BoxKeys.

Example box_key_round_trip_witness :
  DetectionAgent.calculate_bbox_area 4300 "(-5, 10, 1920, 1080)" = 1925 * 1070
  ∧ ImageProcessorAgent.parse_coordinates 4300 "(-5, 10, 1920, 1080)"
    = [-5; 10; 1920; 1080].
Proof.
  destruct (box_key_round_trip 4300 (-5) 10 1920 1080) as (Harea & Hparse & _);
    [unfold short_numeral; vm_compute; lia ..|].
  split; [exact Harea | exact Hparse].
Defined.

(** ** More on the largest-instance filter *)

Section LargestInstancesMore.
Variable int_max_str_digits : nat.

Abbreviation area' := (DetectionAgent.calculate_bbox_area int_max_str_digits).
Abbreviation select' := (DetectionAgent.select_largest_instances int_max_str_digits).
Abbreviation class_largest' := (DetectionAgent.class_largest_of int_max_str_digits).

(** What the filter's result looks like on a dictionary. *)
Lemma select_largest_instances_facts (d : list (string * string)) :
  PyDict.wf d →
  PyDict.wf (select' d)
  ∧ NoDup (PyDict.values (select' d))
  ∧ (∀ k c, (k, c) ∈ select' d → (k, c) ∈ d)
  ∧ (∀ k c, (k, c) ∈ d → ∃ k', (k', c) ∈ select' d).
Proof.
  intros Hwf.
  destruct (class_largest_of_inv int_max_str_digits d) as [Hcl Hentry Hseen].
  rewrite select_largest_instances_eq by done.
  split_and!.
  - unfold PyDict.wf, PyDict.keys. rewrite <- list_fmap_compose.
    apply NoDup_fmap_2_strong; [|by eapply NoDup_fmap_1].
    intros [c1 [k1 a1]] [c2 [k2 a2]] H1 H2; simpl; intros <-.
    destruct (Hentry _ _ _ H1) as [_ (i1 & Hi1 & _)].
    destruct (Hentry _ _ _ H2) as [_ (i2 & Hi2 & _)].
    apply list_elem_of_lookup_2 in Hi1, Hi2.
    assert (c1 = c2) as ->.
    { apply (elem_get _ _ _ Hwf) in Hi1, Hi2. congruence. }
    apply (elem_get _ _ _ Hcl) in H1, H2. congruence.
  - unfold PyDict.values. rewrite <- list_fmap_compose.
    erewrite list_fmap_ext; [exact Hcl|]. by intros ? [c [k a]].
  - intros k c ([c' [k' a']] & [= -> ->] & Hin)%list_elem_of_fmap.
    destruct (Hentry _ _ _ Hin) as [_ (i & Hi & _)].
    by apply list_elem_of_lookup_2 in Hi.
  - intros k c Hin. apply list_elem_of_lookup_1 in Hin as [i Hi].
    destruct (PyDict.get c (class_largest' d)) as [[k' a']|] eqn:Hget.
    + exists k'. apply list_elem_of_fmap. exists (c, (k', a')).
      split; [done | by apply get_Some_elem].
    + by destruct (Hseen _ _ _ Hi).
Qed.

(** With one entry per class, the first loop records every entry. *)
Lemma class_largest_fold_distinct (l : list (string * string)) : ∀ cl,
  NoDup (cl.*1 ++ PyDict.values l) →
  fold_left (DetectionAgent.largest_step int_max_str_digits) l cl
  = cl ++ ((λ item, (item.2, (item.1, area' item.1))) <$> l).
Proof.
  induction l as [|[k c] l IH]; intros cl Hnd; simpl.
  - by rewrite app_nil_r.
  - unfold PyDict.values in Hnd. rewrite fmap_cons in Hnd. simpl in Hnd.
    assert (Hnone : PyDict.get c cl = None).
    { apply get_None. apply NoDup_app in Hnd as (_ & Hdis & _).
      intros Hin. apply (Hdis _ Hin). apply list_elem_of_here. }
    rewrite Hnone, set_fresh by done. rewrite IH.
    + by rewrite <- app_assoc.
    + rewrite fmap_app. simpl. by rewrite <- app_assoc.
Qed.

Lemma select_largest_instances_distinct (d : list (string * string)) :
  PyDict.wf d → NoDup (PyDict.values d) → select' d = d.
Proof.
  intros Hwf Hvalues. rewrite select_largest_instances_eq by done.
  unfold DetectionAgent.class_largest_of.
  rewrite class_largest_fold_distinct by done. simpl.
  rewrite <- list_fmap_compose. rewrite <- (list_fmap_id d) at 2.
  apply list_fmap_ext. by intros ? [k c].
Qed.

(** X2. The largest-instance filter is idempotent, it is the identity on
    detections that already have one entry per class, and it never
    returns more entries than it was given. *)
Theorem select_largest_instances_idempotent (all_detections : list (string * string)) :
  PyDict.wf all_detections →
  select' (select' all_detections) = select' all_detections
  ∧ (NoDup (PyDict.values all_detections) → select' all_detections = all_detections)
  ∧ (length (select' all_detections) ≤ length all_detections)%nat.
Proof.
  intros Hwf.
  destruct (select_largest_instances_facts all_detections Hwf)
    as (Hwf' & Hvalues & Hsub & _).
  split_and!.
  - by apply select_largest_instances_distinct.
  - by apply select_largest_instances_distinct.
  - apply submseteq_length, NoDup_submseteq.
    + eapply NoDup_fmap_1. exact Hwf'.
    + intros [k c]. apply Hsub.
Qed.
End LargestInstancesMore.

Example select_largest_instances_idempotent_witness :
  let all_detections :=
    [("(0, 0, 100, 100)", "laptop"); ("(0, 0, 50, 50)", "laptop");
     ("(10, 10, 30, 30)", "bottle")]%string in
  DetectionAgent.select_largest_instances
    4300 (DetectionAgent.select_largest_instances 4300 all_detections)
  = DetectionAgent.select_largest_instances 4300 all_detections
  ∧ (length (DetectionAgent.select_largest_instances 4300 all_detections)
     ≤ length all_detections)%nat.
Proof.
  intros all_detections.
  destruct (select_largest_instances_idempotent 4300 all_detections) as (Hidem & _ & Hlen).
  - apply (bool_decide_unpack _). vm_compute. reflexivity.
  - by split.
Defined.

(** ** The detection handler *)

Section DetectionHandler.
Import DetectionAgent.
Variable int_max_str_digits : nat.
Variable path_exists : string → bool.
Variable predict : string → predict_outcome.
Variable list_of_set : gset string → list string.

Abbreviation pci := (process_captured_image int_max_str_digits path_exists
                                            predict list_of_set).

Lemma collect_detections_wf (results : list (list Box)) :
  PyDict.wf (collect_detections results).
Proof.
  unfold collect_detections, PyDict.wf, PyDict.keys.
  assert (Hinner : ∀ (result : list Box) (acc : list (string * string)),
             NoDup acc.*1 →
             NoDup (fold_left
                      (λ all_detections box,
                         PyDict.set (str_of_coords (xyxy box)) (class_name box)
                                    all_detections) result acc).*1).
  { induction result as [|box result IH]; intros acc Hacc; simpl; [done|].
    apply IH. by apply set_wf. }
  assert (Houter : ∀ (acc : list (string * string)),
             NoDup acc.*1 →
             NoDup (fold_left
                      (λ all_detections result,
                         fold_left
                           (λ all_detections box,
                              PyDict.set (str_of_coords (xyxy box)) (class_name box)
                                         all_detections) result all_detections)
                      results acc).*1).
  { induction results as [|result results IH]; intros acc Hacc; simpl; [done|].
    apply IH. by apply Hinner. }
  apply Houter. apply NoDup_nil_2.
Qed.

(** Every way the handler can end. *)
Lemma process_captured_image_cases (st : DetectionState) (msg : CapturedImage.t) :
  yolo_model (pci st msg).1 = yolo_model st
  ∧ processed_files st ⊆ processed_files (pci st msg).1
  ∧ (is_Some (yolo_model st) → path_exists (CapturedImage.file_path msg) = true →
     CapturedImage.file_path msg ∈ processed_files (pci st msg).1)
  ∧ (CapturedImage.file_path msg ∈ processed_files st →
     (pci st msg).1 = st ∧ sent (pci st msg).2 = [])
  ∧ ((sent (pci st msg).2 = []
      ∧ images_processed (pci st msg).1 = images_processed st)
     ∨ (∃ results,
           predict (CapturedImage.file_path msg) = PredictResults results
           ∧ collect_detections results ≠ []
           ∧ sent (pci st msg).2
             = [(AI_EVALUATOR_ADDRESS,
                 MDetectionResult
                   (DetectionResult.mk
                      (CapturedImage.file_path msg)
                      (CapturedImage.timestamp msg)
                      (CapturedImage.session_id msg)
                      (collect_detections results)
                      (list_of_set
                         (list_to_set
                            (PyDict.values
                               (select_largest_instances int_max_str_digits
                                  (collect_detections results)))))
                      (length (select_largest_instances int_max_str_digits
                                 (collect_detections results)))
                      (select_largest_instances int_max_str_digits
                         (collect_detections results))))]
           ∧ images_processed (pci st msg).1 = S (images_processed st))).
Proof.
  unfold process_captured_image.
  destruct (yolo_model st) as [model|] eqn:Hmodel.
  2:{ simpl. split_and!; try done; try (by intros [? ?]); by left. }
  destruct (path_exists (CapturedImage.file_path msg)) eqn:Hpath; simpl.
  2:{ split_and!; try done; by left. }
  case_bool_decide as Hseen; simpl.
  { split_and!; try done; by left. }
  assert (Hsession : ∀ st0 : DetectionState,
             let st1 := if bool_decide (current_session st0 ≠ CapturedImage.session_id msg)
                        then start_session (CapturedImage.session_id msg) st0 else st0 in
             yolo_model st1 = yolo_model st0
             ∧ processed_files st1 = processed_files st0
             ∧ images_processed st1 = images_processed st0).
  { intros st0. by case_bool_decide. }
  specialize (Hsession (set_processed_files
                          ({[CapturedImage.file_path msg]} ∪ processed_files st) st)).
  cbv zeta in Hsession. destruct Hsession as (Hm & Hp & Hi). simpl in Hm, Hp, Hi.
  destruct (predict (CapturedImage.file_path msg)) as [e|results] eqn:Hpredict; simpl.
  { rewrite Hm, Hp, Hi. simpl.
    split_and!; try done; try (by apply union_subseteq_r);
      try (by intros; apply elem_of_union_l, elem_of_singleton); by left. }
  destruct (collect_detections results) as [|item items] eqn:Hcollect; simpl.
  { rewrite Hm, Hp, Hi. simpl.
    split_and!; try done; try (by apply union_subseteq_r);
      try (by intros; apply elem_of_union_l, elem_of_singleton); by left. }
  rewrite Hm, Hp, Hi. simpl.
  split_and!; try done; try (by apply union_subseteq_r);
    try (by intros; apply elem_of_union_l, elem_of_singleton).
  right. exists results. by rewrite Hcollect.
Qed.

(** X3. Every detection result the handler sends goes to the evaluator,
    carries the image's path, timestamp and session, and is consistent:
    the detections are a non-empty dictionary; the largest instances are
    a dictionary of entries taken from the detections, with each detected
    class exactly once; and the count is the number of largest
    instances. *)
Theorem detection_result_is_consistent
        (st : DetectionState) (msg : CapturedImage.t) dest (d : DetectionResult.t) :
  (dest, MDetectionResult d) ∈ sent (pci st msg).2 →
  dest = AI_EVALUATOR_ADDRESS
  ∧ DetectionResult.image_path d = CapturedImage.file_path msg
  ∧ DetectionResult.timestamp d = CapturedImage.timestamp msg
  ∧ DetectionResult.session_id d = CapturedImage.session_id msg
  ∧ DetectionResult.detected_objects d ≠ []
  ∧ PyDict.wf (DetectionResult.detected_objects d)
  ∧ PyDict.wf (DetectionResult.largest_instances d)
  ∧ NoDup (PyDict.values (DetectionResult.largest_instances d))
  ∧ (∀ k c, (k, c) ∈ DetectionResult.largest_instances d →
            (k, c) ∈ DetectionResult.detected_objects d)
  ∧ (∀ k c, (k, c) ∈ DetectionResult.detected_objects d →
            ∃ k', (k', c) ∈ DetectionResult.largest_instances d)
  ∧ DetectionResult.detection_count d = length (DetectionResult.largest_instances d).
Proof.
  intros Hin.
  destruct (process_captured_image_cases st msg)
    as (_ & _ & _ & _ & [[Hnone _]|(results & _ & Hne & Hsent & _)]).
  { rewrite Hnone in Hin. by apply elem_of_nil in Hin. }
  rewrite Hsent in Hin. apply list_elem_of_singleton in Hin.
  injection Hin as -> ->. simpl.
  destruct (select_largest_instances_facts
              int_max_str_digits (collect_detections results)
              (collect_detections_wf results)) as (Hwf & Hvalues & Hsub & Hall).
  split_and!; try done. apply collect_detections_wf.
Qed.

(** X4. A file is detected at most once: once the handler has taken a
    captured image whose file exists, with the model loaded, any later
    message for the same file path, whatever its session, changes
    nothing and sends nothing. *)
Theorem captured_file_is_processed_once
        (st : DetectionState) (msg again : CapturedImage.t) :
  is_Some (yolo_model st) →
  path_exists (CapturedImage.file_path msg) = true →
  CapturedImage.file_path again = CapturedImage.file_path msg →
  pci (pci st msg).1 again = ((pci st msg).1, []).
Proof.
  intros Hmodel Hpath Hsame.
  destruct (process_captured_image_cases st msg) as (Hm & _ & Hmark & _).
  specialize (Hmark Hmodel Hpath).
  unfold process_captured_image at 1. rewrite Hm.
  destruct Hmodel as [model ->]. rewrite Hsame, Hpath. simpl.
  by rewrite bool_decide_eq_true_2.
Qed.

(** X5. The handler sends at most one message, and [images_processed]
    counts exactly the detection results sent. *)
Theorem images_processed_counts_results (st : DetectionState) (msg : CapturedImage.t) :
  (length (sent (pci st msg).2) ≤ 1)%nat
  ∧ images_processed (pci st msg).1
    = (images_processed st + length (sent (pci st msg).2))%nat.
Proof.
  destruct (process_captured_image_cases st msg)
    as (_ & _ & _ & _ & [[-> ->]|(results & _ & _ & -> & ->)]); simpl; lia.
Qed.
End DetectionHandler.

Example detection_result_is_consistent_witness :
  ∃ d,
    sent (DetectionAgent.process_captured_image
            4300 Scenario.always_exists Scenario.two_laptops_and_bottle elements
            Scenario.detector_loaded Scenario.captured).2
    = [(DetectionAgent.AI_EVALUATOR_ADDRESS, MDetectionResult d)]
    ∧ PyDict.wf (DetectionResult.largest_instances d)
    ∧ DetectionResult.detection_count d = length (DetectionResult.largest_instances d).
Proof.
  assert (Hsent : ∃ d,
             sent (DetectionAgent.process_captured_image
                     4300 Scenario.always_exists Scenario.two_laptops_and_bottle elements
                     Scenario.detector_loaded Scenario.captured).2
             = [(DetectionAgent.AI_EVALUATOR_ADDRESS, MDetectionResult d)]).
  { eexists. vm_compute. reflexivity. }
  destruct Hsent as [d Hd]. exists d. split; [exact Hd|].
  destruct (detection_result_is_consistent
              4300 Scenario.always_exists Scenario.two_laptops_and_bottle elements
              Scenario.detector_loaded Scenario.captured
              DetectionAgent.AI_EVALUATOR_ADDRESS d)
    as (_ & _ & _ & _ & _ & _ & Hwf & _ & _ & _ & Hcount).
  - rewrite Hd. apply list_elem_of_here.
  - by split.
Defined.

(** The same file arrives again under another session. *)
Example captured_file_is_processed_once_witness :
  let st' := (DetectionAgent.process_captured_image
                4300 Scenario.always_exists Scenario.two_laptops_and_bottle elements
                Scenario.detector_loaded Scenario.captured).1 in
  DetectionAgent.process_captured_image
    4300 Scenario.always_exists Scenario.two_laptops_and_bottle elements st'
    (CapturedImage.mk "frame_1.jpg" 2 "captures/frame_1.jpg" 0 "session_2")
  = (st', []).
Proof.
  intros st'.
  apply (captured_file_is_processed_once
           4300 Scenario.always_exists Scenario.two_laptops_and_bottle elements
           Scenario.detector_loaded Scenario.captured
           (CapturedImage.mk "frame_1.jpg" 2 "captures/frame_1.jpg" 0 "session_2")).
  - eexists. reflexivity.
  - reflexivity.
  - reflexivity.
Defined.

(** ** Batch processing *)

Section Batch.
Import DetectionAgent.
Variable int_max_str_digits : nat.

Lemma numeral_char_not_underscore (c : ascii) :
  numeral_char c = true → PyStr.ascii_eqb "_" c = false.
Proof. destruct c as [[|] [|] [|] [|] [|] [|] [|] [|]]; by vm_compute. Qed.

Lemma numeral_char_not_dot (c : ascii) :
  numeral_char c = true → PyStr.ascii_eqb "." c = false.
Proof. destruct c as [[|] [|] [|] [|] [|] [|] [|] [|]]; by vm_compute. Qed.

(** X6. The batch task reads the timestamp back from the frame names in
    use: [frame_<t>.jpg], and [frame_<t>_<k>.jpg] as the web API names
    the frames of a video, both give [t]; a name that does not start with
    [frame_] gets the clock's reading. *)
Theorem batch_timestamp_reads_frame_names (now : Q) (t k : Z) (other : string) :
  short_numeral t →
  PyStr.is_prefix (PyStr.chars "frame_") (PyStr.chars other) = false →
  batch_timestamp int_max_str_digits now ("frame_" ++ PyStr.of_int t ++ ".jpg") = t
  ∧ batch_timestamp int_max_str_digits now
      ("frame_" ++ PyStr.of_int t ++ "_" ++ PyStr.of_int k ++ ".jpg") = t
  ∧ batch_timestamp int_max_str_digits now other = PyStr.int_of_float now.
Proof.
  intros Ht Hother.
  destruct (numeral_chars_of_int t) as [_ HT], (numeral_chars_of_int k) as [_ HK].
  set (T := PyStr.chars (PyStr.of_int t)) in *.
  set (K := PyStr.chars (PyStr.of_int k)) in *.
  assert (HT_ : Forall (λ c, PyStr.ascii_eqb "_" c = false) T).
  { eapply Forall_impl; [exact HT|]. intros c. apply numeral_char_not_underscore. }
  assert (HK_ : Forall (λ c, PyStr.ascii_eqb "_" c = false) K).
  { eapply Forall_impl; [exact HK|]. intros c. apply numeral_char_not_underscore. }
  assert (HTdot : Forall (λ c, PyStr.ascii_eqb "." c = false) T).
  { eapply Forall_impl; [exact HT|]. intros c. apply numeral_char_not_dot. }
  assert (Hframe : Forall (λ c, PyStr.ascii_eqb "_" c = false) (PyStr.chars "frame")).
  { by repeat constructor. }
  assert (Hjpg_ : Forall (λ c, PyStr.ascii_eqb "_" c = false) (PyStr.chars ".jpg")).
  { by repeat constructor. }
  assert (Hjpg : Forall (λ c, PyStr.ascii_eqb "." c = false) (PyStr.chars "jpg")).
  { by repeat constructor. }
  split_and!.
  - unfold batch_timestamp.
    assert (Hchars : PyStr.chars ("frame_" ++ PyStr.of_int t ++ ".jpg")
                     = PyStr.chars "frame_" ++ (T ++ PyStr.chars ".jpg")).
    { by rewrite !chars_append. }
    rewrite Hchars, is_prefix_app.
    unfold PyStr.split. rewrite Hchars.
    change (PyStr.chars "frame_" ++ (T ++ PyStr.chars ".jpg"))
      with (PyStr.chars "frame" ++ ("_" :: [])%char ++ (T ++ PyStr.chars ".jpg")).
    change (PyStr.chars "_") with ("_" :: [])%char.
    rewrite split_scan_piece by done.
    rewrite split_scan_last by (by apply Forall_app).
    rewrite chars_of_chars. simpl rev. rewrite app_nil_l.
    change (PyStr.chars ".") with ("." :: [])%char.
    change (T ++ PyStr.chars ".jpg") with (T ++ ("." :: [])%char ++ PyStr.chars "jpg").
    rewrite split_scan_piece by done. simpl rev. rewrite app_nil_l.
    unfold T. rewrite of_chars_chars. by rewrite int_of_int.
  - unfold batch_timestamp.
    assert (Hchars : PyStr.chars ("frame_" ++ PyStr.of_int t ++ "_" ++ PyStr.of_int k ++ ".jpg")
                     = PyStr.chars "frame_" ++ (T ++ PyStr.chars "_" ++ (K ++ PyStr.chars ".jpg"))).
    { by rewrite !chars_append. }
    rewrite Hchars, is_prefix_app.
    unfold PyStr.split. rewrite Hchars.
    change (PyStr.chars "frame_" ++ (T ++ PyStr.chars "_" ++ (K ++ PyStr.chars ".jpg")))
      with (PyStr.chars "frame" ++ ("_" :: [])%char
              ++ (T ++ ("_" :: [])%char ++ (K ++ PyStr.chars ".jpg"))).
    change (PyStr.chars "_") with ("_" :: [])%char.
    rewrite !split_scan_piece by done.
    simpl rev. rewrite !app_nil_l. rewrite chars_of_chars.
    change (PyStr.chars ".") with ("." :: [])%char.
    rewrite split_scan_last by done. simpl rev. rewrite app_nil_l.
    unfold T. rewrite of_chars_chars. by rewrite int_of_int.
  - unfold batch_timestamp. by rewrite Hother.
Qed.
End Batch.

Example batch_timestamp_reads_frame_names_witness :
  DetectionAgent.batch_timestamp 4300 5 "frame_1700000000.jpg" = 1700000000
  ∧ DetectionAgent.batch_timestamp 4300 5 "frame_1700000000_3.jpg" = 1700000000
  ∧ DetectionAgent.batch_timestamp 4300 5 "web_session_1_photo.jpg" = 5.
Proof.
  apply (batch_timestamp_reads_frame_names 4300 5 1700000000 3 "web_session_1_photo.jpg").
  - unfold short_numeral. vm_compute. lia.
  - reflexivity.
Defined.

Section BatchHandler.
Import DetectionAgent.
Variable int_max_str_digits : nat.
Variable path_exists : string → bool.
Variable predict : string → predict_outcome.
Variable list_of_set : gset string → list string.
Variable clock : string → Q.

Abbreviation step := (batch_step int_max_str_digits path_exists predict list_of_set clock).

(** What one iteration of the batch loop keeps and adds. *)
Lemma batch_step_cases (st : DetectionState) (effects : list effect) (image_path : string) :
  yolo_model (step (st, effects) image_path).1 = yolo_model st
  ∧ processed_files st ⊆ processed_files (step (st, effects) image_path).1
  ∧ (is_Some (yolo_model st) → path_exists image_path = true →
     image_path ∈ processed_files (step (st, effects) image_path).1)
  ∧ ∃ more,
      (step (st, effects) image_path).2 = effects ++ more
      ∧ ∀ dest d, (dest, MDetectionResult d) ∈ sent more →
                  DetectionResult.session_id d = "batch_processing"%string
                  ∧ DetectionResult.image_path d = image_path.
Proof.
  unfold batch_step. case_bool_decide as Hseen.
  - simpl. split_and!; try done. exists []. rewrite app_nil_r. split; [done|].
    intros dest d Hin. by apply elem_of_nil in Hin.
  - set (msg := CapturedImage.mk _ _ _ _ _).
    destruct (process_captured_image_cases
                int_max_str_digits path_exists predict list_of_set st msg)
      as (Hm & Hp & Hmark & _ & Hsent).
    destruct (process_captured_image _ _ _ _ st msg) as [st' more] eqn:Hrun.
    simpl in *. split_and!; try done. exists more. split; [done|].
    intros dest d Hin.
    destruct Hsent as [[Hnone _]|(results & _ & _ & Hone & _)].
    + rewrite Hnone in Hin. by apply elem_of_nil in Hin.
    + rewrite Hone in Hin. apply list_elem_of_singleton in Hin.
      by injection Hin as _ ->.
Qed.

Lemma batch_fold (image_paths : list string) : ∀ (st : DetectionState) effects,
  is_Some (yolo_model st) →
  (∀ p, p ∈ image_paths → path_exists p = true) →
  let run := fold_left step image_paths (st, effects) in
  processed_files st ⊆ processed_files run.1
  ∧ (∀ p, p ∈ image_paths → p ∈ processed_files run.1)
  ∧ ∃ more,
      run.2 = effects ++ more
      ∧ ∀ dest d, (dest, MDetectionResult d) ∈ sent more →
                  DetectionResult.session_id d = "batch_processing"%string
                  ∧ DetectionResult.image_path d ∈ image_paths.
Proof.
  induction image_paths as [|p image_paths IH]; intros st effects Hmodel Hexist;
    cbv zeta; cbn [fold_left].
  - split_and!; [done | by intros p Hp%elem_of_nil |].
    exists []. rewrite app_nil_r. split; [done|].
    intros dest d Hin. by apply elem_of_nil in Hin.
  - destruct (batch_step_cases st effects p) as (Hm & Hp & Hmark & more1 & Heff & Hsess).
    destruct (step (st, effects) p) as [st1 effects1] eqn:Hstep. cbn [fst snd] in *.
    subst effects1.
    destruct (IH st1 (effects ++ more1)) as (Hsub & Hall & more2 & Heff2 & Hsess2).
    { by rewrite Hm. }
    { intros q Hq. apply Hexist. by apply list_elem_of_further. }
    split_and!.
    + by etrans.
    + intros q [->|Hq]%elem_of_cons.
      * apply Hsub. apply Hmark; [done|]. apply Hexist. apply list_elem_of_here.
      * by apply Hall.
    + exists (more1 ++ more2). split; [by rewrite Heff2, <- app_assoc|].
      intros dest d Hin. unfold sent in Hin. rewrite omap_app in Hin.
      apply elem_of_app in Hin as [Hin|Hin].
      * destruct (Hsess _ _ Hin) as [? ->]. split; [done | apply list_elem_of_here].
      * destruct (Hsess2 _ _ Hin) as [? ?]. split; [done | by apply list_elem_of_further].
Qed.

Lemma batch_fold_seen (image_paths : list string) : ∀ (st : DetectionState) effects,
  (∀ p, p ∈ image_paths → p ∈ processed_files st) →
  fold_left step image_paths (st, effects) = (st, effects).
Proof.
  induction image_paths as [|p image_paths IH]; intros st effects Hseen;
    cbn [fold_left]; [done|].
  unfold batch_step at 2. rewrite bool_decide_eq_true_2.
  - apply IH. intros q Hq. apply Hseen. by apply list_elem_of_further.
  - apply Hseen. apply list_elem_of_here.
Qed.
End BatchHandler.

Section BatchTheorem.
Import DetectionAgent.

(** X7. With the model loaded, the capture folder present and the listed
    files existing, the batch task leaves every listed file marked as
    processed; every detection result it sends is for a listed file and
    carries the session "batch_processing"; and a second run over the
    same listing, whatever the detector and the clock then say, changes
    nothing and sends nothing. *)
Theorem batch_marks_every_file
        int_max_str_digits path_exists predict list_of_set clock
        predict' clock' (image_paths : list string) (st : DetectionState) :
  is_Some (yolo_model st) →
  path_exists "captures" = true →
  (∀ p, p ∈ image_paths → path_exists p = true) →
  let run := process_batch_images int_max_str_digits path_exists predict
                                  list_of_set clock image_paths st in
  (∀ p, p ∈ image_paths → p ∈ processed_files run.1)
  ∧ (∀ dest d, (dest, MDetectionResult d) ∈ sent run.2 →
               DetectionResult.session_id d = "batch_processing"%string
               ∧ DetectionResult.image_path d ∈ image_paths)
  ∧ process_batch_images int_max_str_digits path_exists predict'
                         list_of_set clock' image_paths run.1
    = (run.1, []).
Proof.
  intros Hmodel Hfolder Hexist run. subst run.
  unfold process_batch_images.
  destruct Hmodel as [model Hmodel]. rewrite Hmodel, Hfolder. simpl.
  destruct (batch_fold int_max_str_digits path_exists predict list_of_set clock
                       image_paths st [])
    as (_ & Hall & more & Heff & Hsess); [by rewrite Hmodel | done |].
  simpl in Heff.
  assert (Hmodel' :
            yolo_model (fold_left (batch_step int_max_str_digits path_exists predict
                                              list_of_set clock) image_paths (st, [])).1
            = Some model).
  { clear Hall Heff Hsess. rewrite <- Hmodel. generalize (@nil effect).
    revert st Hmodel. induction image_paths as [|p ps IH]; intros st Hmodel effects;
      cbn [fold_left]; [done|].
    destruct (batch_step_cases int_max_str_digits path_exists predict list_of_set clock
                               st effects p) as (Hm & _).
    destruct (batch_step _ _ _ _ _ (st, effects) p) as [st1 effects1]. cbn [fst] in Hm.
    rewrite IH.
    - done.
    - intros q Hq. apply Hexist. by apply list_elem_of_further.
    - by rewrite Hm. }
  split_and!.
  - exact Hall.
  - rewrite Heff. exact Hsess.
  - rewrite Hmodel'. simpl. by apply batch_fold_seen.
Qed.
End BatchTheorem.

Example batch_marks_every_file_witness :
  let run := DetectionAgent.process_batch_images
               4300 Scenario.always_exists Scenario.two_laptops_and_bottle elements
               (λ _, 5%Q) ["captures/frame_1.jpg"; "captures/frame_2.jpg"]%string
               Scenario.detector_loaded in
  ("captures/frame_2.jpg"%string ∈ DetectionAgent.processed_files run.1)
  ∧ DetectionAgent.process_batch_images
      4300 Scenario.always_exists Scenario.no_detections elements
      (λ _, 9%Q) ["captures/frame_1.jpg"; "captures/frame_2.jpg"]%string run.1
    = (run.1, []).
Proof.
  intros run.
  destruct (batch_marks_every_file
              4300 Scenario.always_exists Scenario.two_laptops_and_bottle elements
              (λ _, 5%Q) Scenario.no_detections (λ _, 9%Q)
              ["captures/frame_1.jpg"; "captures/frame_2.jpg"]%string
              Scenario.detector_loaded) as (Hall & _ & Hagain).
  - eexists. reflexivity.
  - reflexivity.
  - intros p _. reflexivity.
  - split; [|exact Hagain]. apply Hall. apply list_elem_of_further, list_elem_of_here.
Defined.

(** ** More on the evaluation stage *)

Section EvaluationMore.
Import AiEvaluatorAgent.
Variable path_exists : string → bool.
Variable gemini_reply : string → list string → option string.
Variable py_eval : string → eval_outcome.
Variable str_of_bytes : string → string + string.

Abbreviation evaluate :=
  (evaluate_resellability path_exists gemini_reply py_eval str_of_bytes).

(** An item without a [lower] method makes the lower-casing raise. *)
Lemma normalize_names_inl (items : list pyobj) item :
  item ∈ items → (∀ s, item ≠ PStr s) → (∀ b, item ≠ PBytes b) →
  ∃ e, normalize_names items = inl e.
Proof.
  intros Hin Hstr Hbytes.
  induction Hin as [item items|item other items Hin IH]; simpl.
  - destruct item as [s|b|l|ty]; simpl; eauto; [by destruct (Hstr s) | by destruct (Hbytes b)].
  - destruct (lower_of other) as [e|l]; [eauto|].
    destruct (IH Hstr Hbytes) as [e ->]. eauto.
Qed.

(** A bytes item the message model rejects makes the message fail. *)
Lemma names_as_str_inl (items : list pyobj) b e :
  PBytes b ∈ items → str_of_bytes b = inl e →
  ∃ e', names_as_str str_of_bytes items = inl e'.
Proof.
  intros Hin Hb. induction items as [|item items IH]; [by apply elem_of_nil in Hin|].
  apply elem_of_cons in Hin as [<-|Hin]; simpl.
  - rewrite Hb. eauto.
  - destruct (match item with PStr s => _ | _ => _ end) as [e0|s0]; [eauto|].
    destruct (IH Hin) as [e' ->]. eauto.
Qed.

(** When every item has a [lower] method and the message model accepts
    the bytes items, the message is made. *)
Lemma names_as_str_inr (items : list pyobj) (normalized : list lowered) :
  normalize_names items = inr normalized →
  (∀ b, PBytes b ∈ items → ∃ s, str_of_bytes b = inr s) →
  ∃ resellable_items, names_as_str str_of_bytes items = inr resellable_items.
Proof.
  revert normalized. induction items as [|item items IH]; intros normalized; simpl.
  - eauto.
  - destruct (lower_of item) as [e|l] eqn:Hl; [done|].
    destruct (normalize_names items) as [e|ls]; [done|]. intros _ Hbytes.
    destruct (IH ls eq_refl) as [rest ->].
    { intros b Hb. apply Hbytes. by apply list_elem_of_further. }
    destruct item as [s|b|l'|ty]; simpl in Hl; try done; [eauto|].
    destruct (Hbytes b) as [s ->]; [apply list_elem_of_here | eauto].
Qed.

(** The message keeps the [str] items of the classifier's list. *)
Lemma names_as_str_keeps (items : list pyobj) (resellable_items : list string) s :
  names_as_str str_of_bytes items = inr resellable_items →
  s ∈ str_items items → s ∈ resellable_items.
Proof.
  unfold str_items.
  revert resellable_items. induction items as [|item items IH]; intros result; simpl.
  - by intros _ ?%elem_of_nil.
  - destruct item as [s0|b|l|ty]; simpl; try done.
    + destruct (names_as_str str_of_bytes items) as [e|rest]; [done|].
      intros [= <-] [->|Hin]%elem_of_cons; [apply list_elem_of_here|].
      apply list_elem_of_further. by apply (IH rest).
    + destruct (str_of_bytes b) as [e|s0]; [done|].
      destruct (names_as_str str_of_bytes items) as [e|rest]; [done|].
      intros [= <-] Hin. apply list_elem_of_further. by apply (IH rest).
Qed.

(** Whatever happens before the evaluation proper leaves these alone. *)
Lemma evaluate_resellability_guarded (st : EvaluatorState) (msg : DetectionResult.t) :
  gemini_model st = None ∨ path_exists (DetectionResult.image_path msg) = false →
  (evaluate st msg).1 = st ∧ sent (evaluate st msg).2 = [].
Proof.
  unfold evaluate_resellability. intros [Hnone|Hpath].
  - by rewrite Hnone.
  - destruct (gemini_model st); by rewrite ?Hpath.
Qed.

Lemma sent_after_parse (raw : string) (effects : list effect) :
  sent ((parse_resellable_names py_eval raw).2 ++ effects) = sent effects.
Proof.
  unfold sent at 1. rewrite omap_app.
  fold (sent (parse_resellable_names py_eval raw).2).
  by rewrite (proj1 (parse_resellable_names_sent py_eval raw)).
Qed.

(** X8. A list from the classifier with an item that has no [lower]
    method (a number, a nested list) abandons the evaluation: the
    evaluator sends nothing and logs an error; the API call is counted,
    the image is not. A bytes item has the method, so the evaluation
    goes on; if the message model then rejects the item, nothing is
    sent either and an error is logged. *)
Theorem unusable_item_abandons_evaluation
        (st : EvaluatorState) (msg : DetectionResult.t) (items : list pyobj) item :
  is_Some (gemini_model st) →
  path_exists (DetectionResult.image_path msg) = true →
  py_eval (gemini_raw_result gemini_reply st msg) = EvalValue (PList items) →
  item ∈ items →
  match item with
  | PStr s => True
  | PBytes b =>
      ∀ e, str_of_bytes b = inl e →
           sent (evaluate st msg).2 = []
           ∧ (∃ text, Log Error text ∈ (evaluate st msg).2)
           ∧ api_calls_made (evaluate st msg).1 = S (api_calls_made st)
  | _ =>
      sent (evaluate st msg).2 = []
      ∧ (∃ text, Log Error text ∈ (evaluate st msg).2)
      ∧ images_evaluated (evaluate st msg).1 = images_evaluated st
      ∧ api_calls_made (evaluate st msg).1 = S (api_calls_made st)
  end.
Proof.
  intros Hmodel Hpath Heval Hin.
  assert (Habandon : (∀ s, item ≠ PStr s) → (∀ b, item ≠ PBytes b) →
            sent (evaluate st msg).2 = []
            ∧ (∃ text, Log Error text ∈ (evaluate st msg).2)
            ∧ images_evaluated (evaluate st msg).1 = images_evaluated st
            ∧ api_calls_made (evaluate st msg).1 = S (api_calls_made st)).
  { intros Hstr Hbytes.
    rewrite evaluate_resellability_run by done. cbv zeta.
    unfold parse_resellable_names. rewrite Heval. cbn [fst snd].
    destruct (normalize_names_inl items item Hin Hstr Hbytes) as [e ->]. simpl.
    split_and!; [done | | by case_bool_decide | by case_bool_decide].
    eexists. apply list_elem_of_here. }
  destruct item as [s|b|l|ty]; [done | | by apply Habandon..].
  intros e Hb.
  rewrite evaluate_resellability_run by done. cbv zeta.
  unfold parse_resellable_names. rewrite Heval. cbn [fst snd].
  destruct (names_as_str_inl items b e Hin Hb) as [e' ->].
  destruct (normalize_names items) as [e0|normalized]; simpl;
    (split_and!; [done | eexists; apply list_elem_of_here | by case_bool_decide]).
Qed.

(** What a message sent by the evaluator holds. *)
Lemma evaluation_result_facts
        (st : EvaluatorState) (msg : DetectionResult.t) dest m :
  PyDict.wf (DetectionResult.largest_instances msg) →
  (dest, m) ∈ sent (evaluate st msg).2 →
  dest = IMAGE_PROCESSOR_ADDRESS
  ∧ ∃ r, m = MEvaluationResult r
         ∧ EvaluationResult.image_path r = DetectionResult.image_path msg
         ∧ EvaluationResult.timestamp r = DetectionResult.timestamp msg
         ∧ EvaluationResult.session_id r = DetectionResult.session_id msg
         ∧ EvaluationResult.original_objects r = DetectionResult.unique_classes msg
         ∧ EvaluationResult.filtered_detections r
             `sublist_of` DetectionResult.largest_instances msg
         ∧ ∀ coords_key class_name,
             (coords_key, class_name) ∈ EvaluationResult.filtered_detections r →
             resellable (EvaluationResult.resellable_items r) class_name.
Proof.
  intros Hwf Hin.
  destruct (gemini_model st) as [model|] eqn:Hmodel.
  2:{ destruct (evaluate_resellability_guarded st msg (or_introl Hmodel)) as [_ Hnone].
      rewrite Hnone in Hin. by apply elem_of_nil in Hin. }
  destruct (path_exists (DetectionResult.image_path msg)) eqn:Hpath.
  2:{ destruct (evaluate_resellability_guarded st msg (or_intror Hpath)) as [_ Hnone].
      rewrite Hnone in Hin. by apply elem_of_nil in Hin. }
  rewrite evaluate_resellability_run in Hin by (by rewrite ?Hmodel). cbv zeta in Hin.
  destruct (parse_resellable_names py_eval _).1 as [names|] eqn:Hparse.
  2:{ cbn [snd] in Hin.
      rewrite (proj1 (parse_resellable_names_sent py_eval _)) in Hin.
      by apply elem_of_nil in Hin. }
  destruct (normalize_names names) as [e|normalized] eqn:Hnorm.
  { cbn [snd] in Hin. rewrite sent_after_parse in Hin. by apply elem_of_nil in Hin. }
  destruct (names_as_str str_of_bytes names) as [e|resellable_items] eqn:Hitems;
    cbn [snd] in Hin; rewrite sent_after_parse in Hin.
  { by apply elem_of_nil in Hin. }
  apply list_elem_of_singleton in Hin. injection Hin as -> ->.
  split; [done|]. eexists. split; [reflexivity|]. simpl.
  split_and!; try done.
  - unfold filter_detections. rewrite filter_detections_fold by done. simpl.
    apply sublist_filter.
  - intros k c Hk. unfold filter_detections in Hk.
    rewrite filter_detections_fold in Hk by done. simpl in Hk.
    apply list_elem_of_filter in Hk as [Hk _]. simpl in Hk.
    apply (elem_of_normalize_names names normalized c Hnorm) in Hk
      as (name & Hname & Hlow).
    exists name. split; [|done]. by apply (names_as_str_keeps names).
Qed.

(** X9. Whatever the classifier answers, a message the evaluator sends
    is an evaluation result for the image processor that carries the
    image's path, timestamp and session; its filtered detections are
    taken from the largest instances, in their order, and each of them
    has a class that equals one of the result's resellable items up to
    case. *)
Theorem evaluation_result_is_consistent
        (st : EvaluatorState) (msg : DetectionResult.t) dest m :
  PyDict.wf (DetectionResult.largest_instances msg) →
  (dest, m) ∈ sent (evaluate st msg).2 →
  dest = IMAGE_PROCESSOR_ADDRESS
  ∧ ∃ r, m = MEvaluationResult r
         ∧ EvaluationResult.image_path r = DetectionResult.image_path msg
         ∧ EvaluationResult.timestamp r = DetectionResult.timestamp msg
         ∧ EvaluationResult.session_id r = DetectionResult.session_id msg
         ∧ EvaluationResult.original_objects r = DetectionResult.unique_classes msg
         ∧ EvaluationResult.filtered_detections r
             `sublist_of` DetectionResult.largest_instances msg
         ∧ ∀ coords_key class_name,
             (coords_key, class_name) ∈ EvaluationResult.filtered_detections r →
             resellable (EvaluationResult.resellable_items r) class_name.
Proof. apply evaluation_result_facts. Qed.

(** X10, as the code has it. The evaluator sends at most one message.
    [images_evaluated] grows by one when a result is sent, and by at
    most one; it counts exactly the results sent as long as the message
    model accepts every bytes item of the classifier's list, and counts
    an image without a result when it rejects one. [api_calls_made]
    grows by one exactly when the model is available and the image
    exists. *)
Theorem evaluator_counters (st : EvaluatorState) (msg : DetectionResult.t) :
  (length (sent (evaluate st msg).2) ≤ 1)%nat
  ∧ (images_evaluated st + length (sent (evaluate st msg).2)
     ≤ images_evaluated (evaluate st msg).1 ≤ S (images_evaluated st))%nat
  ∧ ((∀ items b,
        py_eval (gemini_raw_result gemini_reply st msg) = EvalValue (PList items) →
        PBytes b ∈ items → ∃ s, str_of_bytes b = inr s) →
     images_evaluated (evaluate st msg).1
     = (images_evaluated st + length (sent (evaluate st msg).2))%nat)
  ∧ api_calls_made (evaluate st msg).1
    = (api_calls_made st
       + if bool_decide (is_Some (gemini_model st))
            && path_exists (DetectionResult.image_path msg)
         then 1 else 0)%nat.
Proof.
  destruct (gemini_model st) as [model|] eqn:Hmodel.
  2:{ destruct (evaluate_resellability_guarded st msg (or_introl Hmodel)) as [-> ->].
      rewrite (bool_decide_eq_false_2 (is_Some None)) by (by intros [? ?]).
      simpl. split_and!; try lia; intros _; lia. }
  destruct (path_exists (DetectionResult.image_path msg)) eqn:Hpath.
  2:{ destruct (evaluate_resellability_guarded st msg (or_intror Hpath)) as [-> ->].
      rewrite andb_false_r. simpl. split_and!; try lia; intros _; lia. }
  rewrite evaluate_resellability_run by (by rewrite ?Hmodel). cbv zeta.
  rewrite (bool_decide_eq_true_2 (is_Some (Some model))) by (by eexists).
  simpl andb. cbv iota.
  assert (Hst : ∀ st0 : EvaluatorState,
            images_evaluated
              (set_api_calls_made (S (api_calls_made st0)) st0) = images_evaluated st0
            ∧ api_calls_made
                (set_api_calls_made (S (api_calls_made st0)) st0) = S (api_calls_made st0))
    by done.
  assert (Hsession :
            images_evaluated
              (if bool_decide (current_session st ≠ DetectionResult.session_id msg)
               then set_current_session (DetectionResult.session_id msg) st else st)
            = images_evaluated st
            ∧ api_calls_made
                (if bool_decide (current_session st ≠ DetectionResult.session_id msg)
                 then set_current_session (DetectionResult.session_id msg) st else st)
              = api_calls_made st)
    by (by case_bool_decide).
  destruct Hsession as [Him Hcalls].
  destruct (parse_resellable_names py_eval _).1 as [names|] eqn:Hparse.
  2:{ cbn [fst snd]. rewrite (proj1 (parse_resellable_names_sent py_eval _)).
      simpl. rewrite Him, Hcalls. split_and!; try lia; intros _; lia. }
  destruct (normalize_names names) as [e|normalized] eqn:Hnorm.
  { cbn [fst snd]. rewrite sent_after_parse. simpl. rewrite Him, Hcalls.
    split_and!; try lia; intros _; lia. }
  destruct (names_as_str str_of_bytes names) as [e|resellable_items] eqn:Hitems;
    cbn [fst snd]; rewrite sent_after_parse; simpl; rewrite Him, Hcalls.
  - split_and!; try lia. intros Haccepts. exfalso.
    assert (Hnames : ∀ b, PBytes b ∈ names → ∃ s, str_of_bytes b = inr s).
    { intros b Hb. revert Hparse. unfold parse_resellable_names.
      destruct (py_eval _) as [e0|e0|[s0|b0|items|ty]] eqn:Heval; simpl;
        intros [= <-]; try (by apply elem_of_nil in Hb).
      by apply (Haccepts items b). }
    destruct (names_as_str_inr names normalized Hnorm Hnames) as [r Hr]. congruence.
  - split_and!; try lia; intros _; lia.
Qed.
End EvaluationMore.

(** The classifier answers [[1, 'laptop']]. *)
Example unusable_item_abandons_evaluation_witness :
  let py_eval := λ _ : string,
    AiEvaluatorAgent.EvalValue
      (AiEvaluatorAgent.PList [AiEvaluatorAgent.PObj "int"; AiEvaluatorAgent.PStr "laptop"]) in
  let run := AiEvaluatorAgent.evaluate_resellability
               Scenario.always_exists (Scenario.replies "[1, 'laptop']") py_eval
               Scenario.reads_ascii
               Scenario.evaluator_ready Scenario.laptop_and_bottle in
  sent run.2 = []
  ∧ AiEvaluatorAgent.images_evaluated run.1 = 0%nat
  ∧ AiEvaluatorAgent.api_calls_made run.1 = 1%nat.
Proof.
  intros py_eval run.
  destruct (unusable_item_abandons_evaluation
              Scenario.always_exists (Scenario.replies "[1, 'laptop']") py_eval
              Scenario.reads_ascii
              Scenario.evaluator_ready Scenario.laptop_and_bottle
              [AiEvaluatorAgent.PObj "int"; AiEvaluatorAgent.PStr "laptop"]
              (AiEvaluatorAgent.PObj "int"))
    as (Hsent & _ & Himages & Hcalls).
  - eexists. reflexivity.
  - reflexivity.
  - reflexivity.
  - apply list_elem_of_here.
  - split_and!; [exact Hsent | exact Himages | exact Hcalls].
Defined.

Example evaluation_result_is_consistent_witness :
  ∃ r,
    sent (AiEvaluatorAgent.evaluate_resellability
            Scenario.always_exists (Scenario.replies "['laptop']") Scenario.eval_sample
            Scenario.reads_ascii
            Scenario.evaluator_ready Scenario.laptop_and_bottle).2
    = [(AiEvaluatorAgent.IMAGE_PROCESSOR_ADDRESS, MEvaluationResult r)]
    ∧ EvaluationResult.filtered_detections r
        `sublist_of` DetectionResult.largest_instances Scenario.laptop_and_bottle.
Proof.
  assert (Hsent : ∃ r,
             sent (AiEvaluatorAgent.evaluate_resellability
                     Scenario.always_exists (Scenario.replies "['laptop']")
                     Scenario.eval_sample Scenario.reads_ascii
                     Scenario.evaluator_ready Scenario.laptop_and_bottle).2
             = [(AiEvaluatorAgent.IMAGE_PROCESSOR_ADDRESS, MEvaluationResult r)]).
  { eexists. vm_compute. reflexivity. }
  destruct Hsent as [r Hr]. exists r. split; [exact Hr|].
  destruct (evaluation_result_is_consistent
              Scenario.always_exists (Scenario.replies "['laptop']") Scenario.eval_sample
              Scenario.reads_ascii
              Scenario.evaluator_ready Scenario.laptop_and_bottle
              AiEvaluatorAgent.IMAGE_PROCESSOR_ADDRESS (MEvaluationResult r))
    as (_ & r' & Heq & _ & _ & _ & _ & Hsub & _).
  - apply (bool_decide_unpack _). vm_compute. reflexivity.
  - rewrite Hr. apply list_elem_of_here.
  - by injection Heq as ->.
Defined.

(** The counters agree when the classifier's list holds a bytes item
    the message model accepts: the result is sent and the image
    counted. *)
Example evaluator_counters_witness :
  let run := AiEvaluatorAgent.evaluate_resellability
               Scenario.always_exists (Scenario.replies "[b'laptop', 'bottle']")
               Scenario.eval_more Scenario.reads_ascii
               Scenario.evaluator_ready Scenario.laptop_and_bottle in
  AiEvaluatorAgent.images_evaluated run.1 = (0 + length (sent run.2))%nat
  ∧ length (sent run.2) = 1%nat.
Proof.
  intros run.
  destruct (evaluator_counters
              Scenario.always_exists (Scenario.replies "[b'laptop', 'bottle']")
              Scenario.eval_more Scenario.reads_ascii
              Scenario.evaluator_ready Scenario.laptop_and_bottle)
    as (_ & _ & Hcounts & _).
  split; [|vm_compute; reflexivity].
  apply Hcounts. intros items b Heval Hb.
  assert (Hitems : items = [AiEvaluatorAgent.PBytes "laptop"; AiEvaluatorAgent.PStr "bottle"]).
  { vm_compute in Heval. by injection Heval as <-. }
  subst items. rewrite !elem_of_cons in Hb.
  destruct Hb as [[= ->]|[[=]|Hb]]; [by eexists | by apply elem_of_nil in Hb].
Defined.

(** The counters part when the message model rejects a bytes item: the
    image is counted although no result is sent. *)
Example rejected_item_is_counted_unsent :
  let run := AiEvaluatorAgent.evaluate_resellability
               Scenario.always_exists (Scenario.replies "[b'\xff']")
               Scenario.eval_more Scenario.reads_ascii
               Scenario.evaluator_ready Scenario.laptop_and_bottle in
  sent run.2 = []
  ∧ AiEvaluatorAgent.images_evaluated run.1 = 1%nat
  ∧ AiEvaluatorAgent.images_evaluated run.1
    ≠ (AiEvaluatorAgent.images_evaluated Scenario.evaluator_ready
       + length (sent run.2))%nat.
Proof. split_and!; try (vm_compute; reflexivity). vm_compute. discriminate. Qed.

(** ** The crop stage *)

Section CropStage.
Import ImageProcessorAgent.
Variable int_max_str_digits : nat.
Variable path_exists : string → bool.
Variable pil_ok : string → list Z → string → bool.

Abbreviation crop := (crop_step int_max_str_digits pil_ok).

(** What one iteration of the cropping loop does to its variables. *)
Lemma crop_step_cases (msg : EvaluationResult.t) (acc : crop_loop)
      (item : string * string) :
  sent (loop_effects (crop msg acc item)) = sent (loop_effects acc)
  ∧ images_processed (loop_state (crop msg acc item))
    = images_processed (loop_state acc)
  ∧ total_crops_created (loop_state (crop msg acc item))
    = total_crops_created (loop_state acc)
  ∧ current_session (loop_state (crop msg acc item))
    = current_session (loop_state acc)
  ∧ (¬ crop_attempted int_max_str_digits item →
     session_crop_count (loop_state (crop msg acc item))
     = session_crop_count (loop_state acc)
     ∧ cropped_files (crop msg acc item) = cropped_files acc
     ∧ resellable_objects_processed (crop msg acc item)
       = resellable_objects_processed acc)
  ∧ (crop_attempted int_max_str_digits item →
     session_crop_count (loop_state (crop msg acc item))
     = S (session_crop_count (loop_state acc))
     ∧ ((cropped_files (crop msg acc item) = cropped_files acc
         ∧ resellable_objects_processed (crop msg acc item)
           = resellable_objects_processed acc)
        ∨ ∃ file,
            cropped_files (crop msg acc item) = cropped_files acc ++ [file]
            ∧ resellable_objects_processed (crop msg acc item)
              = resellable_objects_processed acc ++ [item.2])).
Proof.
  destruct item as [k c]. unfold crop_attempted, crop_step. simpl fst. simpl snd.
  case_bool_decide as Hzero.
  - simpl. split_and!; try done.
    unfold sent. rewrite omap_app. simpl. by rewrite app_nil_r.
  - destruct (crop_and_save_image _ _ _ _ _ _) as [output_path|]; simpl.
    + split_and!; try done. intros _. split; [done|]. right. eauto.
    + split_and!; try done.
      * unfold sent. rewrite omap_app. simpl. by rewrite app_nil_r.
      * intros _. split; [done|]. by left.
Qed.

(** What the cropping loop keeps and adds over the items [l]. *)
Lemma crop_fold (msg : EvaluationResult.t) (l : list (string * string)) : ∀ acc,
  let done := fold_left (crop msg) l acc in
  sent (loop_effects done) = sent (loop_effects acc)
  ∧ images_processed (loop_state done) = images_processed (loop_state acc)
  ∧ total_crops_created (loop_state done) = total_crops_created (loop_state acc)
  ∧ current_session (loop_state done) = current_session (loop_state acc)
  ∧ session_crop_count (loop_state done)
    = (session_crop_count (loop_state acc)
       + length (filter (crop_attempted int_max_str_digits) l))%nat
  ∧ ∃ new_files new_objects,
      cropped_files done = cropped_files acc ++ new_files
      ∧ resellable_objects_processed done
        = resellable_objects_processed acc ++ new_objects
      ∧ length new_files = length new_objects
      ∧ (length new_files ≤ length (filter (crop_attempted int_max_str_digits) l))%nat
      ∧ ∀ c, c ∈ new_objects → ∃ k, (k, c) ∈ l.
Proof.
  induction l as [|item l IH]; intros acc; cbv zeta; cbn [fold_left].
  - split_and!; try done; try (simpl; lia). exists [], []. rewrite !app_nil_r.
    split_and!; try done. intros c Hc. by apply elem_of_nil in Hc.
  - specialize (IH (crop msg acc item)). cbv zeta in IH.
    destruct IH as (Hsent & Him & Htot & Hsess & Hcount & files & objects
                    & Hfiles & Hobjects & Hlen & Hbound & Hfrom).
    destruct (crop_step_cases msg acc item) as (Hsent1 & Him1 & Htot1 & Hsess1 & Hskip & Htry).
    rewrite Hsent, Him, Htot, Hsess, Hcount, Hfiles, Hobjects.
    rewrite Hsent1, Him1, Htot1, Hsess1. rewrite filter_cons.
    assert (Hfrom' : ∀ c, c ∈ objects → ∃ k, (k, c) ∈ item :: l).
    { intros c Hc. destruct (Hfrom c Hc) as [k Hk]. exists k.
      by apply list_elem_of_further. }
    destruct (decide (crop_attempted int_max_str_digits item)) as [Hatt|Hatt].
    + destruct (Htry Hatt) as (-> & [[-> ->]|(file & -> & ->)]).
      * split_and!; try done; try (simpl; lia).
        exists files, objects. split_and!; try done. simpl. lia.
      * split_and!; try done; try (simpl; lia).
        exists (file :: files), (item.2 :: objects). rewrite <- !app_assoc.
        split_and!; try done; try (simpl; lia).
        intros c [->|Hc]%elem_of_cons; [|by apply Hfrom'].
        exists item.1. destruct item. apply list_elem_of_here.
    + destruct (Hskip Hatt) as (-> & -> & ->).
      split_and!; try done. exists files, objects. by split_and!.
Qed.

(** X11. Given an evaluation result with detections for an image that
    exists, the image processor sends the report coordinator exactly one
    processing result, whether or not the crops succeed. The result has
    as many cropped files as resellable objects, which is its object
    count and at most the number of detections whose key is not the
    all-zero box; every object comes from a filtered detection. The
    image is counted, the crops created are added to the total, and the
    session's crop count grows by the number of crops attempted. *)
Theorem processing_result_is_consistent
        (st : ProcessorState) (msg : EvaluationResult.t) :
  path_exists (EvaluationResult.image_path msg) = true →
  EvaluationResult.filtered_detections msg ≠ [] →
  let run := process_evaluated_objects int_max_str_digits path_exists pil_ok st msg in
  let attempted := length (filter (crop_attempted int_max_str_digits)
                                  (EvaluationResult.filtered_detections msg)) in
  ∃ r,
    sent run.2 = [(REPORT_COORDINATOR_ADDRESS, MProcessingResult r)]
    ∧ ProcessingResult.original_image_path r = EvaluationResult.image_path msg
    ∧ ProcessingResult.timestamp r = EvaluationResult.timestamp msg
    ∧ ProcessingResult.session_id r = EvaluationResult.session_id msg
    ∧ length (ProcessingResult.cropped_files r)
      = length (ProcessingResult.resellable_objects r)
    ∧ ProcessingResult.total_objects_processed r
      = length (ProcessingResult.resellable_objects r)
    ∧ (length (ProcessingResult.cropped_files r) ≤ attempted)%nat
    ∧ (∀ c, c ∈ ProcessingResult.resellable_objects r →
            ∃ k, (k, c) ∈ EvaluationResult.filtered_detections msg)
    ∧ images_processed run.1 = S (images_processed st)
    ∧ total_crops_created run.1
      = (total_crops_created st + length (ProcessingResult.cropped_files r))%nat
    ∧ session_crop_count run.1
      = ((if bool_decide (current_session st ≠ EvaluationResult.session_id msg)
          then 0 else session_crop_count st) + attempted)%nat.
Proof.
  intros Hpath Hne run attempted. subst run attempted.
  unfold process_evaluated_objects. rewrite Hpath. cbn [negb].
  destruct (EvaluationResult.filtered_detections msg) as [|item items] eqn:Hfd; [done|].
  set (st0 := if bool_decide (current_session st ≠ EvaluationResult.session_id msg)
              then start_session (EvaluationResult.session_id msg) st else st).
  destruct (crop_fold msg (item :: items) (mkCropLoop st0 [] [] 0 [] []))
    as (Hsent & Him & Htot & _ & Hcount & files & objects
        & Hfiles & Hobjects & Hlen & Hbound & Hfrom).
  set (done := fold_left (crop msg) (item :: items) (mkCropLoop st0 [] [] 0 [] [])) in *.
  cbn [loop_effects loop_state cropped_files resellable_objects_processed app]
    in Hsent, Him, Htot, Hcount, Hfiles, Hobjects.
  eexists. cbn [fst snd]. split.
  { unfold sent. rewrite omap_app. fold (sent (loop_effects done)).
    rewrite Hsent. reflexivity. }
  cbn [ProcessingResult.original_image_path ProcessingResult.timestamp
       ProcessingResult.session_id ProcessingResult.cropped_files
       ProcessingResult.resellable_objects ProcessingResult.total_objects_processed].
  rewrite Hfiles, Hobjects. unfold count_image. simpl.
  rewrite Him, Htot, Hcount.
  assert (Hst0 : images_processed st0 = images_processed st
                 ∧ total_crops_created st0 = total_crops_created st
                 ∧ session_crop_count st0
                   = if bool_decide (current_session st ≠ EvaluationResult.session_id msg)
                     then 0%nat else session_crop_count st).
  { unfold st0. by case_bool_decide. }
  destruct Hst0 as (-> & -> & ->).
  split_and!; try done.
Qed.
End CropStage.

(** The crop of the only detection fails. *)
Example processing_result_is_consistent_witness :
  let msg := EvaluationResult.mk
               "captures/frame_1.jpg" 1 "session_1" ["laptop"]%string
               ["laptop"]%string "high" "['laptop']"
               [("(0, 0, 100, 100)", "laptop")]%string in
  let run := ImageProcessorAgent.process_evaluated_objects
               4300 Scenario.always_exists (λ _ _ _, false)
               Scenario.processor_idle msg in
  ∃ r,
    sent run.2 = [(ImageProcessorAgent.REPORT_COORDINATOR_ADDRESS, MProcessingResult r)]
    ∧ ProcessingResult.total_objects_processed r = 0%nat
    ∧ ImageProcessorAgent.images_processed run.1 = 1%nat
    ∧ ImageProcessorAgent.session_crop_count run.1 = 1%nat.
Proof.
  intros msg run.
  destruct (processing_result_is_consistent
              4300 Scenario.always_exists (λ _ _ _, false) Scenario.processor_idle msg)
    as (r & Hsent & _ & _ & _ & Hlen & Htotal & Hbound & _ & Him & _ & Hcount).
  - reflexivity.
  - done.
  - exists r. split; [exact Hsent|].
    assert (Hr : sent run.2 = [(ImageProcessorAgent.REPORT_COORDINATOR_ADDRESS,
                                MProcessingResult
                                  (ProcessingResult.mk "captures/frame_1.jpg" 1 "session_1"
                                                       [] [] [] 0))]).
    { vm_compute. reflexivity. }
    assert (Heq : [(ImageProcessorAgent.REPORT_COORDINATOR_ADDRESS, MProcessingResult r)]
                  = [(ImageProcessorAgent.REPORT_COORDINATOR_ADDRESS,
                      MProcessingResult
                        (ProcessingResult.mk "captures/frame_1.jpg" 1 "session_1"
                                             [] [] [] 0))]).
    { etrans; [symmetry; exact Hsent | exact Hr]. }
    injection Heq as ->.
    split_and!; [reflexivity | exact Him | ].
    etrans; [exact Hcount|]. vm_compute. reflexivity.
Defined.

(** ** The report coordinator's summary *)

Section ReportSummary.
Import ReportCoordinatorAgent ReportRun.

Lemma filter_none {A : Type} (P : A → Prop) `{!∀ x, Decision (P x)} (l : list A) :
  (∀ x, x ∈ l → ¬ P x) → filter P l = [].
Proof.
  induction l as [|x l IH]; intros Hnone; [done|].
  rewrite filter_cons_False by (apply Hnone, list_elem_of_here).
  apply IH. intros y Hy. by apply Hnone, list_elem_of_further.
Qed.

Lemma add_lowered_union (l : list string) : ∀ seen : gset string,
  add_lowered l seen = list_to_set (PyStr.lower <$> l) ∪ seen.
Proof.
  unfold add_lowered.
  induction l as [|x l IH]; intros seen; cbn [fold_left].
  - csimpl. by rewrite (left_id_L ∅ (∪)).
  - rewrite IH. rewrite fmap_cons. cbn [list_to_set].
    rewrite (comm_L (∪) {[PyStr.lower x]} (list_to_set (PyStr.lower <$> l))).
    by rewrite (assoc_L (∪)).
Qed.

Lemma step_summary_agrees (st : CoordinatorState) (ev : event) :
  summary_agrees st → summary_agrees (step st ev).
Proof.
  intros Hst. pose proof Hst as (Hall & Hseen & Hsummary).
  destruct ev as [now|t_id t_start msg|msg].
  - done.
  - unfold summary_agrees. cbn. rewrite lookup_insert_eq.
    split_and!; try done. intros r Hr. by apply elem_of_nil in Hr.
  - unfold step, coordinate_processing_result.
    case_bool_decide as Hcur; [done|].
    assert (Heq : ProcessingResult.session_id msg = current_session st).
    { destruct (decide (current_session st = ProcessingResult.session_id msg)); [done|].
      by destruct Hcur. }
    rewrite <- Heq in Hsummary.
    destruct (sessions st !! ProcessingResult.session_id msg) as [session_data|] eqn:Hs;
      [|exact Hst].
    destruct Hsummary as (Him & Htotal & Hfiles & Hunique).
    unfold summary_agrees. cbn [fst processing_results current_session sessions
                                 global_seen_objects].
    rewrite <- Heq, lookup_insert_eq.
    cbn [images_processed total_objects_found cropped_files unique_objects].
    rewrite !fmap_app, !concat_app, !fmap_app, length_app, sum_list_with_app.
    cbn [fmap list_fmap concat length sum_list_with]. rewrite !app_nil_r.
    rewrite add_lowered_union, add_lowered_union, list_to_set_app_L.
    rewrite Him, Htotal, Hfiles, Hunique, Hseen.
    split_and!; try done; try (unfold id; lia); try apply (comm_L (∪)).
    intros r [Hr| ->%list_elem_of_singleton]%elem_of_app; [|done].
    rewrite Heq. by apply Hall.
Qed.

Lemma run_summary_agrees (events : list event) : ∀ st,
  summary_agrees st → summary_agrees (fold_left step events st).
Proof.
  induction events as [|ev events IH]; intros st Hst; [done|].
  apply IH. by apply step_summary_agrees.
Qed.

Lemma run_total_sessions (events : list event) : ∀ st,
  total_sessions (fold_left step events st)
  = (total_sessions st + length (filter (λ ev, is_start ev = true) events))%nat.
Proof.
  induction events as [|ev events IH]; intros st; cbn [fold_left].
  - simpl. lia.
  - rewrite IH, filter_cons. destruct ev as [now|t_id t_start msg|msg]; simpl.
    + done.
    + lia.
    + unfold coordinate_processing_result. case_bool_decide; [done|].
      by destruct (sessions st !! ProcessingResult.session_id msg).
Qed.

(** X12. Whatever start messages and processing results the coordinator
    has received since it was created, the summary of its current
    session agrees with the results it stores: the results are all of
    the current session, the summary counts them, totals their object
    counts, concatenates their cropped files, and its object types are
    the lower-cased object names of the results. The number of sessions
    counts the start messages, and the results reported for any session
    other than the current one are none. *)
Theorem summary_agrees_with_results (events : list event) :
  summary_agrees (run events)
  ∧ total_sessions (run events) = length (filter (λ ev, is_start ev = true) events)
  ∧ ∀ session_id, session_id ≠ current_session (run events) →
                  session_results (run events) session_id = [].
Proof.
  assert (Hrun : summary_agrees (run events)).
  { apply run_summary_agrees. unfold summary_agrees, init. cbn.
    split_and!; try done. intros r Hr. by apply elem_of_nil in Hr. }
  split_and!.
  - exact Hrun.
  - unfold run. by rewrite run_total_sessions.
  - intros session_id Hne. apply filter_none. intros r Hr Heq.
    destruct Hrun as (Hall & _). apply Hne. rewrite <- Heq. by apply Hall.
Qed.
End ReportSummary.


(** ** The pipeline coordinator's bookkeeping *)

Section PipelineAccounting.
Import PipelineCoordinatorAgent PipelineRun.

(** A result for a known session that is not finalized: the handler
    records it, and finalizes the session if the result calls for it. *)
Lemma on_stage_result_open now st sender r session :
  active_sessions st !! stage_session_id r = Some session →
  completed session = false →
  ∃ effects,
    sent effects = []
    ∧ on_stage_result now st sender r
      = if finalizes r then
          (mkPipelineState
             (<[stage_session_id r := set_completed (record_stage r session)]>
                (<[stage_session_id r := record_stage r session]> (active_sessions st)))
             (if final_success r then S (completed_sessions st) else completed_sessions st)
             (if final_success r then failed_sessions st else S (failed_sessions st)),
           effects,
           Some (composed now r (record_stage r session)))
        else (store (stage_session_id r) (record_stage r session) st, effects, None).
Proof.
  intros Hs Hc. destruct r as [msg|msg|msg]; simpl in *;
    unfold handle_image_recognition_result, handle_price_research_result,
      handle_listing_creation_result, finalize_pipeline_session,
      composed, final_reason, final_success; rewrite Hs; simpl;
    rewrite ?Hc.
  - destruct (ImageRecognitionResult.success msg); simpl;
      [destruct (ImageRecognitionAgent.truthy _); simpl|];
      eexists; (split; [|reflexivity]); reflexivity.
  - destruct (PriceResearchResult.success msg); simpl;
      eexists; (split; [|reflexivity]); reflexivity.
  - destruct (ListingCreationResult.success msg); simpl;
      eexists; (split; [|reflexivity]); reflexivity.
Qed.

(** X13. A stage handler never sends a message, so the result it
    composes reaches nobody. It composes one exactly when the session is
    known, not yet finalized, and the stage result is a failure, a
    recognition without a product name, or a listing result; the
    composed result is a success only for a successful listing. Then the
    session is marked finalized and the matching counter grows by one;
    otherwise both counters stay. Other sessions are never touched. *)
Theorem stage_result_accounting now st sender r :
  let out := on_stage_result now st sender r in
  sent out.1.2 = []
  ∧ (is_Some out.2 ↔
     ∃ session, active_sessions st !! stage_session_id r = Some session
                ∧ completed session = false ∧ finalizes r = true)
  ∧ (∀ other, other ≠ stage_session_id r →
              active_sessions out.1.1 !! other = active_sessions st !! other)
  ∧ match out.2 with
    | Some result =>
        CompletePipelineResult.success result = final_success r
        ∧ (∃ session, active_sessions out.1.1 !! stage_session_id r = Some session
                      ∧ completed session = true)
        ∧ completed_sessions out.1.1
          = (completed_sessions st
             + if CompletePipelineResult.success result then 1 else 0)%nat
        ∧ failed_sessions out.1.1
          = (failed_sessions st
             + if CompletePipelineResult.success result then 0 else 1)%nat
    | None =>
        completed_sessions out.1.1 = completed_sessions st
        ∧ failed_sessions out.1.1 = failed_sessions st
    end.
Proof.
  intros out. subst out.
  destruct (active_sessions st !! stage_session_id r) as [session|] eqn:Hs.
  - destruct (completed session) eqn:Hc.
    + destruct (on_stage_result_completed now st sender r session Hs Hc)
        as (effects & -> & Hsent).
      unfold store. cbn [fst snd active_sessions completed_sessions failed_sessions].
      split_and!; try done.
      * split; [by intros [? ?]|]. intros (s & Heq & Hc' & _). congruence.
      * intros other Hother. by rewrite lookup_insert_ne.
    + destruct (on_stage_result_open now st sender r session Hs Hc)
        as (effects & Hsent & ->).
      destruct (finalizes r) eqn:Hfin;
        unfold store; cbn [fst snd active_sessions completed_sessions failed_sessions].
      * split_and!; try done.
        -- split; [intros _; by exists session | by eexists].
        -- intros other Hother. by rewrite !lookup_insert_ne.
        -- rewrite lookup_insert_eq. by eexists.
        -- cbn [composed CompletePipelineResult.success].
           destruct (final_success r); lia.
        -- cbn [composed CompletePipelineResult.success].
           destruct (final_success r); lia.
      * split_and!; try done.
        -- split; [by intros [? ?]|]. intros (s & _ & _ & ?). congruence.
        -- intros other Hother. by rewrite lookup_insert_ne.
  - destruct (on_stage_result_unknown now st sender r Hs) as [text ->].
    cbn [fst snd]. split_and!; try done.
    split; [by intros [? ?]|]. intros (s & ? & _). congruence.
Qed.
End PipelineAccounting.

(** ** Repeating the sweep *)

Section SweepAgain.
Import PipelineCoordinatorAgent PipelineRun.

(** A session that survives the sweep at [now] is neither overdue nor
    stalled at [now], and was there before. *)
Lemma cleanup_survivor now st session_id session :
  active_sessions (cleanup_old_sessions now st).1 !! session_id = Some session →
  active_sessions st !! session_id = Some session
  ∧ overdueb now session = false ∧ stalledb now session = false.
Proof.
  rewrite cleanup_lookup.
  destruct (active_sessions st !! session_id) as [s|]; [|done].
  destruct (overdueb now s || stalledb now s) eqn:Hb; [done|].
  intros [= ->]. by apply orb_false_elim in Hb as [-> ->].
Qed.

(** X14. The sweep is idempotent: a second sweep at the same time
    removes nothing, counts nothing and logs nothing. *)
Theorem sweep_is_idempotent now st :
  cleanup_old_sessions now (cleanup_old_sessions now st).1
  = ((cleanup_old_sessions now st).1, []).
Proof.
  set (st' := (cleanup_old_sessions now st).1).
  assert (Hkept : ∀ item, item ∈ map_to_list (active_sessions st') →
                          overdueb now item.2 = false ∧ stalledb now item.2 = false).
  { intros [sid session] Hin. apply elem_of_map_to_list in Hin.
    by apply cleanup_survivor in Hin as (_ & ? & ?). }
  clearbody st'. unfold cleanup_old_sessions. rewrite cleanup_fold.
  rewrite !filter_none.
  - destruct st' as [sessions completed failed]. simpl. by rewrite Nat.add_0_r.
  - intros item Hin Hst. destruct (Hkept item Hin) as [_ Hs]. congruence.
  - intros item Hin Hb. destruct (Hkept item Hin) as [Ho Hs].
    rewrite Ho, Hs in Hb. done.
Qed.
End SweepAgain.

(** ** What the coordinator's store holds *)

Section StoredSessions.
Import PipelineCoordinatorAgent PipelineRun.

Lemma request_lookup now t_id uuid_hex send_raises st sender msg session_id :
  active_sessions (handle_complete_pipeline_request now t_id uuid_hex send_raises
                                                    st sender msg).1 !! session_id
  = if decide (session_id = CompletePipelineRequest.session_id msg) then
      match send_raises with
      | None => Some (append_step "image_recognition_initiated" (new_session now msg))
      | Some _ => None
      end
    else active_sessions st !! session_id.
Proof.
  unfold handle_complete_pipeline_request, store.
  destruct send_raises as [e|]; cbn [fst active_sessions];
    destruct (decide (session_id = CompletePipelineRequest.session_id msg)) as [->|Hne].
  - by rewrite lookup_delete_eq.
  - by rewrite lookup_delete_ne, lookup_insert_ne.
  - by rewrite lookup_insert_eq.
  - by rewrite !lookup_insert_ne.
Qed.

Lemma stage_other now st sender r other :
  other ≠ stage_session_id r →
  active_sessions (on_stage_result now st sender r).1.1 !! other
  = active_sessions st !! other.
Proof.
  intros Hother.
  destruct (active_sessions st !! stage_session_id r) as [session|] eqn:Hs.
  - destruct (completed session) eqn:Hc.
    + destruct (on_stage_result_completed now st sender r session Hs Hc)
        as (effects & -> & _).
      unfold store. cbn [fst active_sessions]. by rewrite lookup_insert_ne.
    + destruct (on_stage_result_open now st sender r session Hs Hc)
        as (effects & _ & ->).
      destruct (finalizes r); unfold store; cbn [fst active_sessions];
        by rewrite !lookup_insert_ne.
  - by destruct (on_stage_result_unknown now st sender r Hs) as [text ->].
Qed.

(** A composed result comes from a known session that was not finalized. *)
Lemma stage_composed now st sender r result :
  (on_stage_result now st sender r).2 = Some result →
  ∃ session, active_sessions st !! stage_session_id r = Some session
             ∧ result = composed now r (record_stage r session).
Proof.
  destruct (active_sessions st !! stage_session_id r) as [session|] eqn:Hs.
  - destruct (completed session) eqn:Hc.
    + by destruct (on_stage_result_completed now st sender r session Hs Hc)
        as (effects & -> & _).
    + destruct (on_stage_result_open now st sender r session Hs Hc)
        as (effects & _ & ->).
      destruct (finalizes r); [|done]. intros [= <-]. by exists session.
  - by destruct (on_stage_result_unknown now st sender r Hs) as [text ->].
Qed.

(** A session in the store after a stage result was there before, or is
    the one the result was recorded in. *)
Lemma stage_lookup now st sender r session_id session' :
  active_sessions (on_stage_result now st sender r).1.1 !! session_id = Some session' →
  active_sessions st !! session_id = Some session'
  ∨ session_id = stage_session_id r
    ∧ ∃ session, active_sessions st !! stage_session_id r = Some session
                 ∧ (session' = record_stage r session
                    ∨ session' = set_completed (record_stage r session)).
Proof.
  destruct (active_sessions st !! stage_session_id r) as [session|] eqn:Hs.
  - destruct (decide (session_id = stage_session_id r)) as [->|Hne].
    + intros Hlookup. right. split; [done|]. exists session. split; [done|].
      revert Hlookup. destruct (completed session) eqn:Hc.
      * destruct (on_stage_result_completed now st sender r session Hs Hc)
          as (effects & -> & _).
        unfold store. cbn [fst active_sessions]. rewrite lookup_insert_eq.
        intros [= <-]. by left.
      * destruct (on_stage_result_open now st sender r session Hs Hc)
          as (effects & _ & ->).
        destruct (finalizes r); unfold store; cbn [fst active_sessions];
          rewrite lookup_insert_eq; intros [= <-]; [by right | by left].
    + rewrite (stage_other now st sender r session_id Hne). by left.
  - destruct (on_stage_result_unknown now st sender r Hs) as [text ->]. by left.
Qed.

Lemma head_snoc {A : Type} (l : list A) (x y : A) :
  head l = Some x → head (l ++ [y]) = Some x.
Proof. by destruct l. Qed.

Lemma well_kept_record_stage r session :
  well_kept (stage_session_id r) session →
  well_kept (stage_session_id r) (record_stage r session)
  ∧ well_kept (stage_session_id r) (set_completed (record_stage r session)).
Proof.
  intros (Hid & Herr & Hhead & Hir & Hpr & Hlc).
  destruct r as [msg|msg|msg]; unfold well_kept; simpl in *;
    split; split_and!; try done; try (by apply head_snoc); by intros ? [= <-].
Qed.

Lemma step_well_kept st ev :
  map_Forall well_kept (active_sessions st) →
  map_Forall well_kept (active_sessions (step st ev)).
Proof.
  intros Hst session_id session.
  destruct ev as [now t_id uuid_hex send_raises sender msg|now sender r|now]; cbn [step].
  - rewrite request_lookup.
    destruct (decide (session_id = CompletePipelineRequest.session_id msg)) as [->|Hne];
      [|by apply Hst].
    destruct send_raises; [done|]. intros [= <-]. by unfold well_kept.
  - intros [Hold|(-> & s & Hs & [->| ->])]%stage_lookup.
    + by apply Hst.
    + by apply well_kept_record_stage, (Hst _ _ Hs).
    + by apply well_kept_record_stage, (Hst _ _ Hs).
  - intros (Hold & _)%cleanup_survivor. by apply Hst.
Qed.

Lemma run_well_kept (events : list event) : ∀ st,
  map_Forall well_kept (active_sessions st) →
  map_Forall well_kept (active_sessions (fold_left step events st)).
Proof.
  induction events as [|ev events IH]; intros st Hst; [done|].
  apply IH. by apply step_well_kept.
Qed.

(** X15. Whatever requests, stage results and sweeps the coordinator
    has handled since it was created, every session in its store is the
    one of a request with the id it is stored under, starts with the
    initiation step, has its error message still unset, and holds only
    stage outputs that arrived for that id. Hence a result composed by a
    stage handler carries the session id of the stage result that
    triggered it. *)
Theorem stored_sessions_are_well_kept (events : list event) :
  map_Forall well_kept (active_sessions (run events))
  ∧ ∀ now sender r result,
      (on_stage_result now (run events) sender r).2 = Some result →
      CompletePipelineResult.session_id result = stage_session_id r.
Proof.
  assert (Hrun : map_Forall well_kept (active_sessions (run events))).
  { apply run_well_kept. apply map_Forall_empty. }
  split; [exact Hrun|].
  intros now sender r result Hresult.
  apply stage_composed in Hresult as (session & Hs & ->).
  cbn [composed CompletePipelineResult.session_id].
  destruct (Hrun _ _ Hs) as (Hid & _). by destruct r.
Qed.
End StoredSessions.

(** ** A pipeline that succeeds *)

Section SuccessfulPipeline.
Import PipelineCoordinatorAgent PipelineRun.

(** X16. A request whose first message is sent, followed by a
    successful recognition that names a product, a successful price
    research and a successful listing creation, all for the request's
    session id, completes the pipeline: the first two results compose
    nothing, the third composes a successful result with the four steps
    in order, the three stage outputs as received, no error message and
    the time elapsed since the request; the session is marked finalized
    and only the counter of completed sessions grows. *)
Theorem successful_pipeline_completes
        now0 t_id uuid_hex st sender request now1 sender1 ir now2 sender2 pr
        now3 sender3 lc :
  let session_id := CompletePipelineRequest.session_id request in
  ImageRecognitionResult.session_id ir = session_id →
  ImageRecognitionResult.success ir = true →
  ImageRecognitionAgent.truthy (ImageRecognitionResult.product_name ir) = true →
  PriceResearchResult.session_id pr = session_id →
  PriceResearchResult.success pr = true →
  ListingCreationResult.session_id lc = session_id →
  ListingCreationResult.success lc = true →
  let st1 := (handle_complete_pipeline_request now0 t_id uuid_hex None
                                               st sender request).1 in
  let o2 := on_stage_result now1 st1 sender1 (ImageRecognition ir) in
  let o3 := on_stage_result now2 o2.1.1 sender2 (PriceResearch pr) in
  let o4 := on_stage_result now3 o3.1.1 sender3 (ListingCreation lc) in
  o2.2 = None ∧ o3.2 = None
  ∧ o4.2 = Some (CompletePipelineResult.mk
                   session_id true
                   ["image_recognition_initiated"; "image_recognition_completed";
                    "price_research_completed"; "listing_creation_completed"]%string
                   (Some ir) (Some pr) (Some lc) None
                   (Some (PyStr.int_of_float ((now3 - now0) * 1000))))
  ∧ completed_sessions o4.1.1 = S (completed_sessions st)
  ∧ failed_sessions o4.1.1 = failed_sessions st
  ∧ ∃ session, active_sessions o4.1.1 !! session_id = Some session
               ∧ completed session = true.
Proof.
  intros session_id Hir Hir_ok Hname Hpr Hpr_ok Hlc Hlc_ok st1 o2 o3 o4.
  set (s1 := append_step "image_recognition_initiated" (new_session now0 request)).
  assert (H1 : active_sessions st1 !! session_id = Some s1
               ∧ completed_sessions st1 = completed_sessions st
               ∧ failed_sessions st1 = failed_sessions st).
  { unfold st1. rewrite request_lookup, decide_True by done. done. }
  destruct H1 as (H1 & Hc1 & Hf1).
  destruct (on_stage_result_open now1 st1 sender1 (ImageRecognition ir) s1)
    as (e2 & _ & Ho2); [by cbn; rewrite Hir | done |].
  cbn [finalizes] in Ho2. rewrite Hir_ok, Hname in Ho2. cbn [negb orb] in Ho2.
  fold o2 in Ho2.
  set (s2 := record_stage (ImageRecognition ir) s1) in *.
  destruct (on_stage_result_open now2 o2.1.1 sender2 (PriceResearch pr) s2)
    as (e3 & _ & Ho3).
  { rewrite Ho2. unfold store. cbn. rewrite Hir, Hpr. by rewrite lookup_insert_eq. }
  { done. }
  cbn [finalizes] in Ho3. rewrite Hpr_ok in Ho3. cbn [negb] in Ho3.
  fold o3 in Ho3.
  set (s3 := record_stage (PriceResearch pr) s2) in *.
  destruct (on_stage_result_open now3 o3.1.1 sender3 (ListingCreation lc) s3)
    as (e4 & _ & Ho4).
  { rewrite Ho3. unfold store. cbn. rewrite Hpr, Hlc. by rewrite lookup_insert_eq. }
  { done. }
  cbn [finalizes final_success] in Ho4. rewrite Hlc_ok in Ho4.
  fold o4 in Ho4.
  rewrite Ho2, Ho3, Ho4. cbn [fst snd completed_sessions failed_sessions active_sessions].
  rewrite Ho3, Ho2. unfold store.
  cbn [fst snd completed_sessions failed_sessions active_sessions stage_session_id].
  rewrite Hc1, Hf1, Hlc, lookup_insert_eq.
  split_and!; try done.
  - f_equal. unfold composed. cbn. unfold final_reason. by rewrite Hlc_ok.
  - by eexists.
Qed.
End SuccessfulPipeline.

(** ** The recognition agent's reply *)

Section RecognitionReply.
Import ImageRecognitionAgent.

Variables (current_time : Q) (stale_check retry_check : bool) (api : api_outcome).

Abbreviation recognize := (process_image_recognition current_time stale_check retry_check api).

Lemma call_api_reply (st : ImageRecognitionState) (sender : string)
      (msg : ImageRecognitionRequest.t) :
  ∃ reply,
    sent (call_api api st sender msg).2
    = (sender, MImageRecognitionResult reply) :: follow_up msg reply
    ∧ ImageRecognitionResult.session_id reply = ImageRecognitionRequest.session_id msg
    ∧ ImageRecognitionResult.request_id reply = ImageRecognitionRequest.request_id msg
    ∧ (if ImageRecognitionResult.success reply
       then ImageRecognitionResult.error_message reply = None
       else is_Some (ImageRecognitionResult.error_message reply)
            ∧ ImageRecognitionResult.product_name reply = None)
    ∧ requests_processed (call_api api st sender msg).1
      = (requests_processed st
         + if ImageRecognitionResult.success reply then 1 else 0)%nat.
Proof.
  unfold call_api, follow_up. destruct api as [data|message|status_code| |e].
  - exists (ImageRecognitionResult.mk
              (ImageRecognitionRequest.session_id msg)
              (ImageRecognitionRequest.request_id msg)
              true (product_name data) (source_url data) (host data)
              (pricing data) (rating data) None).
    cbn. split_and!; try done; [|lia].
    destruct (product_name data) as [name|]; [|done].
    cbn. by destruct (bool_decide (name = EmptyString)).
  - eexists (error_result msg _). cbn. split_and!; try done; try lia; by eauto.
  - eexists (error_result msg _). cbn. split_and!; try done; try lia; by eauto.
  - eexists (error_result msg _). cbn. split_and!; try done; try lia; by eauto.
  - eexists (error_result msg _). cbn. split_and!; try done; try lia; by eauto.
Qed.

Lemma recognition_reply (st : ImageRecognitionState) (sender : string)
      (msg : ImageRecognitionRequest.t) :
  ∃ reply,
    sent (recognize st sender msg).2
    = (sender, MImageRecognitionResult reply) :: follow_up msg reply
    ∧ ImageRecognitionResult.session_id reply = ImageRecognitionRequest.session_id msg
    ∧ ImageRecognitionResult.request_id reply = ImageRecognitionRequest.request_id msg
    ∧ (if ImageRecognitionResult.success reply
       then ImageRecognitionResult.error_message reply = None
       else is_Some (ImageRecognitionResult.error_message reply)
            ∧ ImageRecognitionResult.product_name reply = None)
    ∧ requests_processed (recognize st sender msg).1
      = (requests_processed st
         + if ImageRecognitionResult.success reply then 1 else 0)%nat.
Proof.
  unfold process_image_recognition.
  set (st1 := if PyStr.float_gt _ _ then _ else st).
  assert (Hst1 : requests_processed st1 = requests_processed st).
  { unfold st1. by destruct (PyStr.float_gt _ _). }
  destruct (api_healthy st1).
  - cbn [negb]. rewrite <- Hst1. apply call_api_reply.
  - cbn [negb api_healthy]. destruct retry_check; cbn [negb].
    + set (st2 := mkImageRecognitionState true _ _).
      destruct (call_api_reply st2 sender msg) as (reply & Hsent & Hrest).
      exists reply. destruct (call_api api st2 sender msg) as [st3 effects].
      cbn [fst snd] in *. by rewrite <- Hst1.
    + eexists (error_result msg _). cbn. split_and!; try done; try lia; by eauto.
Qed.

(** X17. Every recognition request gets exactly one reply, sent to its
    sender first, with the request's session and request ids. A failed
    reply carries an error message and no product. The only other
    message is the price research request to the price scraper, sent
    exactly when the reply is a success naming a product, for that
    product and the same ids. [requests_processed] counts the successful
    replies. *)
Theorem recognition_request_gets_one_reply
        (st : ImageRecognitionState) (sender : string) (msg : ImageRecognitionRequest.t) :
  ∃ reply,
    sent (recognize st sender msg).2
    = (sender, MImageRecognitionResult reply) :: follow_up msg reply
    ∧ ImageRecognitionResult.session_id reply = ImageRecognitionRequest.session_id msg
    ∧ ImageRecognitionResult.request_id reply = ImageRecognitionRequest.request_id msg
    ∧ (if ImageRecognitionResult.success reply
       then ImageRecognitionResult.error_message reply = None
       else is_Some (ImageRecognitionResult.error_message reply)
            ∧ ImageRecognitionResult.product_name reply = None)
    ∧ requests_processed (recognize st sender msg).1
      = (requests_processed st
         + if ImageRecognitionResult.success reply then 1 else 0)%nat.
Proof. apply recognition_reply. Qed.
End RecognitionReply.

(** ** The recognition agent and the coordinator together *)

Section RecognitionAndCoordinator.
Import PipelineCoordinatorAgent PipelineRun.

Lemma follow_up_requested msg reply :
  (∃ dest p, (dest, MPriceResearchRequest p) ∈ follow_up msg reply)
  ↔ finalizes (ImageRecognition reply) = false.
Proof.
  unfold follow_up, finalizes.
  destruct (ImageRecognitionResult.success reply); cbn [negb orb andb].
  - destruct (ImageRecognitionResult.product_name reply) as [name|] eqn:Hname.
    + destruct (ImageRecognitionAgent.truthy (Some name)); cbn [negb].
      * split; [done|]. intros _. eexists _, _. apply list_elem_of_here.
      * split; [|done]. intros (dest & p & Hin). by apply elem_of_nil in Hin.
    + cbn. split; [|done]. intros (dest & p & Hin). by apply elem_of_nil in Hin.
  - split; [|done]. intros (dest & p & Hin).
    destruct (ImageRecognitionResult.product_name reply); by apply elem_of_nil in Hin.
Qed.

(** X18. When the coordinator handles the reply the recognition agent
    sent for a request of a session that is in its store and not
    finalized, it stores the reply in the session, and it leaves the
    session open, composing no result, exactly when the recognition
    agent has sent a price research request for it; otherwise it
    finalizes the session as failed. *)
Theorem coordinator_waits_iff_price_research_requested
        current_time stale_check retry_check api recognition_state sender msg
        now pipeline_state sender' session dest reply :
  let run := ImageRecognitionAgent.process_image_recognition
               current_time stale_check retry_check api recognition_state sender msg in
  active_sessions pipeline_state !! ImageRecognitionRequest.session_id msg = Some session →
  completed session = false →
  (dest, MImageRecognitionResult reply) ∈ sent run.2 →
  let out := handle_image_recognition_result now pipeline_state sender' reply in
  (out.2 = None ↔ price_research_requested run.2)
  ∧ (∃ stored,
       active_sessions out.1.1 !! ImageRecognitionRequest.session_id msg = Some stored
       ∧ image_recognition_result stored = Some reply
       ∧ completed stored = negb (bool_decide (out.2 = None)))
  ∧ failed_sessions out.1.1
    = (failed_sessions pipeline_state + if bool_decide (out.2 = None) then 0 else 1)%nat
  ∧ completed_sessions out.1.1 = completed_sessions pipeline_state.
Proof.
  intros run Hs Hc Hin out. subst run out.
  destruct (recognition_reply current_time stale_check retry_check api
                              recognition_state sender msg)
    as (reply' & Hsent & Hid & _).
  unfold price_research_requested. rewrite Hsent in Hin |- *.
  assert (reply = reply') as <-.
  { apply elem_of_cons in Hin as [[= ? ?]|Hin]; [done|].
    unfold follow_up in Hin.
    destruct (ImageRecognitionResult.product_name reply'); [|by apply elem_of_nil in Hin].
    destruct (_ && _); [|by apply elem_of_nil in Hin].
    by apply list_elem_of_singleton in Hin. }
  assert (Hreq : (∃ dest p, (dest, MPriceResearchRequest p)
                              ∈ (sender, MImageRecognitionResult reply) :: follow_up msg reply)
                 ↔ finalizes (ImageRecognition reply) = false).
  { rewrite <- follow_up_requested. split; intros (d & p & Hp); exists d, p.
    - by apply elem_of_cons in Hp as [?|?].
    - by apply list_elem_of_further. }
  rewrite Hreq. rewrite <- Hid in Hs |- *.
  destruct (on_stage_result_open now pipeline_state sender' (ImageRecognition reply)
                                 session Hs Hc) as (effects & _ & Heq).
  cbn [on_stage_result stage_session_id] in Heq. rewrite Heq.
  destruct (finalizes (ImageRecognition reply)); unfold store;
    cbn [fst snd active_sessions completed_sessions failed_sessions final_success];
    rewrite lookup_insert_eq.
  - rewrite bool_decide_eq_false_2 by done. split_and!; try done; [|lia].
    eexists. split_and!; try done.
  - rewrite bool_decide_eq_true_2 by done. split_and!; try done; try lia.
    eexists. split_and!; try done.
Qed.
End RecognitionAndCoordinator.

(** ** The further properties on concrete runs *)

(** The summary after [Sample.report_events] counts one session and one
    image; nothing is reported for the session of the second result. *)
Example summary_agrees_with_results_witness :
  ReportRun.summary_agrees (ReportRun.run Sample.report_events)
  ∧ ReportCoordinatorAgent.total_sessions (ReportRun.run Sample.report_events) = 1%nat
  ∧ ReportCoordinatorAgent.session_results (ReportRun.run Sample.report_events) "session_1" = [].
Proof.
  destruct (summary_agrees_with_results Sample.report_events) as (Hagree & Htotal & Hnone).
  split_and!.
  - exact Hagree.
  - rewrite Htotal. vm_compute. reflexivity.
  - apply Hnone. vm_compute. intros [=].
Defined.

(** The failed price research finalizes the waiting session as failed. *)
Example stage_result_accounting_witness :
  let out := PipelineCoordinatorAgent.on_stage_result
               103 Scenario.coordinator_waiting "price_scraper"
               (PipelineCoordinatorAgent.PriceResearch Scenario.research_failed) in
  sent out.1.2 = []
  ∧ is_Some out.2
  ∧ PipelineCoordinatorAgent.active_sessions out.1.1 !! "other"%string = None.
Proof.
  destruct (stage_result_accounting
              103 Scenario.coordinator_waiting "price_scraper"
              (PipelineCoordinatorAgent.PriceResearch Scenario.research_failed))
    as (Hsent & Hsome & Hother & _).
  split_and!.
  - exact Hsent.
  - apply Hsome. exists Scenario.waiting_session. split_and!; vm_compute; reflexivity.
  - etrans; [apply Hother; vm_compute; intros [=]|]. vm_compute. reflexivity.
Defined.

(** After [Sample.pipeline_events] the session "s1" is still stored,
    under the id of its request. *)
Example stored_sessions_are_well_kept_witness :
  ∃ session,
    PipelineCoordinatorAgent.active_sessions (PipelineRun.run Sample.pipeline_events)
      !! "s1"%string = Some session
    ∧ PipelineRun.well_kept "s1" session.
Proof.
  destruct (stored_sessions_are_well_kept Sample.pipeline_events) as (Hkept & _).
  assert (Hs : PipelineCoordinatorAgent.active_sessions
                 (PipelineRun.run Sample.pipeline_events) !! "s1"%string
               = Some (PipelineCoordinatorAgent.mkPipelineSession
                         Scenario.pipeline_request 100
                         ["image_recognition_initiated"; "image_recognition_completed"]%string
                         (Some Scenario.recognized) None None None false)).
  { vm_compute. reflexivity. }
  eexists. split; [exact Hs|]. exact (Hkept _ _ Hs).
Defined.

(** The three successful results complete the pipeline of
    [Scenario.pipeline_request]. *)
Example successful_pipeline_completes_witness :
  let st1 := (PipelineCoordinatorAgent.handle_complete_pipeline_request
                100 100 "0a1b2c3d4e5f" None Scenario.coordinator_empty "web_api"
                Scenario.pipeline_request).1 in
  let o2 := PipelineCoordinatorAgent.on_stage_result
              101 st1 "recognition"
              (PipelineCoordinatorAgent.ImageRecognition Scenario.recognized) in
  let o3 := PipelineCoordinatorAgent.on_stage_result
              102 o2.1.1 "price_scraper"
              (PipelineCoordinatorAgent.PriceResearch Sample.research_done) in
  let o4 := PipelineCoordinatorAgent.on_stage_result
              103 o3.1.1 "marketplace"
              (PipelineCoordinatorAgent.ListingCreation Sample.listing_done) in
  PipelineCoordinatorAgent.completed_sessions o4.1.1 = 1%nat
  ∧ PipelineCoordinatorAgent.failed_sessions o4.1.1 = 0%nat.
Proof.
  destruct (successful_pipeline_completes
              100 100 "0a1b2c3d4e5f" Scenario.coordinator_empty "web_api"
              Scenario.pipeline_request
              101 "recognition" Scenario.recognized
              102 "price_scraper" Sample.research_done
              103 "marketplace" Sample.listing_done)
    as (_ & _ & _ & Hcompleted & Hfailed & _); try reflexivity.
  split; [exact Hcompleted | exact Hfailed].
Defined.

(** The recognition agent names a product and asks for its prices; the
    coordinator keeps the session open. *)
Example coordinator_waits_iff_price_research_requested_witness :
  let run := ImageRecognitionAgent.process_image_recognition
               10 true true (ImageRecognitionAgent.ApiOk Sample.thinkpad)
               Sample.recognition_ready "coordinator" Scenario.recognition_request in
  price_research_requested run.2
  ∧ (PipelineCoordinatorAgent.handle_image_recognition_result
       101 Scenario.coordinator_started "recognition" Sample.thinkpad_reply).2 = None.
Proof.
  destruct (coordinator_waits_iff_price_research_requested
              10 true true (ImageRecognitionAgent.ApiOk Sample.thinkpad)
              Sample.recognition_ready "coordinator" Scenario.recognition_request
              101 Scenario.coordinator_started "recognition" Scenario.started_session
              "coordinator" Sample.thinkpad_reply)
    as (Hwaits & _).
  - vm_compute. reflexivity.
  - reflexivity.
  - apply list_elem_of_here.
  - assert (Hnone : (PipelineCoordinatorAgent.handle_image_recognition_result
                       101 Scenario.coordinator_started "recognition"
                       Sample.thinkpad_reply).2 = None).
    { vm_compute. reflexivity. }
    split; [by apply Hwaits | exact Hnone].
Defined.

(** ** The names of the cropped files *)

Section CropNames.
Import ImageProcessorAgent.
Variable int_max_str_digits : nat.
Variable path_exists : string → bool.
Variable pil_ok : string → list Z → string → bool.

Abbreviation crop' := (crop_step int_max_str_digits pil_ok).

Lemma of_int_inj (a b : Z) : PyStr.of_int a = PyStr.of_int b → a = b.
Proof.
  unfold PyStr.of_int. intros Heq. apply DecimalZ.to_int_inj.
  assert (Hnil : ∀ n, Z.to_int n ≠ Decimal.Pos Decimal.Nil
                      ∧ Z.to_int n ≠ Decimal.Neg Decimal.Nil).
  { intros [|p|p]; simpl; split; try done; intros [= Hp];
      by apply (DecimalPos.Unsigned.to_uint_nonnil p). }
  assert (Hsome : Some (Z.to_int a) = Some (Z.to_int b)); [|congruence].
  rewrite <- (NilZero.isi (Z.to_int a)) by apply Hnil.
  rewrite <- (NilZero.isi (Z.to_int b)) by apply Hnil.
  by rewrite Heq.
Qed.

Lemma numeral_char_not_slash (c : ascii) :
  numeral_char c = true → PyStr.ascii_eqb c "/" = false.
Proof. destruct c as [[|] [|] [|] [|] [|] [|] [|] [|]]; by vm_compute. Qed.

Lemma numeral_char_is_not_underscore (c : ascii) :
  numeral_char c = true → c ≠ "_"%char.
Proof. intros Hc ->. by vm_compute in Hc. Qed.

Lemma basename_scan_slash (l b : list ascii) : ∀ cur,
  PyStr.basename_scan cur (l ++ "/"%char :: b) = PyStr.basename_scan [] b.
Proof.
  induction l as [|c l IH]; intros cur; simpl; [done|].
  destruct (PyStr.ascii_eqb c "/"); apply IH.
Qed.

Lemma basename_scan_slash_free (b : list ascii) : ∀ cur,
  Forall (λ c, PyStr.ascii_eqb c "/" = false) b →
  PyStr.basename_scan cur b = rev cur ++ b.
Proof.
  induction b as [|c b IH]; intros cur Hb; simpl.
  - by rewrite app_nil_r.
  - apply Forall_cons in Hb as [-> Hb]. rewrite IH by done. simpl.
    by rewrite <- app_assoc.
Qed.

Lemma basename_join (dir name : string) :
  Forall (λ c, PyStr.ascii_eqb c "/" = false) (PyStr.chars name) →
  PyStr.basename (dir ++ "/" ++ name) = name.
Proof.
  intros Hname. unfold PyStr.basename. rewrite chars_append.
  change (PyStr.chars ("/" ++ name)) with ("/"%char :: PyStr.chars name).
  rewrite basename_scan_slash, basename_scan_slash_free by done.
  apply of_chars_chars.
Qed.

Lemma chars_crop_filename (capture_ts : Z) (crop_index : nat) (class_name : string) :
  PyStr.chars (crop_filename capture_ts crop_index class_name)
  = PyStr.chars (PyStr.of_int capture_ts)
    ++ "_"%char :: PyStr.chars (PyStr.of_int (Z.of_nat crop_index))
    ++ "_"%char :: List.map (λ c, if PyStr.ascii_eqb c " " then "_"%char else c)
                            (PyStr.chars class_name)
    ++ PyStr.chars ".jpg".
Proof.
  unfold crop_filename, PyStr.replace_char. rewrite chars_append.
  change (PyStr.chars ("_" ++ ?s)) with ("_"%char :: PyStr.chars s).
  f_equal. f_equal. rewrite chars_append.
  change (PyStr.chars ("_" ++ ?s)) with ("_"%char :: PyStr.chars s).
  f_equal. f_equal. by rewrite chars_append, chars_of_chars.
Qed.

Lemma crop_filename_slash_free capture_ts crop_index class_name :
  slash_free class_name →
  Forall (λ c, PyStr.ascii_eqb c "/" = false)
         (PyStr.chars (crop_filename capture_ts crop_index class_name)).
Proof.
  intros Hclass. rewrite chars_crop_filename.
  assert (Hnum : ∀ n, Forall (λ c, PyStr.ascii_eqb c "/" = false)
                             (PyStr.chars (PyStr.of_int n))).
  { intros n. eapply Forall_impl; [apply numeral_chars_of_int|].
    intros c. apply numeral_char_not_slash. }
  apply Forall_app. split; [apply Hnum|]. constructor; [done|].
  apply Forall_app. split; [apply Hnum|]. constructor; [done|].
  apply Forall_app. split; [|by repeat constructor].
  unfold slash_free in Hclass. induction Hclass as [|c l Hc Hl IH]; simpl; [done|].
  constructor; [|done]. by destruct (PyStr.ascii_eqb c " ").
Qed.

(** Two lists that agree after their first separator agree before it. *)
Lemma first_separator {A : Type} (sep : A) (l1 l2 r1 r2 : list A) :
  Forall (λ x, x ≠ sep) l1 → Forall (λ x, x ≠ sep) l2 →
  l1 ++ sep :: r1 = l2 ++ sep :: r2 → l1 = l2.
Proof.
  revert l2. induction l1 as [|x l1 IH]; intros l2 H1 H2 Heq.
  - destruct l2 as [|y l2]; [done|]. simpl in Heq. injection Heq as <- _.
    by apply Forall_cons in H2 as [? _].
  - destruct l2 as [|y l2]; simpl in Heq.
    + injection Heq as -> _. by apply Forall_cons in H1 as [? _].
    + injection Heq as -> Heq. f_equal.
      apply Forall_cons in H1 as [_ H1]. apply Forall_cons in H2 as [_ H2].
      by apply IH.
Qed.

Lemma crop_filename_index_inj capture_ts i j c c' :
  crop_filename capture_ts i c = crop_filename capture_ts j c' → i = j.
Proof.
  intros Heq. apply (f_equal PyStr.chars) in Heq.
  rewrite !chars_crop_filename in Heq.
  apply app_inv_head in Heq. injection Heq as Heq.
  apply first_separator in Heq.
  - apply (f_equal PyStr.of_chars) in Heq. rewrite !of_chars_chars in Heq.
    apply of_int_inj in Heq. lia.
  - eapply Forall_impl; [apply numeral_chars_of_int|].
    intros x. apply numeral_char_is_not_underscore.
  - eapply Forall_impl; [apply numeral_chars_of_int|].
    intros x. apply numeral_char_is_not_underscore.
Qed.

(** One iteration either adds no file, or the file named after the next
    crop index. *)
Lemma crop_step_names (msg : EvaluationResult.t) (acc : crop_loop)
      (item : string * string) :
  slash_free item.2 →
  (cropped_files (crop' msg acc item) = cropped_files acc
   ∧ (crop_index acc ≤ crop_index (crop' msg acc item) ≤ S (crop_index acc))%nat)
  ∨ (cropped_files (crop' msg acc item)
     = cropped_files acc
         ++ [crop_filename (EvaluationResult.timestamp msg) (S (crop_index acc)) item.2]
     ∧ crop_index (crop' msg acc item) = S (crop_index acc)).
Proof.
  destruct item as [k c]. intros Hc. unfold crop_step. cbn [snd] in Hc.
  case_bool_decide as Hzero; [left; simpl; split; [done|lia]|].
  destruct (crop_and_save_image _ _ _ _ _ _) as [output_path|] eqn:Hcrop; simpl.
  - right. split; [|done]. do 2 f_equal.
    unfold crop_and_save_image in Hcrop.
    destruct (parse_coordinates int_max_str_digits k) as [|? [|? [|? [|? [|]]]]]; try done.
    destruct (pil_ok _ _ _); [|done]. injection Hcrop as <-.
    apply (basename_join CROPPED_FOLDER
                         (crop_filename (EvaluationResult.timestamp msg)
                                        (S (crop_index acc)) c)).
    by apply crop_filename_slash_free.
  - left. split; [done | lia].
Qed.

Lemma crop_names_fold (msg : EvaluationResult.t) (l : list (string * string)) : ∀ acc,
  (∀ item, item ∈ l → slash_free item.2) →
  let done := fold_left (crop' msg) l acc in
  (crop_index acc ≤ crop_index done ≤ crop_index acc + length l)%nat
  ∧ ∃ new_files,
      cropped_files done = cropped_files acc ++ new_files
      ∧ NoDup new_files
      ∧ ∀ f, f ∈ new_files →
             ∃ i k c, (k, c) ∈ l
                      ∧ (crop_index acc < i ≤ crop_index done)%nat
                      ∧ f = crop_filename (EvaluationResult.timestamp msg) i c.
Proof.
  induction l as [|item l IH]; intros acc Hfree; cbv zeta; cbn [fold_left].
  - split; [simpl; lia|]. exists []. rewrite app_nil_r.
    split_and!; [done | constructor |]. intros f Hf. by apply elem_of_nil in Hf.
  - destruct (IH (crop' msg acc item)) as (Hidx & files & Hfiles & Hnodup & Hnames).
    { intros x Hx. by apply Hfree, list_elem_of_further. }
    assert (Hnames' : ∀ f, f ∈ files →
              ∃ i k c, (k, c) ∈ item :: l
                       ∧ (crop_index (crop' msg acc item) < i
                          ≤ crop_index (fold_left (crop' msg) l (crop' msg acc item)))%nat
                       ∧ f = crop_filename (EvaluationResult.timestamp msg) i c).
    { intros f Hf. destruct (Hnames f Hf) as (i & k & c & Hin & Hi & ->).
      exists i, k, c. split_and!; try done; try lia. by apply list_elem_of_further. }
    destruct (crop_step_names msg acc item) as [[Hsame Hi]|[Hadd Hi]].
    { apply Hfree, list_elem_of_here. }
    + rewrite Hfiles, Hsame. split; [simpl; lia|].
      exists files. split_and!; try done.
      intros f Hf. destruct (Hnames' f Hf) as (i & k & c & Hin & Hi' & ->).
      exists i, k, c. split_and!; try done; lia.
    + rewrite Hfiles, Hadd, <- app_assoc. split; [simpl; lia|].
      eexists. split; [reflexivity|]. split.
      * simpl. constructor; [|done]. intros Hin.
        destruct (Hnames' _ Hin) as (i & k & c & _ & Hi' & Heq).
        apply crop_filename_index_inj in Heq. lia.
      * intros f [->|Hf]%elem_of_cons.
        -- exists (S (crop_index acc)), item.1, item.2. split_and!; try lia.
           ++ destruct item. apply list_elem_of_here.
           ++ done.
        -- destruct (Hnames' f Hf) as (i & k & c & Hin & Hi' & ->).
           exists i, k, c. split_and!; try done; lia.
Qed.

(** X19. When no class label of the filtered detections contains a
    slash, the cropped files of a processing result are pairwise
    distinct, so no crop of the image is recorded twice; each is named
    [<timestamp>_<i>_<class>.jpg] for a class of the filtered detections,
    with spaces replaced by underscores, and a crop number [i] between 1
    and the number of filtered detections. *)
Theorem cropped_files_are_distinct
        (st : ProcessorState) (msg : EvaluationResult.t) dest (r : ProcessingResult.t) :
  (∀ k c, (k, c) ∈ EvaluationResult.filtered_detections msg → slash_free c) →
  (dest, MProcessingResult r)
    ∈ sent (process_evaluated_objects int_max_str_digits path_exists pil_ok st msg).2 →
  NoDup (ProcessingResult.cropped_files r)
  ∧ ∀ f, f ∈ ProcessingResult.cropped_files r →
         ∃ i k c, (k, c) ∈ EvaluationResult.filtered_detections msg
                  ∧ (1 ≤ i ≤ length (EvaluationResult.filtered_detections msg))%nat
                  ∧ f = crop_filename (EvaluationResult.timestamp msg) i c.
Proof.
  intros Hfree. unfold process_evaluated_objects.
  destruct (path_exists _); cbn [negb]; [|by intros ?%elem_of_nil].
  destruct (EvaluationResult.filtered_detections msg) as [|item items] eqn:Hfd;
    [by intros ?%elem_of_nil|].
  set (st0 := if bool_decide _ then _ else st).
  set (acc := mkCropLoop st0 [] [] 0 [] []).
  destruct (crop_fold int_max_str_digits pil_ok msg (item :: items) acc)
    as (Hsent & _).
  destruct (crop_names_fold msg (item :: items) acc)
    as (Hidx & files & Hfiles & Hnodup & Hnames).
  { intros [k c] Hin. by apply (Hfree k c). }
  set (done := fold_left (crop' msg) (item :: items) acc) in *.
  cbn [snd]. unfold sent at 1. rewrite omap_app. fold (sent (loop_effects done)).
  rewrite Hsent. cbn [acc loop_effects sent omap app].
  intros Hin. apply list_elem_of_singleton in Hin. injection Hin as _ ->.
  cbn [ProcessingResult.cropped_files]. rewrite Hfiles. cbn [cropped_files acc app].
  split; [done|]. intros f Hf.
  destruct (Hnames f Hf) as (i & k & c & Hin & Hi & ->).
  exists i, k, c. cbn [crop_index acc] in *. split_and!; try done; lia.
Qed.
End CropNames.

(** One crop of a laptop: the file is named after the timestamp, the
    crop number and the class. *)
Example cropped_files_are_distinct_witness :
  let msg := EvaluationResult.mk
               "captures/frame_1.jpg" 1 "session_1" ["laptop"]%string
               ["laptop"]%string "high" "['laptop']"
               [("(0, 0, 100, 100)", "laptop")]%string in
  ∃ r,
    sent (ImageProcessorAgent.process_evaluated_objects
            4300 Scenario.always_exists Scenario.pil_succeeds
            Scenario.processor_idle msg).2
    = [(ImageProcessorAgent.REPORT_COORDINATOR_ADDRESS, MProcessingResult r)]
    ∧ ProcessingResult.cropped_files r = ["1_1_laptop.jpg"]%string
    ∧ NoDup (ProcessingResult.cropped_files r).
Proof.
  intros msg. eexists. split; [vm_compute; reflexivity|]. split; [reflexivity|].
  eapply (cropped_files_are_distinct 4300 Scenario.always_exists Scenario.pil_succeeds
                                     Scenario.processor_idle msg).
  - intros k c [= _ ->]%list_elem_of_singleton. by repeat constructor.
  - vm_compute. apply list_elem_of_here.
Defined.

(** ** From the captured image to the report *)

Section VisionChain.
Variable int_max_str_digits : nat.
Variables exists_at_detection exists_at_evaluation exists_at_crop : string → bool.
Variable predict : string → DetectionAgent.predict_outcome.
Variable list_of_set : gset string → list string.
Variable gemini_reply : string → list string → option string.
Variable py_eval : string → AiEvaluatorAgent.eval_outcome.
Variable str_of_bytes : string → string + string.
Variable pil_ok : string → list Z → string → bool.

Abbreviation detect :=
  (DetectionAgent.process_captured_image int_max_str_digits exists_at_detection
                                         predict list_of_set).
Abbreviation evaluate' :=
  (AiEvaluatorAgent.evaluate_resellability exists_at_evaluation gemini_reply py_eval
                                           str_of_bytes).
Abbreviation process :=
  (ImageProcessorAgent.process_evaluated_objects int_max_str_digits exists_at_crop pil_ok).

(** What a processing result sent by the image processor holds. *)
Lemma processing_result_facts (st : ImageProcessorAgent.ProcessorState)
      (msg : EvaluationResult.t) dest m :
  (dest, m) ∈ sent (process st msg).2 →
  dest = ImageProcessorAgent.REPORT_COORDINATOR_ADDRESS
  ∧ ∃ r, m = MProcessingResult r
         ∧ ProcessingResult.original_image_path r = EvaluationResult.image_path msg
         ∧ ProcessingResult.timestamp r = EvaluationResult.timestamp msg
         ∧ ProcessingResult.session_id r = EvaluationResult.session_id msg
         ∧ ∀ c, c ∈ ProcessingResult.resellable_objects r →
                ∃ k, (k, c) ∈ EvaluationResult.filtered_detections msg.
Proof.
  unfold ImageProcessorAgent.process_evaluated_objects.
  destruct (exists_at_crop _); cbn [negb]; [|by intros ?%elem_of_nil].
  destruct (EvaluationResult.filtered_detections msg) as [|item items] eqn:Hfd;
    [by intros ?%elem_of_nil|].
  set (st0 := if bool_decide _ then _ else st).
  set (acc := ImageProcessorAgent.mkCropLoop st0 [] [] 0 [] []).
  destruct (crop_fold int_max_str_digits pil_ok msg (item :: items) acc)
    as (Hsent & _ & _ & _ & _ & files & objects & _ & Hobjects & _ & _ & Hfrom).
  set (done := fold_left _ (item :: items) acc) in *.
  cbn [snd]. unfold sent at 1. rewrite omap_app.
  fold (sent (ImageProcessorAgent.loop_effects done)).
  rewrite Hsent. cbn [acc ImageProcessorAgent.loop_effects sent omap app].
  intros Hin. apply list_elem_of_singleton in Hin. injection Hin as -> ->.
  split; [done|]. eexists. split; [reflexivity|].
  cbn [ProcessingResult.original_image_path ProcessingResult.timestamp
       ProcessingResult.session_id ProcessingResult.resellable_objects].
  split_and!; try done. rewrite Hobjects. exact Hfrom.
Qed.

(** X20. Along the chain from a captured image to the report: if the
    detection agent sends a result for the image, the evaluator sends a
    result for that, and the image processor sends a result for that,
    then the processing result goes to the report coordinator with the
    path, timestamp and session of the captured image, and each of its
    resellable objects is a class the detector found in the image, kept
    as a largest instance, and named by the classifier up to case. *)
Theorem reported_objects_were_detected
        st_d st_e st_p (captured : CapturedImage.t)
        dest_d (d : DetectionResult.t) dest_e (e : EvaluationResult.t)
        dest_p (r : ProcessingResult.t) :
  (dest_d, MDetectionResult d) ∈ sent (detect st_d captured).2 →
  (dest_e, MEvaluationResult e) ∈ sent (evaluate' st_e d).2 →
  (dest_p, MProcessingResult r) ∈ sent (process st_p e).2 →
  dest_p = ImageProcessorAgent.REPORT_COORDINATOR_ADDRESS
  ∧ ProcessingResult.original_image_path r = CapturedImage.file_path captured
  ∧ ProcessingResult.timestamp r = CapturedImage.timestamp captured
  ∧ ProcessingResult.session_id r = CapturedImage.session_id captured
  ∧ ∀ c, c ∈ ProcessingResult.resellable_objects r →
         (∃ k, (k, c) ∈ DetectionResult.largest_instances d
               ∧ (k, c) ∈ DetectionResult.detected_objects d)
         ∧ resellable (EvaluationResult.resellable_items e) c.
Proof.
  intros Hd He Hr.
  destruct (process_captured_image_cases int_max_str_digits exists_at_detection
                                         predict list_of_set st_d captured)
    as (_ & _ & _ & _ & [[Hnone _]|(results & _ & _ & Hsent & _)]).
  { rewrite Hnone in Hd. by apply elem_of_nil in Hd. }
  rewrite Hsent in Hd. apply list_elem_of_singleton in Hd. injection Hd as _ Hd.
  destruct (select_largest_instances_facts
              int_max_str_digits (DetectionAgent.collect_detections results)
              (collect_detections_wf results)) as (Hwf & _ & Hsub & _).
  assert (Hfields : DetectionResult.image_path d = CapturedImage.file_path captured
                    ∧ DetectionResult.timestamp d = CapturedImage.timestamp captured
                    ∧ DetectionResult.session_id d = CapturedImage.session_id captured
                    ∧ DetectionResult.detected_objects d
                      = DetectionAgent.collect_detections results
                    ∧ DetectionResult.largest_instances d
                      = DetectionAgent.select_largest_instances
                          int_max_str_digits (DetectionAgent.collect_detections results)).
  { by rewrite Hd. }
  destruct Hfields as (Hpath_d & Hts_d & Hsid_d & Hdetected & Hlargest).
  rewrite <- Hlargest in Hwf.
  destruct (evaluation_result_facts exists_at_evaluation gemini_reply py_eval str_of_bytes
                                    st_e d dest_e _ Hwf He)
    as (_ & e' & [= <-] & Hpath & Hts & Hsid & _ & Hsublist & Hnamed).
  destruct (processing_result_facts st_p e dest_p _ Hr)
    as (-> & r' & [= <-] & Hpath' & Hts' & Hsid' & Hfrom).
  rewrite Hpath', Hts', Hsid', Hpath, Hts, Hsid.
  split_and!; try done.
  intros c Hc. destruct (Hfrom c Hc) as [k Hk]. split; [|by apply (Hnamed k)].
  exists k.
  assert (Hin : (k, c) ∈ DetectionResult.largest_instances d).
  { eapply elem_of_sublist; [exact Hk | exact Hsublist]. }
  split; [exact Hin|]. rewrite Hdetected. apply Hsub. by rewrite <- Hlargest.
Qed.
End VisionChain.

(** The chain on the specification's example: the laptop reported was
    detected. *)
Example reported_objects_were_detected_witness :
  ∃ d e r,
    ProcessingResult.resellable_objects r = ["laptop"%string]
    ∧ ProcessingResult.session_id r = CapturedImage.session_id Scenario.captured
    ∧ ∀ c, c ∈ ProcessingResult.resellable_objects r →
           (∃ k, (k, c) ∈ DetectionResult.largest_instances d
                 ∧ (k, c) ∈ DetectionResult.detected_objects d)
           ∧ resellable (EvaluationResult.resellable_items e) c.
Proof.
  edestruct (reported_objects_were_detected
               4300 Scenario.always_exists Scenario.always_exists Scenario.always_exists
               Scenario.two_laptops_and_bottle elements
               (Scenario.replies "['Laptop']") Scenario.eval_capital Scenario.reads_ascii
               Scenario.pil_succeeds
               Scenario.detector_loaded Scenario.evaluator_ready Scenario.processor_idle
               Scenario.captured)
    as (_ & _ & _ & Hsid & Hall).
  - vm_compute. apply list_elem_of_here.
  - vm_compute. apply list_elem_of_here.
  - vm_compute. apply list_elem_of_here.
  - eexists _, _, _. split_and!; [|exact Hsid|exact Hall]. reflexivity.
Defined.

(** ** A pipeline request *)

Section PipelineRequest.
Import PipelineCoordinatorAgent.

(** X21. A pipeline request replaces whatever the store holds under its
    session id: when the first message is sent, the store then holds a
    fresh session for the request, started now, with the initiation step
    and no stage output, and the only message is the recognition request
    with the request's image and session id. When sending it raises, no
    session is left under the id, even if one was there before, one
    failure is counted, and the sender gets a failed result with no
    steps. Other sessions and the count of completed sessions stay. *)
Theorem request_starts_fresh_session now t_id uuid_hex send_raises st sender msg :
  let session_id := CompletePipelineRequest.session_id msg in
  let out := handle_complete_pipeline_request now t_id uuid_hex send_raises
                                              st sender msg in
  completed_sessions out.1 = completed_sessions st
  ∧ (∀ other, other ≠ session_id →
              active_sessions out.1 !! other = active_sessions st !! other)
  ∧ match send_raises with
    | None =>
        active_sessions out.1 !! session_id
        = Some (mkPipelineSession msg now ["image_recognition_initiated"]%string
                                  None None None None false)
        ∧ failed_sessions out.1 = failed_sessions st
        ∧ ∃ request,
            sent out.2 = [(IMAGE_RECOGNITION_ADDRESS, MImageRecognitionRequest request)]
            ∧ ImageRecognitionRequest.image_base64 request
              = CompletePipelineRequest.image_base64 msg
            ∧ ImageRecognitionRequest.session_id request = session_id
    | Some e =>
        active_sessions out.1 !! session_id = None
        ∧ failed_sessions out.1 = S (failed_sessions st)
        ∧ ∃ result,
            sent out.2 = [(sender, MCompletePipelineResult result)]
            ∧ CompletePipelineResult.session_id result = session_id
            ∧ CompletePipelineResult.success result = false
            ∧ CompletePipelineResult.steps_completed result = []
            ∧ is_Some (CompletePipelineResult.error_message result)
    end.
Proof.
  intros session_id out. subst out. split_and!.
  - unfold handle_complete_pipeline_request. by destruct send_raises.
  - intros other Hother. by rewrite request_lookup, decide_False.
  - rewrite request_lookup, decide_True by done.
    unfold handle_complete_pipeline_request.
    destruct send_raises as [e|]; cbn [fst snd failed_sessions store].
    + split_and!; try done. eexists. split; [reflexivity|]. cbn. eauto.
    + split_and!; try done. eexists. split; [reflexivity|]. done.
Qed.
End PipelineRequest.

(** A new request for "s1" discards the finalized session stored under
    that id; the session of another id would be left alone. *)
Example request_starts_fresh_session_witness :
  let out := PipelineCoordinatorAgent.handle_complete_pipeline_request
               500 500 "0a1b2c3d4e5f" None Scenario.coordinator_finalized "web_api"
               Scenario.pipeline_request in
  PipelineCoordinatorAgent.active_sessions out.1 !! "s1"%string
  = Some (PipelineCoordinatorAgent.mkPipelineSession
            Scenario.pipeline_request 500 ["image_recognition_initiated"]%string
            None None None None false)
  ∧ PipelineCoordinatorAgent.active_sessions out.1 !! "s2"%string = None.
Proof.
  destruct (request_starts_fresh_session
              500 500 "0a1b2c3d4e5f" None Scenario.coordinator_finalized "web_api"
              Scenario.pipeline_request) as (_ & Hother & Hfresh & _).
  split; [exact Hfresh|].
  etrans; [apply Hother; vm_compute; intros [=]|]. vm_compute. reflexivity.
Defined.

(** ** A session with nothing resellable *)

Section Completion.
Import ReportCoordinatorAgent.
Variable format_1f : Q → string.
Variable str_of_coordinates : list Z → string.

Abbreviation finalize := (finalize_session format_1f str_of_coordinates).
Abbreviation timeout_check := (session_timeout_check format_1f str_of_coordinates).

(** The session data after its finalization with [reading]. *)
Lemma finalize_session_known reading st session_id session_data :
  sessions st !! session_id = Some session_data →
  ∃ finalized,
    sessions (finalize reading st session_id).1 !! session_id = Some finalized
    ∧ status finalized = "completed"%string
    ∧ end_time finalized = Some (end_time_read reading)
    ∧ start_time finalized = start_time session_data
    ∧ images_processed finalized = images_processed session_data
    ∧ cropped_files finalized = cropped_files session_data
    ∧ processing_results (finalize reading st session_id).1 = processing_results st
    ∧ (∀ other, other ≠ session_id →
                sessions (finalize reading st session_id).1 !! other = sessions st !! other)
    ∧ (finalize reading st session_id).2
      = if open_raises reading then []
        else [Write (session_id ++ "_" ++ REPORT_FILENAME)
                    (report_text format_1f reading (finalize reading st session_id).1
                                 session_id
                                 (generate_report_entry str_of_coordinates
                                    <$> session_results st session_id))].
Proof.
  intros Hs. unfold finalize_session. rewrite Hs.
  cbn [fst snd sessions processing_results]. rewrite lookup_insert_eq.
  eexists. split; [reflexivity|]. cbn [status end_time start_time images_processed
                                       cropped_files].
  split_and!; try done.
  - intros other Hother. by rewrite lookup_insert_ne.
  - unfold write_analysis_report. by destruct (open_raises reading).
Qed.

Lemma finalize_session_unknown reading st session_id :
  sessions st !! session_id = None → finalize reading st session_id = (st, []).
Proof. intros Hs. unfold finalize_session. by rewrite Hs. Qed.

(** The check over the sessions [items] still to visit: a session among
    them that has timed out ends up finalized. *)
Lemma timeout_check_fold current_time reading_of
      (items : list (string * SessionData)) session_id session_data :
  NoDup items.*1 →
  (session_id, session_data) ∈ items →
  timed_out current_time session_data = true →
  ∀ acc : CoordinatorState * list effect,
    (∀ k d, (k, d) ∈ items → is_Some (sessions acc.1 !! k)) →
    ∃ finalized,
      sessions (fold_left
                  (λ (acc : CoordinatorState * list effect) (item : string * SessionData),
                     if timed_out current_time item.2 then
                       let finalized := finalize (reading_of item.1) acc.1 item.1 in
                       (finalized.1, acc.2 ++ finalized.2)
                     else acc) items acc).1 !! session_id = Some finalized
      ∧ status finalized = "completed"%string.
Proof.
  intros Hnd Hin Htimed.
  assert (Hkeep : ∀ (l : list (string * SessionData)) (acc : CoordinatorState * list effect)
                    finalized,
             sessions acc.1 !! session_id = Some finalized →
             status finalized = "completed"%string →
             ∃ finalized',
               sessions (fold_left
                           (λ (acc : CoordinatorState * list effect)
                              (item : string * SessionData),
                              if timed_out current_time item.2 then
                                let finalized := finalize (reading_of item.1) acc.1 item.1 in
                                (finalized.1, acc.2 ++ finalized.2)
                              else acc) l acc).1 !! session_id = Some finalized'
               ∧ status finalized' = "completed"%string).
  { induction l as [|[k d] l IH]; intros acc finalized Hs Hdone; cbn [fold_left].
    - eauto.
    - cbn [fst snd]. destruct (timed_out current_time d); [|by eapply IH].
      destruct (sessions acc.1 !! k) as [dk|] eqn:Hk.
      + destruct (finalize_session_known (reading_of k) acc.1 k dk Hk)
          as (f & Hf & Hfdone & _ & _ & _ & _ & _ & Hother & _).
        destruct (decide (session_id = k)) as [->|Hne].
        * by eapply IH.
        * eapply IH; [cbn [fst]; by rewrite Hother|done].
      + rewrite finalize_session_unknown by done. by eapply IH. }
  induction items as [|[k d] items IH]; intros acc Hacc; [by apply elem_of_nil in Hin|].
  cbn [fold_left]. rewrite fmap_cons in Hnd. apply NoDup_cons in Hnd as [Hk Hnd].
  apply elem_of_cons in Hin as [[= <- <-]|Hin].
  - cbn [fst snd]. rewrite Htimed.
    destruct (Hacc session_id session_data) as [d0 Hd0]; [apply list_elem_of_here|].
    destruct (finalize_session_known (reading_of session_id) acc.1 session_id d0 Hd0)
      as (f & Hf & Hfdone & _).
    by eapply Hkeep.
  - apply IH; [done | done |].
    intros k' d' Hin'. cbn [fst snd].
    destruct (timed_out current_time d); cbn [fst]; [|by eapply Hacc, list_elem_of_further].
    destruct (Hacc k' d') as [d0 Hd0]; [by apply list_elem_of_further|].
    destruct (sessions acc.1 !! k) as [dk|] eqn:Hdk.
    + destruct (finalize_session_known (reading_of k) acc.1 k dk Hdk)
        as (f & Hf & _ & _ & _ & _ & _ & _ & Hother & _).
      destruct (decide (k' = k)) as [->|Hne]; [by rewrite Hf|].
      by rewrite Hother, Hd0.
    + rewrite finalize_session_unknown by done. cbn [fst]. by rewrite Hd0.
Qed.

(** A session that has timed out is finalized by the check. *)
Lemma timeout_check_completes current_time reading_of st session_id session_data :
  sessions st !! session_id = Some session_data →
  timed_out current_time session_data = true →
  ∃ finalized,
    sessions (timeout_check current_time reading_of st).1 !! session_id = Some finalized
    ∧ status finalized = "completed"%string.
Proof.
  intros Hs Htimed. unfold session_timeout_check.
  apply (timeout_check_fold current_time reading_of _ session_id session_data).
  - apply NoDup_fst_map_to_list.
  - by apply elem_of_map_to_list.
  - done.
  - intros k d Hin. apply elem_of_map_to_list in Hin. by eexists.
Qed.
End Completion.

Section WebTask.
Import WebApiAgent.
Variable w : World.

(** The task of the web API ends with the session completed exactly
    when its [try] block ends without an exception, and failed exactly
    when an [Exception] is raised in it. *)
Lemma process_uploaded_files_status session_id session :
  match (process_files w session_id session).2 with
  | Ended =>
      status (process_uploaded_files w session_id session).1 = "completed"%string
      ∧ completed_at (process_uploaded_files w session_id session).1
        = Some (completed_time w)
      ∧ error_message (process_uploaded_files w session_id session).1
        = error_message session
  | Raised e =>
      status (process_uploaded_files w session_id session).1 = "failed"%string
      ∧ error_message (process_uploaded_files w session_id session).1 = e
  | Cancelled =>
      status (process_uploaded_files w session_id session).1 = "processing"%string
  end.
Proof.
  unfold process_uploaded_files.
  destruct (process_files w session_id session) as [[session' effects] ending] eqn:Hp.
  cbn [snd]. destruct ending; cbn [fst status completed_at error_message set_completed
                                   set_failed]; try done.
  - split_and!; try done. revert Hp. unfold process_files.
    destruct (raised _); [done|]. destruct (cancelled w); [done|].
    unfold collect_results.
    repeat match goal with
      | |- context [match ?x with _ => _ end] => destruct x; try done
      end; by intros [= <- _].
  - revert Hp. unfold process_files.
    destruct (raised _); [done|]. destruct (cancelled w); [|by destruct (collect_results _ _ _).2].
    by intros [= <- _].
Qed.

(** When the folder of crops lists no crop of the session, the session
    ends with no cropped object. *)
Lemma process_uploaded_files_no_crop session_id session :
  no_crop_listed w session_id →
  (process_files w session_id session).2 = Ended →
  cropped_objects (process_uploaded_files w session_id session).1 = [].
Proof.
  intros Hnone. unfold process_uploaded_files, process_files.
  destruct (raised _); [done|]. destruct (cancelled w); [done|].
  unfold collect_results.
  destruct (listdir w (CROPPED_FOLDER w)) as [e|cropped] eqn:Hl; [done|].
  assert (Hfilter : List.filter (λ f, PyStr.endswith ".jpg" f && PyStr.contains session_id f)
                                cropped = []).
  { pose proof (λ f, Hnone cropped f Hl) as Hall. clear Hl Hnone.
    induction cropped as [|f cropped IH]; [done|]. simpl.
    rewrite (Hall f) by apply list_elem_of_here.
    apply IH. intros g Hg. apply Hall. by apply list_elem_of_further. }
  rewrite Hfilter.
  repeat match goal with
    | |- context [match ?x with _ => _ end] => destruct x; try done
    end.
Qed.
End WebTask.

Section EmptyIntersection.
Import AiEvaluatorAgent.
Variable path_exists : string → bool.
Variable gemini_reply : string → list string → option string.
Variable py_eval : string → eval_outcome.
Variable str_of_bytes : string → string + string.

Abbreviation evaluation :=
  (evaluate_resellability path_exists gemini_reply py_eval str_of_bytes).

(** When the evaluator sends a message, the image exists, and the
    handler has logged no error and has not been left by an exception. *)
Lemma evaluation_sent_clean (st : EvaluatorState) (msg : DetectionResult.t) dest m :
  (dest, m) ∈ sent (evaluation st msg).2 →
  path_exists (DetectionResult.image_path msg) = true
  ∧ (∀ text, Log Error text ∉ (evaluation st msg).2)
  ∧ (∀ e, Raise e ∉ (evaluation st msg).2).
Proof.
  intros Hin.
  destruct (gemini_model st) as [model|] eqn:Hmodel.
  2:{ destruct (evaluate_resellability_guarded path_exists gemini_reply py_eval
                  str_of_bytes st msg (or_introl Hmodel)) as [_ Hnone].
      rewrite Hnone in Hin. by apply elem_of_nil in Hin. }
  destruct (path_exists (DetectionResult.image_path msg)) eqn:Hpath.
  2:{ destruct (evaluate_resellability_guarded path_exists gemini_reply py_eval
                  str_of_bytes st msg (or_intror Hpath)) as [_ Hnone].
      rewrite Hnone in Hin. by apply elem_of_nil in Hin. }
  split; [done|].
  rewrite evaluate_resellability_run in Hin |- * by (by rewrite ?Hmodel).
  cbv zeta in Hin |- *.
  pose proof (parse_resellable_names_sent py_eval
                (gemini_raw_result gemini_reply st msg)) as [Hsent Hlog].
  assert (Hraise : ∀ names,
             (parse_resellable_names py_eval (gemini_raw_result gemini_reply st msg)).1
             = Some names →
             ∀ e, Raise e ∉ (parse_resellable_names
                                py_eval (gemini_raw_result gemini_reply st msg)).2).
  { unfold parse_resellable_names.
    destruct (py_eval _) as [e0|e0|[s|b|items|ty]]; simpl; intros names Hn e He;
      try done; try (by apply elem_of_nil in He);
      by apply list_elem_of_singleton in He. }
  destruct (parse_resellable_names py_eval _).1 as [names|] eqn:Hparse.
  2:{ cbn [snd] in Hin. rewrite Hsent in Hin. by apply elem_of_nil in Hin. }
  specialize (Hraise names eq_refl).
  destruct (normalize_names names) as [e|normalized].
  { cbn [snd] in Hin. rewrite sent_after_parse in Hin. by apply elem_of_nil in Hin. }
  destruct (names_as_str str_of_bytes names) as [e|resellable_items];
    cbn [snd] in Hin |- *; rewrite sent_after_parse in Hin.
  { by apply elem_of_nil in Hin. }
  split.
  - intros text [Ht|Ht]%elem_of_app; [by apply (Hlog text)|].
    by apply list_elem_of_singleton in Ht.
  - intros e [He|He]%elem_of_app; [by apply (Hraise e)|].
    by apply list_elem_of_singleton in He.
Qed.

(** C2. A session whose evaluation yields no filtered detection is not
    treated as failed, passes the crop stage with zero crops, and
    completes. The evaluator sends its result without logging an error.
    The image processor, given that result, returns at once: it logs no
    error, makes no crop and sends nothing, so no result for the image
    reaches the report coordinator. The report coordinator finalizes a
    session without results as "completed", at the timeout check too,
    and writes the report saying that no resellable objects were
    detected. The web API ends its task with the session "completed"
    and no cropped objects when the folder of crops lists none of the
    session and no exception is raised; it marks a session "failed"
    only for an exception raised in the task. *)
Theorem empty_intersection_completes_session
        (st : EvaluatorState) (msg : DetectionResult.t) (r : EvaluationResult.t) :
  yields_empty_intersection (evaluation st msg).2 r →
  ((∀ text, Log Error text ∉ (evaluation st msg).2)
   ∧ (∀ e, Raise e ∉ (evaluation st msg).2)
   ∧ EvaluationResult.session_id r = DetectionResult.session_id msg)
  ∧ (∀ int_max_str_digits pil_ok (processor_state : ImageProcessorAgent.ProcessorState),
        ImageProcessorAgent.process_evaluated_objects
          int_max_str_digits path_exists pil_ok processor_state r
        = (if bool_decide (ImageProcessorAgent.current_session processor_state
                           ≠ DetectionResult.session_id msg)
           then ImageProcessorAgent.start_session (DetectionResult.session_id msg)
                                                  processor_state
           else processor_state,
           []))
  ∧ (∀ format_1f str_of_coordinates reading coordinator_state session_id session_data,
        ReportCoordinatorAgent.sessions coordinator_state !! session_id
        = Some session_data →
        ReportCoordinatorAgent.session_results coordinator_state session_id = [] →
        let out := ReportCoordinatorAgent.finalize_session
                     format_1f str_of_coordinates reading coordinator_state session_id in
        (∃ finalized,
            ReportCoordinatorAgent.sessions out.1 !! session_id = Some finalized
            ∧ ReportCoordinatorAgent.status finalized = "completed"%string
            ∧ ReportCoordinatorAgent.end_time finalized
              = Some (ReportCoordinatorAgent.end_time_read reading))
        ∧ out.2 = if ReportCoordinatorAgent.open_raises reading then []
                  else [empty_report session_id])
  ∧ (∀ format_1f str_of_coordinates current_time reading_of coordinator_state
       session_id session_data,
        ReportCoordinatorAgent.sessions coordinator_state !! session_id
        = Some session_data →
        ReportCoordinatorAgent.timed_out current_time session_data = true →
        ∃ finalized,
          ReportCoordinatorAgent.sessions
            (ReportCoordinatorAgent.session_timeout_check
               format_1f str_of_coordinates current_time reading_of coordinator_state).1
            !! session_id = Some finalized
          ∧ ReportCoordinatorAgent.status finalized = "completed"%string)
  ∧ (∀ w session_id (session : WebApiAgent.ProcessingSession),
        let out := WebApiAgent.process_uploaded_files w session_id session in
        (no_crop_listed w session_id →
         (WebApiAgent.process_files w session_id session).2 = WebApiAgent.Ended →
         WebApiAgent.status out.1 = "completed"%string
         ∧ WebApiAgent.cropped_objects out.1 = []
         ∧ WebApiAgent.completed_at out.1 = Some (WebApiAgent.completed_time w)
         ∧ WebApiAgent.error_message out.1 = WebApiAgent.error_message session)
        ∧ (WebApiAgent.status out.1 = "failed"%string →
           ∃ e, (WebApiAgent.process_files w session_id session).2 = WebApiAgent.Raised e)).
Proof.
  intros [Hsent Hempty].
  destruct (evaluation_sent_clean st msg _ _ Hsent) as (Hpath & Hlog & Hraise).
  assert (Hfacts : EvaluationResult.image_path r = DetectionResult.image_path msg
                   ∧ EvaluationResult.session_id r = DetectionResult.session_id msg).
  { revert Hsent.
    destruct (gemini_model st) as [model|] eqn:Hmodel.
    2:{ destruct (evaluate_resellability_guarded path_exists gemini_reply py_eval
                    str_of_bytes st msg (or_introl Hmodel)) as [_ ->].
        by intros ?%elem_of_nil. }
    rewrite evaluate_resellability_run by (by rewrite ?Hmodel). cbv zeta.
    destruct (parse_resellable_names py_eval _).1 as [names|].
    2:{ cbn [snd]. rewrite (proj1 (parse_resellable_names_sent py_eval _)).
        by intros ?%elem_of_nil. }
    destruct (normalize_names names) as [e|normalized].
    { cbn [snd]. rewrite sent_after_parse. by intros ?%elem_of_nil. }
    destruct (names_as_str str_of_bytes names) as [e|resellable_items];
      cbn [snd]; rewrite sent_after_parse; [by intros ?%elem_of_nil|].
    intros Hin. apply list_elem_of_singleton in Hin. by injection Hin as ->. }
  destruct Hfacts as [Himage Hsession].
  split_and!; try done.
  - intros m pil_ok pst. unfold ImageProcessorAgent.process_evaluated_objects.
    by rewrite Himage, Hpath, Hsession, Hempty.
  - intros format_1f str_of_coordinates reading st_c session_id session_data Hs Hnone out.
    subst out.
    destruct (finalize_session_known format_1f str_of_coordinates reading
                                     st_c session_id session_data Hs)
      as (f & Hf & Hdone & Hend & _ & _ & _ & _ & _ & Hwrite).
    split; [by exists f|]. rewrite Hwrite, Hnone. done.
  - intros format_1f str_of_coordinates current_time reading_of st_c session_id
           session_data Hs Htimed.
    by eapply timeout_check_completes.
  - intros w session_id session out. subst out.
    pose proof (process_uploaded_files_status w session_id session) as Hstatus.
    split.
    + intros Hnone Hended. rewrite Hended in Hstatus.
      destruct Hstatus as (Hdone & Hat & Herr).
      split_and!; try done. by apply process_uploaded_files_no_crop.
    + intros Hfailed.
      destruct (WebApiAgent.process_files w session_id session).2 as [|e|]; [|by eexists|].
      * destruct Hstatus as (Hdone & _). rewrite Hdone in Hfailed. done.
      * rewrite Hstatus in Hfailed. done.
Qed.
End EmptyIntersection.

(** The classifier names a book, which was not detected: the session
    goes on without a crop and completes. *)
Example empty_intersection_completes_session_witness :
  let effects :=
    (AiEvaluatorAgent.evaluate_resellability
       Scenario.always_exists (Scenario.replies "['book']") Scenario.eval_sample
       Scenario.reads_ascii Scenario.evaluator_ready Scenario.laptop_and_bottle).2 in
  let finalized :=
    ReportCoordinatorAgent.finalize_session
      (λ _, "31.0"%string) (λ _ : list Z, "[0, 0, 100, 100]"%string) (Sample.reads_at 1700000041)
      Sample.coordinator_without_results "session_1700000000" in
  let task :=
    WebApiAgent.process_uploaded_files
      Sample.quiet_world "web_session_1700000000000" Sample.uploaded_session in
  yields_empty_intersection effects Scenario.nothing_resellable
  ∧ (∀ text, Log Error text ∉ effects)
  ∧ ImageProcessorAgent.process_evaluated_objects
      4300%nat Scenario.always_exists Scenario.pil_succeeds
      Scenario.processor_idle Scenario.nothing_resellable
    = (ImageProcessorAgent.start_session "session_1" Scenario.processor_idle, [])
  ∧ finalized.2 = [empty_report "session_1700000000"]
  ∧ WebApiAgent.status task.1 = "completed"%string
  ∧ WebApiAgent.cropped_objects task.1 = [].
Proof.
  intros effects finalized task.
  assert (Hyields : yields_empty_intersection effects Scenario.nothing_resellable).
  { split; [|reflexivity]. vm_compute. apply list_elem_of_here. }
  destruct (empty_intersection_completes_session
              Scenario.always_exists (Scenario.replies "['book']") Scenario.eval_sample
              Scenario.reads_ascii Scenario.evaluator_ready Scenario.laptop_and_bottle
              Scenario.nothing_resellable Hyields)
    as ((Hlog & _ & _) & Hcrop & Hfinal & _ & Hweb).
  split_and!.
  - exact Hyields.
  - exact Hlog.
  - rewrite (Hcrop 4300%nat Scenario.pil_succeeds Scenario.processor_idle). reflexivity.
  - destruct (Hfinal (λ _, "31.0"%string) (λ _ : list Z, "[0, 0, 100, 100]"%string)
                     (Sample.reads_at 1700000041) Sample.coordinator_without_results
                     "session_1700000000"
                     (ReportCoordinatorAgent.mkSessionData
                        1700000000 10 6 1 0 0 ∅ [] "active" None)) as [_ Hwrite].
    + vm_compute. reflexivity.
    + reflexivity.
    + exact Hwrite.
  - destruct (Hweb Sample.quiet_world "web_session_1700000000000" Sample.uploaded_session)
      as [Hdone _].
    apply Hdone; [intros cropped f [= <-] Hf; by apply elem_of_nil in Hf | reflexivity].
  - destruct (Hweb Sample.quiet_world "web_session_1700000000000" Sample.uploaded_session)
      as [Hdone _].
    apply Hdone; [intros cropped f [= <-] Hf; by apply elem_of_nil in Hf | reflexivity].
Defined.
